(** * basedlink-backend: the response normaliser and the payment routes

    A shallow embedding of [cleanAndParseJSON] (both variants found in
    [services/ai-service]), of the JavaScript string, regular-expression
    and JSON primitives it is built from, and of the HTTP handlers of
    [server.ts], [routes/payment.ts], [routes/polish.ts],
    [routes/generate.ts] and [routes/grant.ts]. *)

From Stdlib Require Import List NArith ZArith Bool Lia String Ascii Arith Setoid.
Import ListNotations.

Set Implicit Arguments.

(** ** JavaScript strings

    A JavaScript string is a sequence of UTF-16 code units; a code unit is
    modelled by its number. *)

Definition code_unit := N.
Definition jsstring := list code_unit.

Definition lit (s : string) : jsstring :=
  List.map N_of_ascii (list_ascii_of_string s).

Definition cu_eqb (a b : code_unit) : bool := N.eqb a b.

Fixpoint str_eqb (a b : jsstring) : bool :=
  match a, b with
  | [], [] => true
  | x :: a', y :: b' => cu_eqb x y && str_eqb a' b'
  | _, _ => false
  end.

(** Code units the source names. *)
Definition TAB : code_unit := 9%N.
Definition LF : code_unit := 10%N.
Definition CR : code_unit := 13%N.
Definition SP : code_unit := 32%N.
Definition DQUOTE : code_unit := 34%N.
Definition SQUOTE : code_unit := 39%N.
Definition RPAREN : code_unit := 41%N.
Definition STAR : code_unit := 42%N.
Definition COMMA : code_unit := 44%N.
Definition MINUS : code_unit := 45%N.
Definition DOT : code_unit := 46%N.
Definition COLON : code_unit := 58%N.
Definition LBRACKET : code_unit := 91%N.
Definition BACKSLASH : code_unit := 92%N.
Definition RBRACKET : code_unit := 93%N.
Definition BACKTICK : code_unit := 96%N.
Definition LBRACE : code_unit := 123%N.
Definition RBRACE : code_unit := 125%N.
Definition BULLET : code_unit := 8226%N.

(** ECMAScript WhiteSpace and LineTerminator: what [trim] strips and what
    the class [\s] matches. *)
Definition isWhiteSpace (c : code_unit) : bool :=
  ((9 <=? c) && (c <=? 13) || (c =? 32) || (c =? 160) || (c =? 5760)
   || (8192 <=? c) && (c <=? 8202) || (c =? 8232) || (c =? 8233)
   || (c =? 8239) || (c =? 8287) || (c =? 12288) || (c =? 65279))%N.

Definition isDigit (c : code_unit) : bool := ((48 <=? c) && (c <=? 57))%N.

Fixpoint trimStart (s : jsstring) : jsstring :=
  match s with
  | c :: s' => if isWhiteSpace c then trimStart s' else s
  | [] => []
  end.

Definition trimEnd (s : jsstring) : jsstring := rev (trimStart (rev s)).

Definition trim (s : jsstring) : jsstring := trimEnd (trimStart s).

(** [toLowerCase].  The source only tests the lowered text against phrases
    of Basic Latin letters, so what matters is which code units lower to
    such letters: [A]-[Z], the Kelvin sign (to [k]) and the dotted capital
    I (to [i] followed by a combining dot).  The Latin-1 capitals are
    lowered as Unicode does; other code units have a lower-case form
    outside Basic Latin and are left as they are. *)
Definition lower_cu (c : code_unit) : jsstring :=
  (if (65 <=? c) && (c <=? 90) then [c + 32]
   else if (192 <=? c) && (c <=? 222) && negb (c =? 215) then [c + 32]
   else if c =? 8490 then [107]
   else if c =? 304 then [105; 775]
   else [c])%N.

Definition toLowerCase (s : jsstring) : jsstring := flat_map lower_cu s.

Fixpoint startsWith (p s : jsstring) : bool :=
  match p, s with
  | [], _ => true
  | x :: p', y :: s' => cu_eqb x y && startsWith p' s'
  | _ :: _, [] => false
  end.

Fixpoint includes (p s : jsstring) : bool :=
  startsWith p s || match s with
                    | [] => false
                    | _ :: s' => includes p s'
                    end.

(** [indexOf] and [lastIndexOf] of a single code unit: an index, or [-1]. *)
Fixpoint indexOf_from (c : code_unit) (s : jsstring) (i : Z) : Z :=
  match s with
  | [] => (-1)%Z
  | x :: s' => if cu_eqb x c then i else indexOf_from c s' (i + 1)%Z
  end.

Definition indexOf (c : code_unit) (s : jsstring) : Z := indexOf_from c s 0%Z.

Fixpoint lastIndexOf_from (c : code_unit) (s : jsstring) (i : Z) (found : Z) : Z :=
  match s with
  | [] => found
  | x :: s' => lastIndexOf_from c s' (i + 1)%Z (if cu_eqb x c then i else found)
  end.

Definition lastIndexOf (c : code_unit) (s : jsstring) : Z :=
  lastIndexOf_from c s 0%Z (-1)%Z.

(** [substring(a, b)]: both ends are clamped to the string and swapped when
    out of order. *)
Definition substring (s : jsstring) (a b : Z) : jsstring :=
  let len := Z.of_nat (List.length s) in
  let a' := Z.min (Z.max a 0) len in
  let b' := Z.min (Z.max b 0) len in
  let from := Z.min a' b' in
  let to := Z.max a' b' in
  firstn (Z.to_nat (to - from)) (skipn (Z.to_nat from) s).

(** ** Regular expressions

    The fragment of ECMAScript regular expressions the source uses, with
    the backtracking semantics of the language: alternatives are tried
    left to right, quantifiers are greedy unless marked lazy, and a
    quantifier gives back what it took when the rest of the pattern fails.
    Every quantified atom of the source is a single-character class. *)

Inductive regex : Type :=
| Empty
| Char (c : code_unit)
| Class (p : code_unit -> bool)
| Seq (r1 r2 : regex)
| Alt (r1 r2 : regex)
| Star (p : code_unit -> bool)
| LazyStar (p : code_unit -> bool)
| Bol
| Eol
| NegLook (r : regex).

Definition Opt (r : regex) : regex := Alt r Empty.
Definition Plus (p : code_unit -> bool) : regex := Seq (Class p) (Star p).

Fixpoint Lit (s : jsstring) : regex :=
  match s with
  | [] => Empty
  | [c] => Char c
  | c :: s' => Seq (Char c) (Lit s')
  end.

(** Canonicalisation under the [i] flag, on Basic Latin.  The patterns of
    the source hold Basic Latin letters only, and no code unit outside
    Basic Latin canonicalises into it. *)
Definition Canonicalize (c : code_unit) : code_unit :=
  (if (97 <=? c) && (c <=? 122) then c - 32 else c)%N.

Definition char_matches (icase : bool) (c x : code_unit) : bool :=
  if icase then cu_eqb (Canonicalize c) (Canonicalize x) else cu_eqb c x.

Section Matcher.

Variable icase : bool.

(** A continuation receives: whether the position is still the start of
    the subject, how many code units the match has consumed, and what is
    left of the subject.  It answers with the length of the whole match. *)
Definition cont := bool -> nat -> jsstring -> option nat.

Fixpoint star_greedy (p : code_unit -> bool) (b : bool) (n : nat)
  (s : jsstring) (k : cont) : option nat :=
  match s with
  | c :: s' =>
      if p c then
        match star_greedy p false (S n) s' k with
        | Some r => Some r
        | None => k b n s
        end
      else k b n s
  | [] => k b n s
  end.

Fixpoint star_lazy (p : code_unit -> bool) (b : bool) (n : nat)
  (s : jsstring) (k : cont) : option nat :=
  match k b n s with
  | Some r => Some r
  | None =>
      match s with
      | c :: s' => if p c then star_lazy p false (S n) s' k else None
      | [] => None
      end
  end.

Fixpoint rmatch (r : regex) (b : bool) (n : nat) (s : jsstring) (k : cont)
  : option nat :=
  match r with
  | Empty => k b n s
  | Char c =>
      match s with
      | x :: s' => if char_matches icase c x then k false (S n) s' else None
      | [] => None
      end
  | Class p =>
      match s with
      | x :: s' => if p x then k false (S n) s' else None
      | [] => None
      end
  | Seq r1 r2 => rmatch r1 b n s (fun b' n' s' => rmatch r2 b' n' s' k)
  | Alt r1 r2 =>
      match rmatch r1 b n s k with
      | Some r => Some r
      | None => rmatch r2 b n s k
      end
  | Star p => star_greedy p b n s k
  | LazyStar p => star_lazy p b n s k
  | Bol => if b then k b n s else None
  | Eol => match s with [] => k b n s | _ :: _ => None end
  | NegLook r' =>
      match rmatch r' b n s (fun _ n' _ => Some n') with
      | Some _ => None
      | None => k b n s
      end
  end.

(** The match of [r] anchored at the current position: its length. *)
Definition match_at (r : regex) (b : bool) (s : jsstring) : option nat :=
  rmatch r b 0 s (fun _ n _ => Some n).

(** [String.prototype.replace] with a global pattern: every match, found
    left to right, is replaced; after an empty match the scan moves on by
    one code unit.  [skip] counts the code units of the current match that
    are still to be passed over. *)
Fixpoint replaceAll_from (r : regex) (repl : jsstring) (b : bool)
  (skip : nat) (s : jsstring) : jsstring :=
  match skip with
  | S n =>
      match s with
      | _ :: s' => replaceAll_from r repl false n s'
      | [] => []
      end
  | O =>
      match match_at r b s with
      | Some (S n) =>
          repl ++ match s with
                  | _ :: s' => replaceAll_from r repl false n s'
                  | [] => []
                  end
      | Some O =>
          repl ++ match s with
                  | c :: s' => c :: replaceAll_from r repl false 0 s'
                  | [] => []
                  end
      | None =>
          match s with
          | c :: s' => c :: replaceAll_from r repl false 0 s'
          | [] => []
          end
      end
  end.

Definition replaceAll (r : regex) (repl : jsstring) (s : jsstring) : jsstring :=
  replaceAll_from r repl true 0 s.

(** [replace] with a pattern that is not global: the leftmost match only. *)
Fixpoint replaceFirst_from (r : regex) (repl : jsstring) (b : bool)
  (s : jsstring) : jsstring :=
  match match_at r b s with
  | Some n => repl ++ skipn n s
  | None =>
      match s with
      | c :: s' => c :: replaceFirst_from r repl false s'
      | [] => []
      end
  end.

Definition replaceFirst (r : regex) (repl : jsstring) (s : jsstring) : jsstring :=
  replaceFirst_from r repl true s.

(** [String.prototype.match] with a pattern that is not global: the text
    of the leftmost match, or nothing. *)
Fixpoint exec_from (r : regex) (b : bool) (s : jsstring) : option jsstring :=
  match match_at r b s with
  | Some n => Some (firstn n s)
  | None =>
      match s with
      | _ :: s' => exec_from r false s'
      | [] => None
      end
  end.

Definition exec (r : regex) (s : jsstring) : option jsstring := exec_from r true s.

(** [String.prototype.split] with a pattern.  [cur] holds, reversed, the
    piece that has been read since the last separator.  No match is tried
    at the end of the subject, and an empty match right after a separator
    does not split. *)
Fixpoint split_from (r : regex) (b : bool) (skip : nat) (cur : jsstring)
  (s : jsstring) : list jsstring :=
  match s with
  | [] => [rev cur]
  | c :: s' =>
      match skip with
      | S n => split_from r false n cur s'
      | O =>
          match match_at r b s with
          | Some (S n) => rev cur :: split_from r false n [] s'
          | Some O =>
              match cur with
              | [] => split_from r false 0 [c] s'
              | _ :: _ => rev cur :: split_from r false 0 [c] s'
              end
          | None => split_from r false 0 (c :: cur) s'
          end
      end
  end.

Definition split_re (r : regex) (s : jsstring) : list jsstring :=
  match s with
  | [] => match match_at r true [] with Some _ => [] | None => [[]] end
  | _ :: _ => split_from r true 0 [] s
  end.

End Matcher.

(** ** JSON.parse

    The JSON grammar (ECMA-404), read one code unit at a time by a machine
    with a stack of open arrays and objects.  [JSON_parse] answers [None]
    where [JSON.parse] throws a [SyntaxError].  A number keeps its lexeme
    (the double it denotes is a function of the lexeme) and an object its
    members in the order read. *)

#[local] Unset Elimination Schemes.

Inductive json : Type :=
| JNull
| JBool (b : bool)
| JNumber (lexeme : jsstring)
| JString (s : jsstring)
| JArray (elements : list json)
| JObject (members : list (jsstring * json)).

#[local] Set Elimination Schemes.

Module JSON.

(** An open container: the elements read so far, latest first, and for an
    object the key that waits for its value. *)
Inductive frame : Type :=
| FArray (done : list json)
| FObject (done : list (jsstring * json)) (key : option jsstring).

Inductive escape : Type :=
| ENone
| EBackslash
| EUnicode (k : nat) (acc : N).

Inductive numstate : Type :=
| NMinus | NZero | NInt | NDot | NFrac | NExp | NExpSign | NExpDigits.

Inductive literal : Type := LTrue | LFalse | LNull.

Definition literal_value (l : literal) : json :=
  match l with
  | LTrue => JBool true
  | LFalse => JBool false
  | LNull => JNull
  end.

Definition literal_text (l : literal) : jsstring :=
  match l with
  | LTrue => lit "true"
  | LFalse => lit "false"
  | LNull => lit "null"
  end.

Inductive mode : Type :=
| MValue
| MValueOrEnd
| MKeyOrEnd
| MKey
| MColon
| MAfter
| MString (iskey : bool) (buf : jsstring) (esc : escape)
| MNumber (buf : jsstring) (ns : numstate)
| MLiteral (l : literal) (seen : nat).

Record state : Type := mkState {
  stack : list frame;
  md : mode;
  top : option json
}.

Definition initial : state := mkState [] MValue None.

Definition isJSONWhiteSpace (c : code_unit) : bool :=
  ((c =? 32) || (c =? 9) || (c =? 10) || (c =? 13))%N.

Definition hexValue (c : code_unit) : option N :=
  (if (48 <=? c) && (c <=? 57) then Some (c - 48)
   else if (97 <=? c) && (c <=? 102) then Some (c - 87)
   else if (65 <=? c) && (c <=? 70) then Some (c - 55)
   else None)%N.

(** A value is complete: it goes into the innermost open container, or
    becomes the result when none is open. *)
Definition complete (stk : list frame) (v : json) : option state :=
  match stk with
  | [] => Some (mkState [] MAfter (Some v))
  | FArray done :: stk' => Some (mkState (FArray (v :: done) :: stk') MAfter None)
  | FObject done (Some k) :: stk' =>
      Some (mkState (FObject ((k, v) :: done) None :: stk') MAfter None)
  | FObject _ None :: _ => None
  end.

Definition close_array (stk : list frame) : option state :=
  match stk with
  | FArray done :: stk' => complete stk' (JArray (rev done))
  | _ => None
  end.

Definition close_object (stk : list frame) : option state :=
  match stk with
  | FObject done None :: stk' => complete stk' (JObject (rev done))
  | _ => None
  end.

Definition set_key (stk : list frame) (k : jsstring) : option state :=
  match stk with
  | FObject done None :: stk' => Some (mkState (FObject done (Some k) :: stk') MColon None)
  | _ => None
  end.

(** After a value: a separator, a closing bracket, or white space. *)
Definition step_after (stk : list frame) (t : option json) (c : code_unit)
  : option state :=
  if isJSONWhiteSpace c then Some (mkState stk MAfter t)
  else if cu_eqb c COMMA then
    match stk with
    | FArray _ :: _ => Some (mkState stk MValue None)
    | FObject _ None :: _ => Some (mkState stk MKey None)
    | _ => None
    end
  else if cu_eqb c RBRACKET then close_array stk
  else if cu_eqb c RBRACE then close_object stk
  else None.

(** The first code unit of a value. *)
Definition step_value (stk : list frame) (c : code_unit) : option state :=
  if cu_eqb c LBRACKET then Some (mkState (FArray [] :: stk) MValueOrEnd None)
  else if cu_eqb c LBRACE then Some (mkState (FObject [] None :: stk) MKeyOrEnd None)
  else if cu_eqb c DQUOTE then Some (mkState stk (MString false [] ENone) None)
  else if cu_eqb c MINUS then Some (mkState stk (MNumber [c] NMinus) None)
  else if cu_eqb c 48%N then Some (mkState stk (MNumber [c] NZero) None)
  else if isDigit c then Some (mkState stk (MNumber [c] NInt) None)
  else if cu_eqb c 116%N then Some (mkState stk (MLiteral LTrue 1) None)
  else if cu_eqb c 102%N then Some (mkState stk (MLiteral LFalse 1) None)
  else if cu_eqb c 110%N then Some (mkState stk (MLiteral LNull 1) None)
  else None.

Definition finish_string (stk : list frame) (iskey : bool) (buf : jsstring)
  : option state :=
  if iskey then set_key stk (rev buf) else complete stk (JString (rev buf)).

Definition step_string (stk : list frame) (iskey : bool) (buf : jsstring)
  (esc : escape) (c : code_unit) : option state :=
  let continue b := Some (mkState stk (MString iskey b ENone) None) in
  match esc with
  | ENone =>
      if cu_eqb c DQUOTE then finish_string stk iskey buf
      else if cu_eqb c BACKSLASH then Some (mkState stk (MString iskey buf EBackslash) None)
      else if (c <? 32)%N then None
      else continue (c :: buf)
  | EBackslash =>
      if cu_eqb c DQUOTE then continue (DQUOTE :: buf)
      else if cu_eqb c BACKSLASH then continue (BACKSLASH :: buf)
      else if cu_eqb c 47%N then continue (47%N :: buf)
      else if cu_eqb c 98%N then continue (8%N :: buf)
      else if cu_eqb c 102%N then continue (12%N :: buf)
      else if cu_eqb c 110%N then continue (LF :: buf)
      else if cu_eqb c 114%N then continue (CR :: buf)
      else if cu_eqb c 116%N then continue (TAB :: buf)
      else if cu_eqb c 117%N then Some (mkState stk (MString iskey buf (EUnicode 0 0%N)) None)
      else None
  | EUnicode k acc =>
      match hexValue c with
      | Some h =>
          let acc' := (acc * 16 + h)%N in
          if Nat.eqb k 3 then continue (acc' :: buf)
          else Some (mkState stk (MString iskey buf (EUnicode (S k) acc')) None)
      | None => None
      end
  end.

(** The number grammar: where a code unit continues the lexeme, and the
    states in which the lexeme may end. *)
Definition num_next (ns : numstate) (c : code_unit) : option numstate :=
  let isE := (cu_eqb c 101%N || cu_eqb c 69%N) in
  match ns with
  | NMinus => if cu_eqb c 48%N then Some NZero else if isDigit c then Some NInt else None
  | NZero => if cu_eqb c DOT then Some NDot else if isE then Some NExp else None
  | NInt =>
      if isDigit c then Some NInt
      else if cu_eqb c DOT then Some NDot
      else if isE then Some NExp else None
  | NDot => if isDigit c then Some NFrac else None
  | NFrac => if isDigit c then Some NFrac else if isE then Some NExp else None
  | NExp =>
      if cu_eqb c 43%N || cu_eqb c MINUS then Some NExpSign
      else if isDigit c then Some NExpDigits else None
  | NExpSign => if isDigit c then Some NExpDigits else None
  | NExpDigits => if isDigit c then Some NExpDigits else None
  end.

Definition num_accepting (ns : numstate) : bool :=
  match ns with
  | NZero | NInt | NFrac | NExpDigits => true
  | _ => false
  end.

Definition step (st : state) (c : code_unit) : option state :=
  let stk := stack st in
  match md st with
  | MValue =>
      if isJSONWhiteSpace c then Some st else step_value stk c
  | MValueOrEnd =>
      if isJSONWhiteSpace c then Some st
      else if cu_eqb c RBRACKET then close_array stk
      else step_value stk c
  | MKeyOrEnd =>
      if isJSONWhiteSpace c then Some st
      else if cu_eqb c RBRACE then close_object stk
      else if cu_eqb c DQUOTE then Some (mkState stk (MString true [] ENone) None)
      else None
  | MKey =>
      if isJSONWhiteSpace c then Some st
      else if cu_eqb c DQUOTE then Some (mkState stk (MString true [] ENone) None)
      else None
  | MColon =>
      if isJSONWhiteSpace c then Some st
      else if cu_eqb c COLON then Some (mkState stk MValue None)
      else None
  | MAfter => step_after stk (top st) c
  | MString iskey buf esc => step_string stk iskey buf esc c
  | MNumber buf ns =>
      match num_next ns c with
      | Some ns' => Some (mkState stk (MNumber (c :: buf) ns') None)
      | None =>
          if num_accepting ns then
            match complete stk (JNumber (rev buf)) with
            | Some st' => step_after (stack st') (top st') c
            | None => None
            end
          else None
      end
  | MLiteral l seen =>
      match nth_error (literal_text l) seen with
      | Some x =>
          if cu_eqb c x then
            if Nat.eqb (S seen) (List.length (literal_text l))
            then complete stk (literal_value l)
            else Some (mkState stk (MLiteral l (S seen)) None)
          else None
      | None => None
      end
  end.

Fixpoint run (st : state) (s : jsstring) : option state :=
  match s with
  | [] => Some st
  | c :: s' =>
      match step st c with
      | Some st' => run st' s'
      | None => None
      end
  end.

(** The end of the text: a value must be complete and nothing open. *)
Definition finalize (st : state) : option json :=
  match stack st, md st with
  | [], MAfter => top st
  | [], MNumber buf ns => if num_accepting ns then Some (JNumber (rev buf)) else None
  | _, _ => None
  end.

Definition parse (s : jsstring) : option json :=
  match run initial s with
  | Some st => finalize st
  | None => None
  end.

End JSON.

Definition JSON_parse (text : jsstring) : option json := JSON.parse text.

(** ** The response normaliser

    [cleanAndParseJSON] returns a JavaScript array: of whatever
    [JSON.parse] found when a JSON stage succeeds, of strings otherwise. *)

Definition strings (l : list jsstring) : list json := List.map JString l.

Module AiService.

(** The patterns of the source, each under the pattern it embeds; in
    these comments [Q] stands for the double-quote character. *)

(** [/```json/gi] and [/```/g] *)
Definition re_fence_json : regex := Lit (lit "```json").
Definition re_fence : regex := Lit (lit "```").

(** [/\n\s*(?![Q}\]])/g] *)
Definition re_bare_newline : regex :=
  Seq (Char LF)
    (Seq (Star isWhiteSpace)
       (NegLook (Class (fun c => cu_eqb c DQUOTE || cu_eqb c RBRACE || cu_eqb c RBRACKET)))).

(** [/Q,\s*|,\s*Q/] *)
Definition re_quote_comma : regex :=
  Alt (Seq (Char DQUOTE) (Seq (Char COMMA) (Star isWhiteSpace)))
      (Seq (Char COMMA) (Seq (Star isWhiteSpace) (Char DQUOTE))).

(** [/^\[?Q|Q?\]?$/g] *)
Definition re_quote_edges : regex :=
  Alt (Seq Bol (Seq (Opt (Char LBRACKET)) (Char DQUOTE)))
      (Seq (Opt (Char DQUOTE)) (Seq (Opt (Char RBRACKET)) Eol)).

(** [/(?:\r\n|\r|\n)\s*(?:[\d]+[\.\)]|\-|\*|•|Option \d+|Variation \d+)\s+/i],
    in three parts: the line break, the alternatives for the marker, and
    the whole. *)
Definition re_line_break : regex :=
  Alt (Seq (Char CR) (Char LF)) (Alt (Char CR) (Char LF)).

Definition re_marker : regex :=
  Alt (Seq (Plus isDigit) (Class (fun c => cu_eqb c DOT || cu_eqb c RPAREN)))
    (Alt (Char MINUS)
       (Alt (Char STAR)
          (Alt (Char BULLET)
             (Alt (Seq (Lit (lit "Option ")) (Plus isDigit))
                  (Seq (Lit (lit "Variation ")) (Plus isDigit)))))).

Definition re_list_marker : regex :=
  Seq re_line_break
    (Seq (Star isWhiteSpace) (Seq re_marker (Plus isWhiteSpace))).

(** [/^\[Q|Q$|^Q|Q,?$/g] *)
Definition re_item_edges : regex :=
  Alt (Seq Bol (Seq (Char LBRACKET) (Char DQUOTE)))
    (Alt (Seq (Char DQUOTE) Eol)
       (Alt (Seq Bol (Char DQUOTE))
            (Seq (Char DQUOTE) (Seq (Opt (Char COMMA)) Eol)))).

(** [/\n\n+/] *)
Definition re_blank_line : regex := Seq (Char LF) (Plus (fun c => cu_eqb c LF)).

(** The inner [try]: newlines not followed by a structural character are
    escaped, and the whole text is parsed again. *)
Definition parseRepaired (cleaned : jsstring) : option (list json) :=
  let fixed := replaceAll false re_bare_newline (lit "\n") cleaned in
  match JSON_parse fixed with
  | Some (JArray parsed) => Some parsed
  | _ => None
  end.

(** Step 2, the outer [try].  When [JSON.parse] throws on the bracketed
    substring, control leaves the block for its [catch]: the repaired parse
    is then not attempted. *)
Definition extractJSON (cleaned : jsstring) : option (list json) :=
  let firstOpen := indexOf LBRACKET cleaned in
  let lastClose := lastIndexOf RBRACKET cleaned in
  if (negb (firstOpen =? -1) && negb (lastClose =? -1) && (lastClose >? firstOpen))%Z
  then
    let potentialJson := substring cleaned firstOpen (lastClose + 1)%Z in
    match JSON_parse potentialJson with
    | None => None
    | Some (JArray parsed) => Some parsed
    | Some _ => parseRepaired cleaned
    end
  else parseRepaired cleaned.

Definition cleanText (text : jsstring) : jsstring :=
  trim (replaceAll false re_fence [] (replaceAll true re_fence_json [] text)).

Definition quotedItemsOf (cleaned : jsstring) : list jsstring :=
  filter (fun i => 5 <? List.length i)
    (List.map (fun item => trim (replaceAll false re_quote_edges [] item))
       (split_re false re_quote_comma cleaned)).

Definition keepItem (item : jsstring) : bool :=
  let lower := toLowerCase item in
  if List.length item <? 5 then false
  else if startsWith (lit "here are") lower then false
  else if startsWith (lit "berikut adalah") lower then false
  else if startsWith (lit "sure!") lower then false
  else if includes (lit "linkedin post") lower then false
  else true.

Definition validItemsOf (text : jsstring) : list jsstring :=
  let listItems := split_re true re_list_marker text in
  List.map (fun item => trim (replaceAll false re_item_edges [] item))
    (filter keepItem (List.map trim listItems)).

Definition paragraphsOf (text : jsstring) : list jsstring :=
  filter (fun p => 20 <? List.length p)
    (List.map trim (split_re false re_blank_line text)).

Definition cleanAndParseJSON (text : jsstring) : list json :=
  let cleaned := cleanText text in
  match extractJSON cleaned with
  | Some parsed => parsed
  | None =>
      let quotedItems := quotedItemsOf cleaned in
      if (includes [DQUOTE; COMMA; SP; DQUOTE] cleaned || startsWith [DQUOTE] cleaned)
         && (1 <? List.length quotedItems)
      then strings quotedItems
      else
        let validItems := validItemsOf text in
        if 1 <? List.length validItems then strings validItems
        else
          let paragraphs := paragraphsOf text in
          if 1 <? List.length paragraphs then strings paragraphs
          else [JString text]
  end.

End AiService.

(** The variant of the service that takes grant credentials carries the
    earlier, simpler cleaner. *)
Module AiServiceGrant.

(** [/\[([\s\S]*?)\]/] *)
Definition re_array : regex :=
  Seq (Char LBRACKET) (Seq (LazyStar (fun _ => true)) (Char RBRACKET)).

(** [/^\d+[\.\)]\s*/] *)
Definition re_ordinal : regex :=
  Seq Bol (Seq (Plus isDigit)
             (Seq (Class (fun c => cu_eqb c DOT || cu_eqb c RPAREN)) (Star isWhiteSpace))).

(** [/^[Q']|[Q']$/g] *)
Definition re_quotes : regex :=
  let quote := fun c => cu_eqb c DQUOTE || cu_eqb c SQUOTE in
  Alt (Seq Bol (Class quote)) (Seq (Class quote) Eol).

(** [/,$/] *)
Definition re_trailing_comma : regex := Seq (Char COMMA) Eol.

Definition arrayOf (cleaned : jsstring) : option (list json) :=
  match exec false re_array cleaned with
  | Some arrayMatch =>
      match JSON_parse arrayMatch with
      | Some (JArray parsed) => if 0 <? List.length parsed then Some parsed else None
      | _ => None
      end
  | None => None
  end.

Definition linesOf (text : jsstring) : list jsstring :=
  List.map (replaceFirst false re_trailing_comma [])
    (List.map (replaceAll false re_quotes [])
       (List.map (replaceFirst false re_ordinal [])
          (filter (fun l => negb (startsWith [RBRACKET] l))
             (filter (fun l => negb (startsWith [LBRACKET] l))
                (filter (fun l => negb (includes (lit "here are") (toLowerCase l)))
                   (filter (fun l => 10 <? List.length l)
                      (List.map trim (split_re false (Char LF) text)))))))).

Definition cleanAndParseJSON (text : jsstring) : list json :=
  let cleaned := AiService.cleanText text in
  match arrayOf cleaned with
  | Some parsed => parsed
  | None =>
      let lines := linesOf text in
      if 0 <? List.length lines then strings lines else []
  end.

End AiServiceGrant.

(** ** Inputs named by the specification *)

Definition quoted (s : jsstring) : jsstring := [DQUOTE] ++ s ++ [DQUOTE].

(** The text [1. First item], [2. Second item], [3. Third item] on three
    lines. *)
Definition three_ordinals : jsstring :=
  lit "1. First item" ++ [LF] ++ lit "2. Second item" ++ [LF] ++ lit "3. Third item".

(** The text of the JSON array of the strings [a], [b], [c]. *)
Definition abc_array : jsstring :=
  lit "[" ++ quoted (lit "a") ++ lit ", " ++ quoted (lit "b") ++ lit ", "
    ++ quoted (lit "c") ++ lit "]".

Definition preamble : jsstring := lit "Here are some options:".

(** A value that is a string with at least one code unit. *)
Definition nonEmptyString (v : json) : Prop :=
  exists s, v = JString s /\ s <> [].

Definition isString (v : json) : Prop := exists s, v = JString s.

(** ** The control skeleton of the parser

    What the parser does next never depends on the text of the strings and
    numbers it has read, nor on the elements it has collected: [erase]
    forgets them and keeps the rest. *)

Definition erase_json (v : json) : json :=
  match v with
  | JArray _ => JArray []
  | _ => JNull
  end.

Definition erase_frame (f : JSON.frame) : JSON.frame :=
  match f with
  | JSON.FArray _ => JSON.FArray []
  | JSON.FObject _ key => JSON.FObject [] (option_map (fun _ => []) key)
  end.

Definition erase_escape (e : JSON.escape) : JSON.escape :=
  match e with
  | JSON.EUnicode k _ => JSON.EUnicode k 0%N
  | _ => e
  end.

Definition erase_mode (m : JSON.mode) : JSON.mode :=
  match m with
  | JSON.MString iskey _ esc => JSON.MString iskey [] (erase_escape esc)
  | JSON.MNumber _ ns => JSON.MNumber [] ns
  | _ => m
  end.

Definition erase (st : JSON.state) : JSON.state :=
  JSON.mkState (List.map erase_frame (JSON.stack st)) (erase_mode (JSON.md st))
    (match JSON.md st with
     | JSON.MAfter => option_map erase_json (JSON.top st)
     | _ => None
     end).

Definition same_shape (st st' : JSON.state) : Prop := erase st = erase st'.

Definition same_shape_opt (o o' : option JSON.state) : Prop :=
  option_map erase o = option_map erase o'.

Definition same_stack (stk stk' : list JSON.frame) : Prop :=
  List.map erase_frame stk = List.map erase_frame stk'.

Definition in_string (st : JSON.state) : Prop :=
  exists iskey buf, JSON.md st = JSON.MString iskey buf JSON.ENone.

(** Whether the literal pattern [p] matches at the head of [s]. *)
Fixpoint prefix_matches (icase : bool) (p s : jsstring) : bool :=
  match p, s with
  | [], _ => true
  | x :: p', y :: s' => char_matches icase x y && prefix_matches icase p' s'
  | _ :: _, [] => false
  end.

(** A code unit that may stand unescaped inside a JSON string. *)
Definition plain (c : code_unit) : bool :=
  negb (c <? 32)%N && negb (cu_eqb c DQUOTE) && negb (cu_eqb c BACKSLASH).

(** States from which the text cannot turn out to be an array: the
    outermost open container is an object, or the value being read at the
    top level is a string, a number or a literal. *)
Definition object_rooted (stk : list JSON.frame) : Prop :=
  exists stk1 done key, stk = stk1 ++ [JSON.FObject done key].

Definition scalar_mode (m : JSON.mode) (t : option json) : Prop :=
  match m with
  | JSON.MString _ _ _ | JSON.MNumber _ _ | JSON.MLiteral _ _ => True
  | JSON.MAfter => match t with Some (JArray _) => False | _ => True end
  | _ => False
  end.

Definition array_value (v : json) : Prop := exists l, v = JArray l.

Definition not_array (st : JSON.state) : Prop :=
  object_rooted (JSON.stack st) \/ (JSON.stack st = [] /\ scalar_mode (JSON.md st) (JSON.top st)).

Ltac split_cmp :=
  repeat (match goal with
          | |- context [N.eqb ?a ?b] => destruct (N.eqb_spec a b); [subst|]
          | |- context [N.leb ?a ?b] => destruct (N.leb_spec a b)
          | |- context [N.ltb ?a ?b] => destruct (N.ltb_spec a b)
          | _ : context [N.eqb ?a ?b] |- _ => destruct (N.eqb_spec a b); [subst|]
          | _ : context [N.leb ?a ?b] |- _ => destruct (N.leb_spec a b)
          | _ : context [N.ltb ?a ?b] |- _ => destruct (N.ltb_spec a b)
          end; cbn in *).

Ltac unfold_cu :=
  unfold cu_eqb, isDigit, isWhiteSpace, JSON.isJSONWhiteSpace, TAB, LF, CR, SP,
    DQUOTE, SQUOTE, RPAREN, STAR, COMMA, MINUS, DOT, COLON, LBRACKET, BACKSLASH,
    RBRACKET, BACKTICK, LBRACE, RBRACE, BULLET in *.

Ltac done_cmp :=
  intros; first [reflexivity | congruence | exfalso; lia | lia].

(** The code unit [c] matches no character of the literal pattern [p]. *)
Definition matches_none (icase : bool) (p : jsstring) (c : code_unit) : bool :=
  forallb (fun x => negb (char_matches icase x c)) p.

Definition whitespace (w : jsstring) : Prop :=
  Forall (fun c => isWhiteSpace c = true) w.

(** A text between a [```json] fence and a [```] fence, with white space
    (none, or a line break as a rule) inside the fences. *)
Definition fenced (w1 s w2 : jsstring) : jsstring :=
  lit "```json" ++ w1 ++ s ++ w2 ++ lit "```".

(** A pattern without the start anchor. *)
Fixpoint bol_free (r : regex) : bool :=
  match r with
  | Bol => false
  | Seq r1 r2 | Alt r1 r2 => bol_free r1 && bol_free r2
  | NegLook r' => bol_free r'
  | _ => true
  end.

Ltac to_prop :=
  repeat rewrite ?orb_true_iff, ?andb_true_iff, ?orb_false_iff, ?andb_false_iff,
    ?negb_true_iff, ?negb_false_iff, ?N.leb_le, ?N.leb_gt, ?N.eqb_eq, ?N.eqb_neq,
    ?N.ltb_lt, ?N.ltb_ge in *.

(** ** Lists behind a preamble *)

(** A text that is the literal [p] when the case of letters is ignored. *)
Definition spelled (p w : jsstring) : Prop :=
  List.length w = List.length p /\ prefix_matches true p w = true.

(** The list markers: an ordinal closed by a dot or a parenthesis, a dash,
    a star, a bullet, and [Option] or [Variation], in any case of letters,
    with a space and a number. *)
Inductive marker : jsstring -> Prop :=
| marker_ordinal (ds : jsstring) (p : code_unit) :
    ds <> [] -> Forall (fun d => isDigit d = true) ds ->
    p = DOT \/ p = RPAREN -> marker (ds ++ [p])
| marker_dash : marker [MINUS]
| marker_star : marker [STAR]
| marker_bullet : marker [BULLET]
| marker_option (w ds : jsstring) :
    spelled (lit "Option ") w ->
    ds <> [] -> Forall (fun d => isDigit d = true) ds -> marker (w ++ ds)
| marker_variation (w ds : jsstring) :
    spelled (lit "Variation ") w ->
    ds <> [] -> Forall (fun d => isDigit d = true) ds -> marker (w ++ ds).

Definition line_free (s : jsstring) : Prop :=
  Forall (fun c => c <> LF /\ c <> CR) s.

Definition endsWith (p s : jsstring) : bool := startsWith (rev p) (rev s).

(** An item that the list stage takes as it is: already trimmed, on one
    line, long enough and not taken for a preamble by [keepItem], and
    without the quotes that the stage strips from the two ends of an
    item: a double quote, or a bracket and a double quote, at the start;
    a double quote, or a double quote and a comma, at the end. *)
Record list_item (it : jsstring) : Prop := {
  item_trimmed : trim it = it;
  item_kept : AiService.keepItem it = true;
  item_line : line_free it;
  item_start : startsWith [DQUOTE] it = false
               /\ startsWith [LBRACKET; DQUOTE] it = false;
  item_end : endsWith [DQUOTE] it = false
             /\ endsWith [DQUOTE; COMMA] it = false
}.

(** A line of a list, with what stands before its item: the blanks that
    end the line before, the line break ([CR] followed by [LF] is a [CR]
    and an indentation that starts with [LF]), the indentation, the marker
    and the white space behind the marker. *)
Record line : Type := mkLine {
  l_trailing : jsstring;
  l_break : code_unit;
  l_indent : jsstring;
  l_marker : jsstring;
  l_gap : jsstring;
  l_item : jsstring
}.

Definition line_text (l : line) : jsstring :=
  l_trailing l ++ l_break l :: l_indent l ++ l_marker l ++ l_gap l ++ l_item l.

Record list_line (l : line) : Prop := {
  line_trailing : whitespace (l_trailing l) /\ line_free (l_trailing l);
  line_break : l_break l = LF \/ l_break l = CR;
  line_indent : whitespace (l_indent l);
  line_marker : marker (l_marker l);
  line_gap : l_gap l <> [] /\ whitespace (l_gap l);
  line_item : list_item (l_item l)
}.

(** What has no closing quote at its end. *)
Definition open_ended (s : jsstring) : Prop :=
  endsWith [DQUOTE] s = false /\ endsWith [DQUOTE; COMMA] s = false.

(** The part of the list-marker pattern behind the line break: white
    space, the marker, white space. *)
Definition after_break (k : cont) : cont :=
  fun b n s =>
    rmatch true
      (Seq (Star isWhiteSpace) (Seq AiService.re_marker (Plus isWhiteSpace))) b n s k.

(** The preamble, the lines of the list, and the white space that may end
    the text. *)
Definition list_text (lines : list line) (ending : jsstring) : jsstring :=
  preamble ++ List.concat (List.map line_text lines) ++ ending.

(** The pieces between the markers of such a text, [x] being what stands
    before the first line. *)
Fixpoint pieces (x : jsstring) (lines : list line) (ending : jsstring)
  : list jsstring :=
  match lines with
  | [] => [x ++ ending]
  | l :: rest => (x ++ l_trailing l) :: pieces (l_item l) rest ending
  end.

(** Whether the stage of the quoted lists, which comes before that of the
    list markers, takes the cleaned text. *)
Definition quotedListFound (cleaned : jsstring) : bool :=
  (includes [DQUOTE; COMMA; SP; DQUOTE] cleaned || startsWith [DQUOTE] cleaned)
  && (1 <? List.length (AiService.quotedItemsOf cleaned)).

(** Two list lines: after a [CR][LF] and an indentation, [OPTION 1],
    three spaces and an item with quotes inside; after a blank and a line
    break, [2)], a tab and an item with brackets inside.  And three lines
    of which the first speaks of a LinkedIn post. *)
Definition two_lines : list line :=
  [mkLine [] CR [LF; SP; SP] (lit "OPTION 1") (lit "   ")
     (lit "Say " ++ quoted (lit "hi") ++ lit " to everyone");
   mkLine [SP] LF [] (lit "2)") [TAB] (lit "See [note] here")].

Definition linkedin_list : jsstring :=
  preamble ++ [LF] ++ lit "1. Write a LinkedIn post about AI"
    ++ [LF] ++ lit "2. Second real item" ++ [LF] ++ lit "3. Third real item".

(** * The HTTP routes

    ** Values, requests and responses *)

#[local] Unset Elimination Schemes.

Inductive value : Type :=
| VUndefined
| VNull
| VBool (b : bool)
| VNumber (n : Z)
| VString (s : jsstring)
| VArray (elements : list value)
| VObject (fields : list (string * value)).

#[local] Set Elimination Schemes.

(** The handlers test numbers for being zero and for being [1], [2], [3]
    or [401] only; a number is modelled by an integer. *)
Definition truthy (v : value) : bool :=
  match v with
  | VUndefined | VNull => false
  | VBool b => b
  | VNumber n => negb (n =? 0)%Z
  | VString s => match s with [] => false | _ :: _ => true end
  | VArray _ | VObject _ => true
  end.

Definition isUndefined (v : value) : bool :=
  match v with VUndefined => true | _ => false end.

Definition isNumber (v : value) (k : Z) : bool :=
  match v with VNumber n => (n =? k)%Z | _ => false end.

Definition isText (v : value) (s : string) : bool :=
  match v with VString t => str_eqb t (lit s) | _ => false end.

(** A property of an object; [undefined] when the object has none of that
    name. *)
Fixpoint prop (k : string) (fields : list (string * value)) : value :=
  match fields with
  | [] => VUndefined
  | (k', v) :: rest => if String.eqb k k' then v else prop k rest
  end.

(** [a || b] *)
Definition orElse (a b : value) : value := if truthy a then a else b.

(** Whether an object has a property of that name. *)
Fixpoint hasOwn (k : string) (fields : list (string * value)) : bool :=
  match fields with
  | [] => false
  | (k', _) :: rest => String.eqb k k' || hasOwn k rest
  end.

(** Whether a value has a primitive form, which a template literal
    ([`${v}`]) and a comparison with a number ([v <= 3]) ask for.  The
    values are those of a JSON body, so an object holds no function: a
    [toString] of its own, whatever it is, hides the inherited one, the
    inherited [valueOf] answers the object itself, and the conversion
    throws.  A list is converted by joining the forms of its elements,
    [null] and [undefined] counting as the empty text. *)
Fixpoint printable (v : value) : bool :=
  match v with
  | VArray elements => forallb printable elements
  | VObject fields => negb (hasOwn "toString" fields)
  | _ => true
  end.

Record response : Type := mkResponse {
  status : Z;
  payload : list (string * value)
}.

(** [res.status(code).json(...)], and [res.json(...)], which answers 200. *)
Definition res_status_json (code : Z) (fields : list (string * value)) : response :=
  mkResponse code fields.

Definition res_json (fields : list (string * value)) : response :=
  mkResponse 200 fields.

(** ** Calls out of the service *)

Inductive stage : Type := Topics | Hooks | Body | CTA | Polish.

Record error : Type := mkError {
  message : value;
  errStatus : value
}.

Definition Error (msg : string) : error := mkError (VString (lit msg)) VUndefined.
Definition TypeError : error := mkError (VString (lit "TypeError")) VUndefined.

Inductive outcome (A : Type) : Type :=
| Returned (a : A)
| Thrown (e : error).

Arguments Returned {A} a.
Arguments Thrown {A} e.

Record transaction : Type := mkTx { txHash : jsstring }.
Record receipt : Type := mkReceipt { receiptStatus : Z; receiptHash : jsstring }.
Record completion : Type := mkCompletion {
  messageContent : value;
  completionSignature : value
}.

Inductive call : Type :=
| VerifyPaymentSignature (user tier contentId nonce deadline signature : value)
| ExecutePayment (user tier contentId nonce deadline signature : value)
| Wait (tx : transaction)
| Allowance (owner : value) (spender : jsstring)
| BalanceOf (account : value)
| TransferFrom (from : value) (to : jsstring) (amount : Z)
| GetTransactionCount (address : jsstring)
| Transfer (to : value) (amount : Z) (nonce : Z)
| ChatCompletion (usingGroq : bool) (model : jsstring) (s : stage) (args : list value)
| FetchGrantMessage (address : jsstring)
| FreshId.

Definition answer (c : call) : Type :=
  match c with
  | VerifyPaymentSignature _ _ _ _ _ _ => (bool * jsstring)%type
  | ExecutePayment _ _ _ _ _ _ => transaction
  | Wait _ => receipt
  | Allowance _ _ => Z
  | BalanceOf _ => Z
  | TransferFrom _ _ _ => transaction
  | GetTransactionCount _ => Z
  | Transfer _ _ _ => transaction
  | ChatCompletion _ _ _ _ => completion
  | FetchGrantMessage _ => jsstring
  | FreshId => jsstring
  end.

(** [FreshId] stands for [Date.now()] and [Math.random()]; every other
    call leaves the process: to the chain, to the model provider, to the
    grant service. *)
Definition external (c : call) : bool :=
  match c with FreshId => false | _ => true end.

Definition stateChanging (c : call) : bool :=
  match c with
  | ExecutePayment _ _ _ _ _ _ | TransferFrom _ _ _ | Transfer _ _ _ => true
  | _ => false
  end.

(** ** Programs: calls, exceptions, and the provider flag

    A program is a tree of calls; each call is answered by a value or by an
    exception.  [M] adds the exceptions of the program itself and the
    process-wide flag [isUsingGroq]. *)

Inductive prog (R : Type) : Type :=
| Ret (r : R)
| Do (c : call) (k : outcome (answer c) -> prog R).

Arguments Ret {R} r.
Arguments Do {R} c k.

Fixpoint pbind {R S : Type} (p : prog R) (f : R -> prog S) : prog S :=
  match p with
  | Ret r => f r
  | Do c k => Do c (fun a => pbind (k a) f)
  end.

Definition M (A : Type) : Type := bool -> prog (outcome A * bool).

Definition ret {A : Type} (a : A) : M A := fun g => Ret (Returned a, g).

Definition throw {A : Type} (e : error) : M A := fun g => Ret (Thrown e, g).

Definition bind {A B : Type} (m : M A) (f : A -> M B) : M B :=
  fun g => pbind (m g)
             (fun r => match fst r with
                       | Returned a => f a (snd r)
                       | Thrown e => Ret (Thrown e, snd r)
                       end).

(** [try { m } catch (e) { h e }] *)
Definition try_catch {A : Type} (m : M A) (h : error -> M A) : M A :=
  fun g => pbind (m g)
             (fun r => match fst r with
                       | Returned a => Ret (Returned a, snd r)
                       | Thrown e => h e (snd r)
                       end).

Definition perform (c : call) : M (answer c) := fun g => Do c (fun a => Ret (a, g)).

Definition isUsingGroq : M bool := fun g => Ret (Returned g, g).

Definition switchToGroq : M unit := fun _ => Ret (Returned tt, true).

(** What the conversion to a primitive throws. *)
Definition cannotConvert : error :=
  mkError (VString (lit "Cannot convert object to primitive value")) VUndefined.

(** A template literal that the values are written into, or a comparison
    that converts them, in order; the text itself goes to the log or into
    a prompt. *)
Definition interpolate (vs : list value) : M unit :=
  if forallb printable vs then ret tt else throw cannotConvert.

Definition lift {A : Type} (o : outcome A) : M A :=
  match o with
  | Returned a => ret a
  | Thrown e => throw e
  end.

Notation "x <- m ;; k" := (bind m (fun x => k))
  (at level 61, m at next level, right associativity).
Notation "m ;;; k" := (bind m (fun _ => k))
  (at level 61, right associativity).

(** The environment answers each call, knowing the calls made before it
    (latest first); running a program gives its result and the calls it
    made, in order. *)
Definition oracle : Type := list call -> forall c : call, outcome (answer c).

Fixpoint run {R : Type} (o : oracle) (past : list call) (p : prog R)
  : R * list call :=
  match p with
  | Ret r => (r, [])
  | Do c k =>
      let rt := run o (c :: past) (k (o past c)) in
      (fst rt, c :: snd rt)
  end.

(** ** services/ai-service *)

Record AIResponse : Type := mkAIResponse {
  result : value;
  signature : value
}.

Definition aiJson (r : AIResponse) : list (string * value) :=
  [("result"%string, result r); ("signature"%string, signature r)].

Definition GROQ_MODEL : jsstring := lit "llama-3.3-70b-versatile".

(** [x[0]]: reading a property of [undefined] or [null] throws. *)
Definition at0 (x : value) : M value :=
  match x with
  | VUndefined | VNull => throw TypeError
  | VArray l => ret (hd VUndefined l)
  | VString s => ret (match s with [] => VUndefined | c :: _ => VString [c] end)
  | VObject fields => ret (prop "0" fields)
  | _ => ret VUndefined
  end.

Section Service.

(** From the environment of the process. *)
Variable EIGEN_MODEL : jsstring.

(** [resolveModelId()], called without a model name. *)
Definition resolveModelId (usingGroq : bool) : jsstring :=
  if usingGroq then GROQ_MODEL else EIGEN_MODEL.

(** [polishContent].  Before the [try], [getToneInstruction] compares
    [tone] with a number and the prompt has [content] written into it
    ([getEmojiInstruction] converts nothing that is not a number).  The
    call carries the three arguments.  [fuel] bounds the retries: the
    retry is taken only while the flag is down, and raises it. *)
Fixpoint polishContent_fuel (fuel : nat) (content tone emojiDensity : value)
  : M AIResponse :=
  interpolate [tone; content] ;;;
  try_catch (g <- isUsingGroq ;;
             completion <- perform (ChatCompletion g (resolveModelId g) Polish
                                      [content; tone; emojiDensity]) ;;
             ret (mkAIResponse (orElse (messageContent completion) content)
                               (completionSignature completion)))
    (fun e =>
       g <- isUsingGroq ;;
       if negb g && isNumber (errStatus e) 401
       then
         switchToGroq ;;;
         match fuel with
         | S fuel' => polishContent_fuel fuel' content tone emojiDensity
         | O => throw (Error "Maximum call stack size exceeded")
         end
       else ret (mkAIResponse content VUndefined)).

Definition polishContent : value -> value -> value -> M AIResponse :=
  polishContent_fuel 1.

(** The four generation stages wrap provider calls of their own; the
    routes and the orchestrator only pass them arguments and take their
    answers. *)
Variable generateTopics : value -> value -> value -> value -> M AIResponse.
Variable generateHooks : value -> value -> value -> value -> M AIResponse.
Variable generateBody : value -> value -> value -> value -> value -> value -> M AIResponse.
Variable generateCTA : value -> value -> value -> value -> M AIResponse.

Definition completed : string * value := ("status"%string, VString (lit "completed")).

(** [generateTieredContent]: the log line stands before the [try];
    arguments left out of a call are [undefined]. *)
Definition generateTieredContent (tier contentId : value) : M value :=
  let input := VString (lit "AI in Marketing") in
  let intent := VString (lit "educational") in
  let u := VUndefined in
  interpolate [tier; contentId] ;;;
  try_catch
    (if isNumber tier 1 then
       topicsRes <- generateTopics input u u u ;;
       selectedTopic <- at0 (result topicsRes) ;;
       hooksRes <- generateHooks selectedTopic intent u u ;;
       hook <- at0 (result hooksRes) ;;
       bodiesRes <- generateBody hook selectedTopic intent (VString (lit "short")) u u ;;
       body <- at0 (result bodiesRes) ;;
       ret (VObject [("tier"%string, VNumber 1); ("topic"%string, selectedTopic);
                     ("hook"%string, hook); ("body"%string, body); completed])
     else if isNumber tier 2 then
       topicsRes <- generateTopics input u u u ;;
       selectedTopic <- at0 (result topicsRes) ;;
       hooksRes <- generateHooks selectedTopic intent u u ;;
       hook <- at0 (result hooksRes) ;;
       bodiesRes <- generateBody hook selectedTopic intent (VString (lit "medium")) u u ;;
       ret (VObject [("tier"%string, VNumber 2); ("topic"%string, selectedTopic);
                     ("hooks"%string, result hooksRes);
                     ("bodyOptions"%string, result bodiesRes); completed])
     else if isNumber tier 3 then
       topicsRes <- generateTopics input u u u ;;
       selectedTopic <- at0 (result topicsRes) ;;
       hooksRes <- generateHooks selectedTopic intent u u ;;
       hook <- at0 (result hooksRes) ;;
       bodiesRes <- generateBody hook selectedTopic intent (VString (lit "long")) u u ;;
       body <- at0 (result bodiesRes) ;;
       ctasRes <- generateCTA body intent u u ;;
       polishedRes <- polishContent body (VNumber 8) (VNumber 5) ;;
       ret (VObject [("tier"%string, VNumber 3); ("topic"%string, selectedTopic);
                     ("hooks"%string, result hooksRes);
                     ("bodies"%string, result bodiesRes);
                     ("ctas"%string, result ctasRes);
                     ("finalPolished"%string, result polishedRes); completed])
     else ret VUndefined)
    (fun _ => throw (Error "AI generation failed")).

(** ** The routes

    What the construction of the chain client yields in each route: the
    address of the wallet, or the exception of a constructor that the
    configuration makes fail. *)
Variable paymentWallet : outcome jsstring.
Variable facilitatorWallet : outcome jsstring.
Variable faucetWallet : outcome jsstring.

(** [Number(tier)], when it is an integer. *)
Variable toNumber : value -> option Z.

Definition failure (code : Z) (msg : string) : response :=
  res_status_json code [("success"%string, VBool false);
                        ("error"%string, VString (lit msg))].

(** [POST /api/payment]; the log line follows the check of the fields. *)
Definition paymentRoute (body : list (string * value)) : M response :=
  try_catch
    (let user := prop "user" body in
     let tier := prop "tier" body in
     let contentId := prop "contentId" body in
     let nonce := prop "nonce" body in
     let deadline := prop "deadline" body in
     let signature := prop "signature" body in
     if negb (truthy user) || negb (truthy tier) || negb (truthy contentId)
        || isUndefined nonce || negb (truthy deadline) || negb (truthy signature)
     then ret (failure 400 "Missing required fields")
     else
       interpolate [user; tier] ;;;
       _ <- lift paymentWallet ;;
       verdict <- try_catch
                    (v <- perform (VerifyPaymentSignature user tier contentId nonce
                                     deadline signature) ;;
                     if negb (fst v)
                     then ret (Some (res_status_json 402
                                       [("success"%string, VBool false);
                                        ("error"%string, VString (snd v))]))
                     else ret None)
                    (fun _ => ret (Some (failure 500 "Contract verification failed"))) ;;
       match verdict with
       | Some refusal => ret refusal
       | None =>
           sent <- try_catch
                     (tx <- perform (ExecutePayment user tier contentId nonce
                                       deadline signature) ;;
                      ret (Returned tx))
                     (fun _ => ret (Thrown (Error "Transaction execution failed"))) ;;
           match sent with
           | Thrown _ => ret (failure 500 "Transaction execution failed")
           | Returned tx =>
               receipt <- perform (Wait tx) ;;
               if negb (receiptStatus receipt =? 1)%Z
               then ret (failure 500 "Transaction reverted")
               else
                 aiResult <- generateTieredContent tier contentId ;;
                 ret (res_json [("success"%string, VBool true);
                                ("txHash"%string, VString (receiptHash receipt));
                                ("result"%string, aiResult)])
           end
       end)
    (fun _ => ret (failure 500 "Internal server error")).

Definition TIERS (n : option Z) : option Z :=
  match n with
  | Some 1%Z => Some 5000000%Z
  | Some 2%Z => Some 15000000%Z
  | Some 3%Z => Some 30000000%Z
  | _ => None
  end.

(** [POST /api/execute-payment]; the log line follows the check of the
    fields. *)
Definition executePaymentRoute (body : list (string * value)) : M response :=
  try_catch
    (let userAddress := prop "userAddress" body in
     let tier := prop "tier" body in
     if negb (truthy userAddress) || negb (truthy tier)
     then ret (failure 400 "Missing userAddress or tier")
     else
       interpolate [userAddress; tier] ;;;
       wallet <- lift facilitatorWallet ;;
       match TIERS (toNumber tier) with
       | None => ret (failure 400 "Invalid tier")
       | Some amount =>
           allowance <- perform (Allowance userAddress wallet) ;;
           if (allowance <? amount)%Z
           then ret (res_status_json 400
                       [("success"%string, VBool false);
                        ("error"%string,
                         VString (lit "Insufficient USDC allowance. Please enable permissionless mode first."));
                        ("needsApproval"%string, VBool true)])
           else
             balance <- perform (BalanceOf userAddress) ;;
             if (balance <? amount)%Z
             then ret (failure 400 "Insufficient USDC balance")
             else
               tx <- perform (TransferFrom userAddress wallet amount) ;;
               receipt <- perform (Wait tx) ;;
               if negb (receiptStatus receipt =? 1)%Z
               then throw (Error "Transaction reverted")
               else
                 contentId <- perform FreshId ;;
                 ret (res_json
                        [("success"%string, VBool true);
                         ("contentId"%string, VString contentId);
                         ("txHash"%string, VString (receiptHash receipt));
                         ("content"%string,
                          VObject [("tier"%string, tier);
                                   ("title"%string, VString (lit "AI Generated Content"));
                                   ("content"%string,
                                    VString (lit "Content generation triggered successfully via permissionless flow."))])])
       end)
    (fun e =>
       ret (res_status_json 500
              [("success"%string, VBool false);
               ("error"%string, orElse (message e) (VString (lit "Execution failed")))])).

(** [POST /api/faucet]; the log line follows the wallet. *)
Definition faucetRoute (body : list (string * value)) : M response :=
  try_catch
    (let userAddress := prop "userAddress" body in
     if negb (truthy userAddress)
     then ret (res_status_json 400 [("error"%string, VString (lit "Missing userAddress"))])
     else
       wallet <- lift faucetWallet ;;
       interpolate [userAddress] ;;;
       nonce <- perform (GetTransactionCount wallet) ;;
       tx <- perform (Transfer userAddress 100000000%Z nonce) ;;
       _ <- perform (Wait tx) ;;
       ret (res_json [("success"%string, VBool true);
                      ("txHash"%string, VString (txHash tx))]))
    (fun e =>
       ret (res_status_json 500
              [("error"%string, orElse (message e) (VString (lit "Faucet failed")))])).

(** [GET /api/grant/message]; the fields are those of the query. *)
Definition grantMessageRoute (query : list (string * value)) : M response :=
  try_catch
    (match prop "address" query with
     | VString (c :: s) =>
         message <- perform (FetchGrantMessage (c :: s)) ;;
         ret (res_json [("message"%string, VString message)])
     | _ => ret (res_status_json 400 [("error"%string, VString (lit "Missing wallet address"))])
     end)
    (fun e => ret (res_status_json 500 [("error"%string, message e)])).

(** [POST /api/polish] *)
Definition polishRoute (body : list (string * value)) : M response :=
  try_catch
    (response <- polishContent (prop "content" body) (prop "tone" body)
                   (prop "emojiDensity" body) ;;
     ret (res_json (aiJson response)))
    (fun _ => ret (res_status_json 500
                     [("error"%string, VString (lit "Failed to polish content"))])).

(** [POST /api/generate]; the two log lines come before the [switch]. *)
Definition generateRoute (body : list (string * value)) : M response :=
  try_catch
    (let step := prop "step" body in
     let grant :=
       if truthy (prop "grantMessage" body)
       then VObject [("grantMessage"%string, prop "grantMessage" body);
                     ("grantSignature"%string, prop "grantSignature" body);
                     ("walletAddress"%string, prop "walletAddress" body)]
       else VUndefined in
     let input := prop "input" body in
     let intent := prop "intent" body in
     let model := prop "model" body in
     interpolate [step; model] ;;;
     (if truthy (prop "grantMessage" body)
      then interpolate [prop "walletAddress" body]
      else ret tt) ;;;
     if isText step "topics" then
       response <- generateTopics input (prop "researchDepth" body) model grant ;;
       ret (res_json (aiJson response))
     else if isText step "hooks" then
       response <- generateHooks input intent model grant ;;
       ret (res_json (aiJson response))
     else if isText step "body" then
       response <- generateBody input (prop "context" body) intent
                     (prop "length" body) model grant ;;
       ret (res_json (aiJson response))
     else if isText step "cta" then
       response <- generateCTA input intent model grant ;;
       ret (res_json (aiJson response))
     else ret (res_status_json 400 [("error"%string, VString (lit "Invalid step"))]))
    (fun _ => ret (res_status_json 500
                     [("error"%string, VString (lit "Failed to generate content"))])).

(** [GET /health] *)
Definition healthRoute : M response :=
  ret (res_json [("status"%string, VString (lit "ok"));
                 ("message"%string, VString (lit "AI Backend is running"))]).

(** The endpoints, and the fields that the description of the interface
    gives each request. *)
Inductive endpoint : Type :=
| PaymentEndpoint
| ExecutePaymentEndpoint
| FaucetEndpoint
| GrantMessageEndpoint
| GenerateEndpoint
| PolishEndpoint
| HealthEndpoint.

Definition handler (e : endpoint) (fields : list (string * value)) : M response :=
  match e with
  | PaymentEndpoint => paymentRoute fields
  | ExecutePaymentEndpoint => executePaymentRoute fields
  | FaucetEndpoint => faucetRoute fields
  | GrantMessageEndpoint => grantMessageRoute fields
  | GenerateEndpoint => generateRoute fields
  | PolishEndpoint => polishRoute fields
  | HealthEndpoint => healthRoute
  end.

End Service.

Definition requiredFields (e : endpoint) : list string :=
  match e with
  | PaymentEndpoint =>
      ["user"; "tier"; "contentId"; "nonce"; "deadline"; "signature"]%string
  | ExecutePaymentEndpoint => ["userAddress"; "tier"]%string
  | FaucetEndpoint => ["userAddress"]%string
  | GrantMessageEndpoint => ["address"]%string
  | GenerateEndpoint => ["step"; "input"]%string
  | PolishEndpoint => ["content"; "tone"; "emojiDensity"]%string
  | HealthEndpoint => []
  end.

(** The fields whose absence a handler checks for. *)
Definition checkedFields (e : endpoint) : list string :=
  match e with
  | GenerateEndpoint => ["step"]%string
  | PolishEndpoint => []
  | _ => requiredFields e
  end.

(** The values a handler writes to its log before it looks at the fields
    it checks for: [/api/generate] prints [step] and [model], and
    [walletAddress] when [grantMessage] is there, ahead of its [switch];
    the other handlers check first. *)
Definition loggedBeforeCheck (e : endpoint) (fields : list (string * value))
  : list value :=
  match e with
  | GenerateEndpoint =>
      [prop "step" fields; prop "model" fields]
      ++ (if truthy (prop "grantMessage" fields)
          then [prop "walletAddress" fields] else [])
  | _ => []
  end.

(** What a request gets: the response, the flag afterwards, the calls. *)
Definition serve (o : oracle) (h : M response) (usingGroq : bool)
  : (outcome response * bool) * list call :=
  run o [] (h usingGroq).

Definition responded (r : (outcome response * bool) * list call) : outcome response :=
  fst (fst r).

Definition calls (r : (outcome response * bool) * list call) : list call := snd r.

Definition statusOf (r : (outcome response * bool) * list call) : option Z :=
  match responded r with
  | Returned resp => Some (status resp)
  | Thrown _ => None
  end.

(** An environment in which every call succeeds. *)
Definition obliging : oracle :=
  fun _ c =>
    match c return outcome (answer c) with
    | VerifyPaymentSignature _ _ _ _ _ _ => Returned (true, [])
    | ExecutePayment _ _ _ _ _ _ => Returned (mkTx (lit "0xabc"))
    | Wait tx => Returned (mkReceipt 1 (txHash tx))
    | Allowance _ _ => Returned 0%Z
    | BalanceOf _ => Returned 0%Z
    | TransferFrom _ _ _ => Returned (mkTx (lit "0xdef"))
    | GetTransactionCount _ => Returned 0%Z
    | Transfer _ _ _ => Returned (mkTx (lit "0x123"))
    | ChatCompletion _ _ _ _ => Returned (mkCompletion (VString (lit "Polished.")) VUndefined)
    | FetchGrantMessage _ => Returned (lit "grant")
    | FreshId => Returned (lit "linkid-0-0")
    end.

(** An environment in which the contract finds the signature invalid. *)
Definition refusing (reason : jsstring) : oracle :=
  fun past c =>
    match c return outcome (answer c) with
    | VerifyPaymentSignature _ _ _ _ _ _ => Returned (false, reason)
    | other => obliging past other
    end.

Definition noStage : value -> value -> value -> value -> M AIResponse :=
  fun _ _ _ _ => ret (mkAIResponse (VArray []) VUndefined).

Definition noBody : value -> value -> value -> value -> value -> value -> M AIResponse :=
  fun _ _ _ _ _ _ => ret (mkAIResponse (VArray []) VUndefined).

Definition wholeNumber (v : value) : option Z :=
  match v with VNumber n => Some n | _ => None end.

Definition samplePayment (tier : Z) : list (string * value) :=
  [("user"%string, VString (lit "0xUser")); ("tier"%string, VNumber tier);
   ("contentId"%string, VString (lit "test-1")); ("nonce"%string, VNumber 0);
   ("deadline"%string, VNumber 1700000000); ("signature"%string, VString (lit "0xSig"))].

(** An object whose [toString] is a number: it has no primitive form. *)
Definition unprintable : value := VObject [("toString"%string, VNumber 1)].

(** The service with its default model, stages that answer at once, and
    wallets that are configured. *)
Definition sampleHandler : endpoint -> list (string * value) -> M response :=
  handler (lit "gpt-oss-120b-f16") noStage noStage noBody noStage
    (Returned (lit "0xFacilitator")) (Returned (lit "0xFacilitator"))
    (Returned (lit "0xFaucet")) wholeNumber.

(** ** Names for the facts about the routes *)

(** The two contract calls of [/api/payment] for a request body, and
    whether the body holds the six fields the route checks for. *)
Definition verifyOf (body : list (string * value)) : call :=
  VerifyPaymentSignature (prop "user" body) (prop "tier" body)
    (prop "contentId" body) (prop "nonce" body) (prop "deadline" body)
    (prop "signature" body).

Definition executeOf (body : list (string * value)) : call :=
  ExecutePayment (prop "user" body) (prop "tier" body)
    (prop "contentId" body) (prop "nonce" body) (prop "deadline" body)
    (prop "signature" body).

Definition paymentFieldsPresent (body : list (string * value)) : bool :=
  truthy (prop "user" body) && truthy (prop "tier" body)
  && truthy (prop "contentId" body) && negb (isUndefined (prop "nonce" body))
  && truthy (prop "deadline" body) && truthy (prop "signature" body).

(** An environment in which the user has approved, and holds, 50 USDC. *)
Definition funded : oracle :=
  fun past c =>
    match c return outcome (answer c) with
    | Allowance _ _ => Returned 50000000%Z
    | BalanceOf _ => Returned 50000000%Z
    | other => obliging past other
    end.

(** A stage whose provider is down. *)
Definition failingStage : value -> value -> value -> value -> M AIResponse :=
  fun _ _ _ _ => throw (Error "provider down").

(** An environment in which the transfer is mined but reverts. *)
Definition reverting : oracle :=
  fun past c =>
    match c return outcome (answer c) with
    | Wait tx => Returned (mkReceipt 0 (txHash tx))
    | other => funded past other
    end.

(** An environment in which the primary provider refuses the key, and the
    fallback provider answers. *)
Definition unauthorized : oracle :=
  fun past c =>
    match c return outcome (answer c) with
    | ChatCompletion false _ _ _ =>
        Thrown (mkError (VString (lit "Unauthorized")) (VNumber 401))
    | other => obliging past other
    end.

(** The four names of [step] that [/api/generate] knows. *)
Definition stepNames : list value :=
  [VString (lit "topics"); VString (lit "hooks"); VString (lit "body");
   VString (lit "cta")].

Definition polishCall (usingGroq : bool) (model : jsstring)
  (body : list (string * value)) : call :=
  ChatCompletion usingGroq model Polish
    [prop "content" body; prop "tone" body; prop "emojiDensity" body].

Definition sampleTransfer : list (string * value) :=
  [("userAddress"%string, VString (lit "0xUser")); ("tier"%string, VNumber 2)].

(** ** Names for the facts about the normaliser *)

(** The square brackets of a text, in order. *)
Definition isBracket (c : code_unit) : bool :=
  cu_eqb c LBRACKET || cu_eqb c RBRACKET.

Definition brackets (s : jsstring) : jsstring := filter isBracket s.

(** States from which the text can only turn out to be an array: the
    outermost open container is an array, or an array is complete at the
    top level. *)
Fixpoint array_rooted (stk : list JSON.frame) : bool :=
  match stk with
  | [] => false
  | f :: stk' =>
      match stk' with
      | [] => match f with JSON.FArray _ => true | JSON.FObject _ _ => false end
      | _ :: _ => array_rooted stk'
      end
  end.

Definition array_state (st : JSON.state) : Prop :=
  array_rooted (JSON.stack st) = true
  \/ (JSON.stack st = [] /\ JSON.md st = JSON.MAfter
      /\ exists l, JSON.top st = Some (JArray l)).

(** The condition under which [cleanAndParseJSON] parses the bracketed part
    of the cleaned text. *)
Definition bracketed (cleaned : jsstring) : bool :=
  (negb (indexOf LBRACKET cleaned =? -1) && negb (lastIndexOf RBRACKET cleaned =? -1)
   && (lastIndexOf RBRACKET cleaned >? indexOf LBRACKET cleaned))%Z.

(** The members of the JSON array of the strings [a] and [b], without the
    brackets. *)
Definition ab_members : jsstring :=
  quoted (lit "a") ++ lit ", " ++ quoted (lit "b").

(** ** Texts in the forms of the cascade *)

(** The texts of [l] with [sep] between them. *)
Fixpoint join (sep : jsstring) (l : list jsstring) : jsstring :=
  match l with
  | [] => []
  | x :: l' => match l' with [] => x | _ :: _ => x ++ sep ++ join sep l' end
  end.

(** A paragraph that the last stage takes as it is: already trimmed, of
    more than twenty code units, on one line. *)
Record paragraph (p : jsstring) : Prop := {
  paragraph_trimmed : trim p = p;
  paragraph_long : 20 < List.length p;
  paragraph_line : ~ In LF p
}.

(** An item of a quoted list that the quoted stage takes as it is: already
    trimmed, of more than five code units, without a double quote, a comma,
    a bracket or a backtick. *)
Record quoted_item (it : jsstring) : Prop := {
  quoted_trimmed : trim it = it;
  quoted_long : 5 < List.length it;
  quoted_no_quote : ~ In DQUOTE it;
  quoted_no_comma : ~ In COMMA it;
  quoted_no_open : ~ In LBRACKET it;
  quoted_no_close : ~ In RBRACKET it;
  quoted_no_backtick : ~ In BACKTICK it
}.

(** The items in double quotes, with a comma and a space between them. *)
Definition quoted_list (items : list jsstring) : jsstring :=
  join [COMMA; SP] (List.map quoted items).

(** What splitting a quoted list at its separators leaves: each item
    behind its opening quote, the last one with its closing quote too. *)
Fixpoint quoted_pieces (items : list jsstring) : list jsstring :=
  match items with
  | [] => []
  | it :: rest =>
      match rest with
      | [] => [quoted it]
      | _ :: _ => (DQUOTE :: it) :: quoted_pieces rest
      end
  end.

Definition two_paragraphs : list jsstring :=
  [lit "AI changes how teams plan campaigns."; lit "Start small, measure, then scale up."].

Definition three_hooks : list jsstring :=
  [lit "I spent a year on this"; lit "Nobody tells you that"; lit "Stop doing this now"].

(** ** The generation stages of [services/ai-service]

    [generateTopics] and [generateCTA] of the version without grants, with
    [resolveModelId] as it is called with a model name. *)

Module Stages.

(** What a stage answers under [result]: the array that the normaliser
    made of the completion, or an array put together without it. *)
Inductive generated : Type :=
| Normalised (elements : list json)
| Placeholder (elements : list value).

Record StageResponse : Type := mkStage {
  stageResult : generated;
  stageSignature : value
}.

(** The four answers that stand in for a call to action. *)
Definition defaultCTAs : list value :=
  [VString (lit "Bagaimana menurut kalian?");
   VString (lit "Setuju? " ++ [55357%N; 56391%N]);
   VString (lit "Share pengalaman kalian!");
   VString (lit "Thoughts?")].

Section Stages.

Variable EIGEN_MODEL : jsstring.

(** [resolveModelId(modelName)]: [toLowerCase] exists on strings only. *)
Definition resolveModelId (modelName : value) : M jsstring :=
  g <- isUsingGroq ;;
  if g then ret GROQ_MODEL
  else if negb (truthy modelName) then ret EIGEN_MODEL
  else
    match modelName with
    | VString s =>
        let name := toLowerCase s in
        if includes (lit "gpt-oss") name || includes (lit "eigen") name
        then ret (lit "gpt-oss-120b-f16")
        else if includes (lit "qwen") name
             then ret (lit "meta-llama-3-1-8b-instruct-q3")
             else ret EIGEN_MODEL
    | _ => throw TypeError
    end.

(** [cleanAndParseJSON(content)]: [replace] exists on strings only. *)
Definition normalise (content : value) : M (list json) :=
  match content with
  | VString s => ret (AiService.cleanAndParseJSON s)
  | _ => throw TypeError
  end.

(** [generateTopics].  The prompt has [input] written into it, before the
    [try]; the call carries it.  [fuel] bounds the retries: the retry is
    taken only while the flag is down, and raises it. *)
Fixpoint generateTopics_fuel (fuel : nat) (input depth model : value)
  : M StageResponse :=
  interpolate [input] ;;;
  try_catch
    (modelId <- resolveModelId model ;;
     g <- isUsingGroq ;;
     completion <- perform (ChatCompletion g modelId Topics [input]) ;;
     let content := orElse (messageContent completion) (VString (lit "[]")) in
     result <- normalise content ;;
     ret (mkStage (Normalised result) (completionSignature completion)))
    (fun e =>
       g <- isUsingGroq ;;
       if negb g && isNumber (errStatus e) 401
       then
         switchToGroq ;;;
         match fuel with
         | S fuel' => generateTopics_fuel fuel' input depth model
         | O => throw (Error "Maximum call stack size exceeded")
         end
       else ret (mkStage (Placeholder [input]) VUndefined)).

Definition generateTopics : value -> value -> value -> M StageResponse :=
  generateTopics_fuel 1.

(** [generateCTA].  The prompt is built, before the [try], from
    [body.substring(0, 150)] and [intent.toUpperCase()], which exist on
    strings only; the call carries the two arguments. *)
Fixpoint generateCTA_fuel (fuel : nat) (body intent model : value)
  : M StageResponse :=
  match body, intent with
  | VString _, VString _ =>
      try_catch
        (modelId <- resolveModelId model ;;
         g <- isUsingGroq ;;
         completion <- perform (ChatCompletion g modelId CTA [body; intent]) ;;
         let content := orElse (messageContent completion) (VString (lit "[]")) in
         result <- normalise content ;;
         ret (mkStage (Normalised result) (completionSignature completion)))
        (fun e =>
           g <- isUsingGroq ;;
           if negb g && isNumber (errStatus e) 401
           then
             switchToGroq ;;;
             match fuel with
             | S fuel' => generateCTA_fuel fuel' body intent model
             | O => throw (Error "Maximum call stack size exceeded")
             end
           else ret (mkStage (Placeholder defaultCTAs) VUndefined))
  | _, _ => throw TypeError
  end.

Definition generateCTA : value -> value -> value -> M StageResponse :=
  generateCTA_fuel 1.

End Stages.

End Stages.

(** ** The pool of [getViralContext]

    A post of the data set, by the two fields the selection reads. *)
Record post : Type := mkPost {
  postIntent : value;
  postLength : value;
  postBody : value
}.

(** [!wanted || field === wanted], for a [wanted] that is a string: the
    empty string asks for nothing. *)
Definition postMatches (wanted : jsstring) (field : value) : bool :=
  match wanted with
  | [] => true
  | _ :: _ => match field with VString s => str_eqb s wanted | _ => false end
  end.

(** The posts that the examples are drawn from: those of the intent and
    the length, else those of the length, else those of the intent, else
    all. *)
Definition viralPool (viralPosts : list post) (intent length : jsstring) : list post :=
  let pool := filter (fun p => postMatches intent (postIntent p)
                               && postMatches length (postLength p)) viralPosts in
  let pool := match pool with
              | [] => filter (fun p => postMatches length (postLength p)) viralPosts
              | _ :: _ => pool
              end in
  let pool := match pool with
              | [] => filter (fun p => postMatches intent (postIntent p)) viralPosts
              | _ :: _ => pool
              end in
  match pool with
  | [] => viralPosts
  | _ :: _ => pool
  end.

(** An environment whose provider answers the JSON array of [a], [b],
    [c], signed. *)
Definition answering : oracle :=
  fun past c =>
    match c return outcome (answer c) with
    | ChatCompletion _ _ _ _ =>
        Returned (mkCompletion (VString abc_array) (VString (lit "0xsigned")))
    | other => obliging past other
    end.

(** An environment whose provider is out of service. *)
Definition unavailable : oracle :=
  fun past c =>
    match c return outcome (answer c) with
    | ChatCompletion _ _ _ _ =>
        Thrown (mkError (VString (lit "Service Unavailable")) (VNumber 503))
    | other => obliging past other
    end.

(** A stage that asks the provider once and answers the text of the
    completion as its only element. *)
Definition askingStage (s : stage) (args : list value) : M AIResponse :=
  g <- isUsingGroq ;;
  completion <- perform (ChatCompletion g (lit "gpt-oss-120b-f16") s args) ;;
  ret (mkAIResponse (VArray [messageContent completion])
         (completionSignature completion)).

Definition askingTopics : value -> value -> value -> value -> M AIResponse :=
  fun input _ _ _ => askingStage Topics [input].

Definition askingHooks : value -> value -> value -> value -> M AIResponse :=
  fun topic intent _ _ => askingStage Hooks [topic; intent].

Definition askingBody
  : value -> value -> value -> value -> value -> value -> M AIResponse :=
  fun hook context intent length _ _ => askingStage Body [hook; context; intent; length].

(** An environment whose provider answers each stage with a text of its
    own. *)
Definition staged : oracle :=
  fun past c =>
    match c return outcome (answer c) with
    | ChatCompletion _ _ s _ =>
        Returned
          (mkCompletion
             (VString (match s with
                       | Topics => lit "AI for small teams"
                       | Hooks => lit "Nobody tells you this."
                       | Body => lit "Start with one workflow."
                       | CTA => lit "Thoughts?"
                       | Polish => lit "Polished."
                       end))
             VUndefined)
    | other => obliging past other
    end.

Definition samplePosts : list post :=
  [mkPost (VString (lit "viral")) (VString (lit "short")) (VString (lit "One."));
   mkPost (VString (lit "story")) (VString (lit "long")) (VString (lit "Two."))].

(** * Properties of the response normaliser *)

(** ** The inputs the specification names *)

(** C6. On the text of the JSON array of [a], [b], [c] the normaliser
    returns exactly these three strings, in this order. *)
Theorem cleanAndParseJSON_abc :
  AiService.cleanAndParseJSON abc_array
  = [JString (lit "a"); JString (lit "b"); JString (lit "c")].
Proof. vm_compute. reflexivity. Qed.

(** C4, on the cascade.  The three ordinal-marked lines come back as three
    items, but the first keeps its marker: the separator pattern needs a
    line break before a marker, and the first line has none. *)
Theorem cleanAndParseJSON_three_ordinals :
  AiService.cleanAndParseJSON three_ordinals
  = strings [lit "1. First item"; lit "Second item"; lit "Third item"].
Proof. vm_compute. reflexivity. Qed.

(** The earlier cleaner strips the marker of every line, the first
    included. *)
Lemma cleanAndParseJSON_grant_three_ordinals :
  AiServiceGrant.cleanAndParseJSON three_ordinals
  = strings [lit "First item"; lit "Second item"; lit "Third item"].
Proof. vm_compute. reflexivity. Qed.

(** C1 does not hold as stated: the text [[]] is a JSON array, and it is
    returned as it is, empty. *)
Lemma cleanAndParseJSON_empty_array :
  AiService.cleanAndParseJSON (lit "[]") = [].
Proof. vm_compute. reflexivity. Qed.

(** Nor is every element a non-empty string: the empty text comes back as
    its own sole element, and a JSON array of numbers as numbers. *)
Lemma cleanAndParseJSON_empty_text :
  AiService.cleanAndParseJSON [] = [JString []].
Proof. vm_compute. reflexivity. Qed.

Lemma cleanAndParseJSON_numbers :
  AiService.cleanAndParseJSON (lit "[1, 2]") = [JNumber (lit "1"); JNumber (lit "2")].
Proof. vm_compute. reflexivity. Qed.

(** The earlier cleaner returns the empty sequence on the empty text. *)
Lemma cleanAndParseJSON_grant_empty_text :
  AiServiceGrant.cleanAndParseJSON [] = [].
Proof. vm_compute. reflexivity. Qed.

(** C8 does not hold as stated: the final fallback returns the text
    itself, white space included. *)
Lemma cleanAndParseJSON_keeps_whitespace :
  AiService.cleanAndParseJSON (lit "  hello world  ") = [JString (lit "  hello world  ")]
  /\ trim (lit "  hello world  ") = lit "hello world"
  /\ AiService.cleanAndParseJSON (lit "  hello world  ")
     <> [JString (trim (lit "  hello world  "))].
Proof. vm_compute. repeat split; discriminate. Qed.

(** ** Strings: what the primitives keep *)

Lemma cu_eqb_eq (a b : code_unit) : cu_eqb a b = true <-> a = b.
Proof. apply N.eqb_eq. Qed.

Lemma cu_eqb_refl (a : code_unit) : cu_eqb a a = true.
Proof. apply N.eqb_refl. Qed.

Lemma cu_eqb_neq (a b : code_unit) : cu_eqb a b = false <-> a <> b.
Proof. apply N.eqb_neq. Qed.

Lemma trimStart_incl (s : jsstring) (c : code_unit) :
  In c (trimStart s) -> In c s.
Proof.
  induction s as [|x s IH]; simpl; auto.
  destruct (isWhiteSpace x); simpl; auto.
Qed.

Lemma trim_incl (s : jsstring) (c : code_unit) : In c (trim s) -> In c s.
Proof.
  unfold trim, trimEnd. intro H.
  apply in_rev in H. apply trimStart_incl in H.
  apply in_rev in H. apply trimStart_incl in H. exact H.
Qed.

Lemma replaceAll_from_incl (ic : bool) (r : regex) (repl s : jsstring)
  (c : code_unit) :
  forall b skip, In c (replaceAll_from ic r repl b skip s) -> In c s \/ In c repl.
Proof.
  induction s as [|x s IH]; intros b skip H.
  - destruct skip; simpl in H; [|contradiction].
    destruct (match_at ic r b []) as [[|n]|]; simpl in H;
      rewrite ?app_nil_r in H; auto; contradiction.
  - destruct skip as [|k]; simpl in H.
    + destruct (match_at ic r b (x :: s)) as [[|n]|].
      * apply in_app_or in H. destruct H as [H|H]; auto.
        simpl in H. destruct H as [H|H]; [left; left; exact H|].
        apply IH in H. destruct H; auto. left; right; assumption.
      * apply in_app_or in H. destruct H as [H|H]; auto.
        apply IH in H. destruct H; auto. left; right; assumption.
      * simpl in H. destruct H as [H|H]; [left; left; exact H|].
        apply IH in H. destruct H; auto. left; right; assumption.
    + apply IH in H. destruct H; auto. left; right; assumption.
Qed.

Lemma replaceAll_incl (ic : bool) (r : regex) (repl s : jsstring) (c : code_unit) :
  In c (replaceAll ic r repl s) -> In c s \/ In c repl.
Proof. apply replaceAll_from_incl. Qed.

Lemma cleanText_incl (text : jsstring) (c : code_unit) :
  In c (AiService.cleanText text) -> In c text.
Proof.
  unfold AiService.cleanText. intro H.
  apply trim_incl in H.
  apply replaceAll_incl in H. destruct H as [H|[]].
  apply replaceAll_incl in H. destruct H as [H|[]]. exact H.
Qed.

Lemma startsWith_In (c : code_unit) (p s : jsstring) :
  startsWith (c :: p) s = true -> In c s.
Proof.
  destruct s as [|x s]; simpl; [discriminate|].
  intro H. apply andb_true_iff in H. destruct H as [H _].
  apply cu_eqb_eq in H. left. symmetry. exact H.
Qed.

Lemma includes_In (c : code_unit) (p s : jsstring) :
  includes (c :: p) s = true -> In c s.
Proof.
  induction s as [|x s IH]; intro H.
  - simpl in H. discriminate.
  - cbn [includes] in H. apply orb_true_iff in H. destruct H as [H|H].
    + apply startsWith_In in H. exact H.
    + right. apply IH. exact H.
Qed.

Lemma indexOf_from_absent (c : code_unit) (s : jsstring) :
  ~ In c s -> forall i, indexOf_from c s i = (-1)%Z.
Proof.
  induction s as [|x s IH]; intros H i; simpl; auto.
  destruct (cu_eqb x c) eqn:E.
  - apply cu_eqb_eq in E. exfalso. apply H. left. exact E.
  - apply IH. intro K. apply H. right. exact K.
Qed.

(** ** Patterns that match nowhere *)

Lemma exec_none_split_from (ic : bool) (r : regex) (s : jsstring) :
  forall b cur, exec_from ic r b s = None ->
    split_from ic r b 0 cur s = [rev cur ++ s].
Proof.
  induction s as [|c s IH]; intros b cur H.
  - simpl. rewrite app_nil_r. reflexivity.
  - simpl in H. simpl.
    destruct (match_at ic r b (c :: s)); [discriminate|].
    rewrite IH by exact H. simpl. rewrite <- app_assoc. reflexivity.
Qed.

Lemma exec_none_split (ic : bool) (r : regex) (s : jsstring) :
  exec ic r s = None -> split_re ic r s = [s].
Proof.
  unfold exec, split_re. intro H. destruct s as [|c s].
  - simpl in H. destruct (match_at ic r true []); [discriminate|reflexivity].
  - apply exec_none_split_from with (cur := []). exact H.
Qed.

Lemma blank_line_match (b : bool) (s : jsstring) (n : nat) :
  match_at false AiService.re_blank_line b s = Some n ->
  startsWith [LF; LF] s = true.
Proof.
  unfold match_at, AiService.re_blank_line, Plus. cbn [rmatch].
  destruct s as [|x s]; [discriminate|].
  unfold char_matches. destruct (cu_eqb LF x) eqn:E1; [|discriminate].
  destruct s as [|y s]; [discriminate|].
  destruct (cu_eqb y LF) eqn:E2; [|discriminate].
  intros _. apply cu_eqb_eq in E1. apply cu_eqb_eq in E2. subst.
  reflexivity.
Qed.

Lemma no_blank_line_exec (s : jsstring) :
  includes [LF; LF] s = false ->
  forall b, exec_from false AiService.re_blank_line b s = None.
Proof.
  induction s as [|c s IH]; intros H b.
  - reflexivity.
  - cbn [includes] in H. apply orb_false_iff in H. destruct H as [H1 H2].
    cbn [exec_from].
    destruct (match_at false AiService.re_blank_line b (c :: s)) eqn:E.
    + apply blank_line_match in E. congruence.
    + apply IH. exact H2.
Qed.

Lemma length_map_filter_singleton (A B : Type) (f : A -> B) (g : A -> bool) (x : A) :
  (1 <? List.length (List.map f (filter g [x]))) = false.
Proof. simpl. destruct (g x); reflexivity. Qed.

Lemma length_filter_map_singleton (A B : Type) (f : A -> B) (g : B -> bool) (x : A) :
  (1 <? List.length (filter g (List.map f [x]))) = false.
Proof. simpl. destruct (g (f x)); reflexivity. Qed.

Lemma strings_nonempty (l : list jsstring) :
  (1 <? List.length l) = true -> strings l <> [].
Proof. destruct l; simpl; [discriminate|]. intros _ H. discriminate. Qed.

Lemma strings_isString (l : list jsstring) : Forall isString (strings l).
Proof.
  induction l as [|x l IH]; simpl; constructor; auto.
  exists x. reflexivity.
Qed.

(** C1, as the code has it.  The normaliser is a total function: it returns
    on every text.  Its result is either the array that the JSON stage
    parsed out of the cleaned text, whatever that array holds, or a sequence
    of strings that is not empty. *)
Theorem cleanAndParseJSON_shape (text : jsstring) :
  (exists parsed,
      AiService.extractJSON (AiService.cleanText text) = Some parsed
      /\ AiService.cleanAndParseJSON text = parsed)
  \/ (AiService.extractJSON (AiService.cleanText text) = None
      /\ AiService.cleanAndParseJSON text <> []
      /\ Forall isString (AiService.cleanAndParseJSON text)).
Proof.
  unfold AiService.cleanAndParseJSON.
  destruct (AiService.extractJSON (AiService.cleanText text)) as [parsed|].
  - left. exists parsed. split; reflexivity.
  - right. split; [reflexivity|].
    destruct (_ && (1 <? _)) eqn:E1.
    + apply andb_true_iff in E1. destruct E1 as [_ E1].
      split; [apply strings_nonempty; exact E1 | apply strings_isString].
    + destruct (1 <? List.length (AiService.validItemsOf text)) eqn:E2.
      * split; [apply strings_nonempty; exact E2 | apply strings_isString].
      * destruct (1 <? List.length (AiService.paragraphsOf text)) eqn:E3.
        -- split; [apply strings_nonempty; exact E3 | apply strings_isString].
        -- split; [discriminate|]. constructor; [|constructor].
           exists text. reflexivity.
Qed.

(** ** JSON.parse: white space around a text, and the brackets of an array *)

Lemma run_app (st : JSON.state) (a b : jsstring) :
  JSON.run st (a ++ b)
  = match JSON.run st a with
    | Some st' => JSON.run st' b
    | None => None
    end.
Proof.
  revert st. induction a as [|c a IH]; intro st; simpl; auto.
  destruct (JSON.step st c); auto.
Qed.

Lemma json_ws_is_ws (c : code_unit) :
  JSON.isJSONWhiteSpace c = true -> isWhiteSpace c = true.
Proof. unfold_cu. split_cmp; try reflexivity; try discriminate; lia. Qed.

Lemma step_value_ws (stk : list JSON.frame) (c : code_unit) :
  isWhiteSpace c = true -> JSON.isJSONWhiteSpace c = false ->
  JSON.step_value stk c = None.
Proof.
  unfold JSON.step_value. unfold_cu.
  split_cmp; intros; try reflexivity; try discriminate; try lia.
Qed.

Lemma step_initial_ws (c : code_unit) (st : JSON.state) :
  isWhiteSpace c = true -> JSON.step JSON.initial c = Some st -> st = JSON.initial.
Proof.
  intros W H. unfold JSON.step in H. cbn in H.
  destruct (JSON.isJSONWhiteSpace c) eqn:E.
  - congruence.
  - rewrite (step_value_ws _ _ W E) in H. discriminate.
Qed.

Lemma parse_trimStart (s : jsstring) (v : json) :
  JSON.parse s = Some v -> JSON.parse (trimStart s) = Some v.
Proof.
  induction s as [|c s IH]; simpl; auto.
  destruct (isWhiteSpace c) eqn:W; auto.
  intro H. apply IH. unfold JSON.parse in *. simpl in H.
  destruct (JSON.step JSON.initial c) as [st|] eqn:E; [|discriminate].
  apply step_initial_ws in E; auto. subst st. exact H.
Qed.

Lemma object_rooted_cons (f : JSON.frame) (stk : list JSON.frame) :
  object_rooted (f :: stk)
  <-> (stk = [] /\ exists d k, f = JSON.FObject d k) \/ object_rooted stk.
Proof.
  split.
  - intros (stk1 & d & k & E). destruct stk1 as [|g stk1]; simpl in E.
    + inversion E; subst. left. split; eauto.
    + inversion E; subst. right. exists stk1, d, k. reflexivity.
  - intros [[E (d & k & F)]|(stk1 & d & k & E)]; subst.
    + exists [], d, k. reflexivity.
    + exists (f :: stk1), d, k. reflexivity.
Qed.

Lemma object_rooted_nil : ~ object_rooted [].
Proof. intros (stk1 & d & k & E). destruct stk1; discriminate. Qed.

Lemma object_rooted_push (f : JSON.frame) (stk : list JSON.frame) :
  object_rooted stk -> object_rooted (f :: stk).
Proof. intro H. apply object_rooted_cons. right. exact H. Qed.

Lemma complete_not_array (stk : list JSON.frame) (v : json) (st' : JSON.state) :
  object_rooted stk \/ (stk = [] /\ ~ array_value v) ->
  JSON.complete stk v = Some st' -> not_array st'.
Proof.
  intros H E. destruct stk as [|[done|done [k|]] stk]; simpl in E;
    inversion E; subst; clear E.
  - destruct H as [H|[_ H]]; [destruct (object_rooted_nil H)|].
    right. split; [reflexivity|]. simpl. destruct v; auto.
    apply H. eexists. reflexivity.
  - destruct H as [H|[H _]]; [|discriminate].
    left. simpl. apply object_rooted_cons in H. apply object_rooted_cons.
    destruct H as [[_ (d & k & F)]|H]; [discriminate|right; exact H].
  - destruct H as [H|[H _]]; [|discriminate].
    left. simpl. apply object_rooted_cons in H. apply object_rooted_cons.
    destruct H as [[F _]|H]; [left; split; eauto|right; exact H].
Qed.

Lemma close_array_not_array (stk : list JSON.frame) (st' : JSON.state) :
  object_rooted stk -> JSON.close_array stk = Some st' -> not_array st'.
Proof.
  intros H E. destruct stk as [|[done|done k] stk]; simpl in E; try discriminate.
  apply object_rooted_cons in H.
  destruct H as [[_ (d & k & F)]|H]; [discriminate|].
  eapply complete_not_array; eauto.
Qed.

Lemma close_object_not_array (stk : list JSON.frame) (st' : JSON.state) :
  object_rooted stk -> JSON.close_object stk = Some st' -> not_array st'.
Proof.
  intros H E. destruct stk as [|[done|done [k|]] stk]; simpl in E; try discriminate.
  apply object_rooted_cons in H.
  eapply complete_not_array; [|exact E].
  destruct H as [[F _]|H]; [right|left; exact H].
  split; auto. intros (l & G). discriminate.
Qed.

Lemma step_after_not_array (stk : list JSON.frame) (t : option json)
  (c : code_unit) (st' : JSON.state) :
  object_rooted stk \/ (stk = [] /\ scalar_mode JSON.MAfter t) ->
  JSON.step_after stk t c = Some st' -> not_array st'.
Proof.
  intros H E. unfold JSON.step_after in E.
  destruct (JSON.isJSONWhiteSpace c).
  { inversion E; subst. destruct H as [H|[H1 H2]]; [left|right]; auto. }
  destruct (cu_eqb c COMMA).
  { destruct stk as [|[done|done [k|]] stk]; try discriminate;
      inversion E; subst; left; simpl;
      destruct H as [H|[H _]]; auto; discriminate. }
  destruct (cu_eqb c RBRACKET).
  { destruct H as [H|[H _]]; [eapply close_array_not_array; eauto|].
    subst. discriminate. }
  destruct (cu_eqb c RBRACE); [|discriminate].
  destruct H as [H|[H _]]; [eapply close_object_not_array; eauto|].
  subst. discriminate.
Qed.

Lemma step_value_not_array (stk : list JSON.frame) (c : code_unit) (st' : JSON.state) :
  object_rooted stk -> JSON.step_value stk c = Some st' -> not_array st'.
Proof.
  intros H E. unfold JSON.step_value in E.
  repeat match type of E with
         | (if ?b then _ else _) = _ => destruct b
         end;
    try discriminate; inversion E; subst; left; simpl; auto using object_rooted_push.
Qed.

Lemma step_string_not_array (stk : list JSON.frame) (iskey : bool)
  (buf : jsstring) (esc : JSON.escape) (c : code_unit) (st' : JSON.state) :
  object_rooted stk \/ stk = [] ->
  JSON.step_string stk iskey buf esc c = Some st' -> not_array st'.
Proof.
  intros H E.
  assert (K : forall b e, not_array (JSON.mkState stk (JSON.MString iskey b e) None)).
  { intros b e. destruct H as [H|H]; [left; exact H|right; split; simpl; auto]. }
  unfold JSON.step_string in E. destruct esc as [| |k acc].
  - destruct (cu_eqb c DQUOTE).
    + unfold JSON.finish_string in E. destruct iskey.
      * destruct stk as [|[done|done [k|]] stk]; simpl in E; try discriminate.
        inversion E; subst. left. simpl.
        destruct H as [H|H]; [|discriminate].
        apply object_rooted_cons in H. apply object_rooted_cons.
        destruct H as [[F _]|H]; [left; split; eauto|right; exact H].
      * eapply complete_not_array; [|exact E].
        destruct H as [H|H]; [left; exact H|right]. split; auto.
        intros (l & G). discriminate.
    + destruct (cu_eqb c BACKSLASH); [inversion E; subst; apply K|].
      destruct (c <? 32)%N; [discriminate|]. inversion E; subst; apply K.
  - repeat match type of E with
           | (if ?b then _ else _) = _ => destruct b
           end;
      try discriminate; inversion E; subst; apply K.
  - destruct (JSON.hexValue c); [|discriminate].
    destruct (Nat.eqb k 3); inversion E; subst; apply K.
Qed.

Lemma not_array_step (st st' : JSON.state) (c : code_unit) :
  not_array st -> JSON.step st c = Some st' -> not_array st'.
Proof.
  destruct st as [stk m t]. unfold not_array. cbn [JSON.stack JSON.md JSON.top].
  intros H E. unfold JSON.step in E. cbn [JSON.stack JSON.md JSON.top] in E.
  destruct m.
  - destruct H as [H|[_ []]].
    destruct (JSON.isJSONWhiteSpace c); [inversion E; subst; left; exact H|].
    eapply step_value_not_array; eauto.
  - destruct H as [H|[_ []]].
    destruct (JSON.isJSONWhiteSpace c); [inversion E; subst; left; exact H|].
    destruct (cu_eqb c RBRACKET); [eapply close_array_not_array; eauto|].
    eapply step_value_not_array; eauto.
  - destruct H as [H|[_ []]].
    destruct (JSON.isJSONWhiteSpace c); [inversion E; subst; left; exact H|].
    destruct (cu_eqb c RBRACE); [eapply close_object_not_array; eauto|].
    destruct (cu_eqb c DQUOTE); [|discriminate].
    inversion E; subst; left; exact H.
  - destruct H as [H|[_ []]].
    destruct (JSON.isJSONWhiteSpace c); [inversion E; subst; left; exact H|].
    destruct (cu_eqb c DQUOTE); [|discriminate].
    inversion E; subst; left; exact H.
  - destruct H as [H|[_ []]].
    destruct (JSON.isJSONWhiteSpace c); [inversion E; subst; left; exact H|].
    destruct (cu_eqb c COLON); [|discriminate].
    inversion E; subst; left; exact H.
  - eapply step_after_not_array; eauto.
  - eapply step_string_not_array; [|exact E]. destruct H as [H|[H _]]; auto.
  - destruct (JSON.num_next ns c).
    + inversion E; subst. destruct H as [H|[H _]]; [left; exact H|right].
      split; simpl; auto.
    + destruct (JSON.num_accepting ns); [|discriminate].
      destruct (JSON.complete stk (JNumber (rev buf))) as [st1|] eqn:C; [|discriminate].
      assert (N1 : not_array st1).
      { eapply complete_not_array; [|exact C].
        destruct H as [H|[H _]]; [left; exact H|right]. split; auto.
        intros (l0 & G). discriminate. }
      eapply step_after_not_array; [|exact E].
      destruct st1 as [stk1 m1 t1]. cbn [JSON.stack JSON.top].
      destruct stk as [|[done|done [k|]] stk]; simpl in C; inversion C; subst;
        destruct N1 as [N1|[N1 N2]]; auto; try discriminate.
  - destruct (nth_error (JSON.literal_text l) seen) as [x|]; [|discriminate].
    destruct (cu_eqb c x); [|discriminate].
    destruct (Nat.eqb (S seen) (List.length (JSON.literal_text l))).
    + eapply complete_not_array; [|exact E].
      destruct H as [H|[H _]]; [left; exact H|right]. split; auto.
      intros (l0 & G). destruct l; discriminate.
    + inversion E; subst. destruct H as [H|[H _]]; [left; exact H|right].
      split; simpl; auto.
Qed.

Lemma not_array_run (s : jsstring) :
  forall st st', not_array st -> JSON.run st s = Some st' -> not_array st'.
Proof.
  induction s as [|c s IH]; intros st st' H E; simpl in E.
  - inversion E; subst; exact H.
  - destruct (JSON.step st c) as [st1|] eqn:S; [|discriminate].
    eapply IH; [|exact E]. eapply not_array_step; eauto.
Qed.

Lemma not_array_finalize (st : JSON.state) (l : list json) :
  not_array st -> JSON.finalize st <> Some (JArray l).
Proof.
  destruct st as [stk m t]. unfold not_array, JSON.finalize.
  cbn [JSON.stack JSON.md JSON.top].
  intros [H|[H1 H2]] E.
  - destruct stk as [|f stk]; [destruct (object_rooted_nil H)|discriminate].
  - subst stk. destruct m; try discriminate.
    + simpl in H2. subst t. exact H2.
    + destruct (JSON.num_accepting ns); discriminate.
Qed.

Lemma first_step_not_array (c : code_unit) (st : JSON.state) :
  JSON.step JSON.initial c = Some st ->
  isWhiteSpace c = false -> c <> LBRACKET -> not_array st.
Proof.
  intros E W N. unfold JSON.step in E. cbn in E.
  destruct (JSON.isJSONWhiteSpace c) eqn:J.
  { apply json_ws_is_ws in J. congruence. }
  unfold JSON.step_value in E.
  destruct (cu_eqb c LBRACKET) eqn:B.
  { apply cu_eqb_eq in B. contradiction. }
  repeat match type of E with
         | (if ?b then _ else _) = _ => destruct b
         end;
    try discriminate; inversion E; subst;
    try (right; split; simpl; auto; fail).
  left. exists [], [], None. reflexivity.
Qed.

Lemma parse_nil : JSON.parse [] = None.
Proof. reflexivity. Qed.

Lemma trimStart_head (s : jsstring) (c : code_unit) (r : jsstring) :
  trimStart s = c :: r -> isWhiteSpace c = false.
Proof.
  induction s as [|x s IH]; simpl; [discriminate|].
  destruct (isWhiteSpace x) eqn:W; auto.
  intro H. inversion H; subst. exact W.
Qed.

(** The text of a JSON array starts, after white space, with its opening
    bracket. *)
Lemma parse_array_head (s : jsstring) (l : list json) :
  JSON.parse s = Some (JArray l) -> exists r, trimStart s = LBRACKET :: r.
Proof.
  intro H. apply parse_trimStart in H.
  destruct (trimStart s) as [|c r] eqn:T; [discriminate|].
  pose proof (trimStart_head _ T) as W.
  destruct (N.eq_dec c LBRACKET) as [->|N]; [eauto|].
  exfalso. unfold JSON.parse in H. simpl in H.
  destruct (JSON.step JSON.initial c) as [st1|] eqn:S; [|discriminate].
  destruct (JSON.run st1 r) as [st2|] eqn:R; [|discriminate].
  pose proof (first_step_not_array S W N) as N1.
  apply (not_array_run _ N1) in R.
  exact (not_array_finalize R H).
Qed.

Lemma parse_array_In (s : jsstring) (l : list json) :
  JSON.parse s = Some (JArray l) -> In LBRACKET s.
Proof.
  intro H. apply parse_array_head in H. destruct H as [r H].
  apply trimStart_incl. rewrite H. left. reflexivity.
Qed.

(** White space after a complete text changes nothing. *)
Lemma step_ws_finalize (c : code_unit) (st st1 : JSON.state) (v : json) :
  isWhiteSpace c = true -> JSON.step st c = Some st1 ->
  JSON.finalize st1 = Some v -> JSON.finalize st = Some v.
Proof.
  intros W E F. destruct st as [stk m t].
  unfold JSON.step in E. cbn [JSON.stack JSON.md JSON.top] in E.
  assert (V : forall stk', JSON.isJSONWhiteSpace c = false -> JSON.step_value stk' c = None).
  { intros. apply step_value_ws; auto. }
  assert (A : forall stk' t', JSON.step_after stk' t' c = Some st1 ->
                st1 = JSON.mkState stk' JSON.MAfter t').
  { intros stk' t' G. unfold JSON.step_after in G.
    destruct (JSON.isJSONWhiteSpace c) eqn:J; [congruence|].
    exfalso. revert W J G. unfold_cu. split_cmp; intros; try discriminate; lia. }
  destruct m.
  - destruct (JSON.isJSONWhiteSpace c) eqn:J; [congruence|].
    rewrite V in E by auto. discriminate.
  - destruct (JSON.isJSONWhiteSpace c) eqn:J; [congruence|].
    exfalso. rewrite V in E by auto. revert W J E. unfold_cu.
    split_cmp; intros; try discriminate; lia.
  - destruct (JSON.isJSONWhiteSpace c) eqn:J; [congruence|].
    exfalso. revert W J E. unfold_cu. split_cmp; intros; try discriminate; lia.
  - destruct (JSON.isJSONWhiteSpace c) eqn:J; [congruence|].
    exfalso. revert W J E. unfold_cu. split_cmp; intros; try discriminate; lia.
  - destruct (JSON.isJSONWhiteSpace c) eqn:J; [congruence|].
    exfalso. revert W J E. unfold_cu. split_cmp; intros; try discriminate; lia.
  - apply A in E. subst. exact F.
  - exfalso. unfold JSON.step_string in E. destruct esc as [| |k acc].
    + destruct (cu_eqb c DQUOTE) eqn:Q.
      { revert W Q. unfold_cu. split_cmp; intros; try discriminate; lia. }
      destruct (cu_eqb c BACKSLASH);
        [inversion E; subst; destruct stk; discriminate F|].
      destruct (c <? 32)%N; [discriminate|].
      inversion E; subst. destruct stk; discriminate F.
    + revert W E. unfold_cu. split_cmp; intros; try discriminate; lia.
    + unfold JSON.hexValue in E. revert W E. unfold_cu.
      split_cmp; intros; try discriminate; lia.
  - destruct (JSON.num_next ns c) eqn:Nx.
    { exfalso. revert W Nx. unfold JSON.num_next. unfold_cu.
      destruct ns; split_cmp; intros; try discriminate; lia. }
    destruct (JSON.num_accepting ns) eqn:Acc; [|discriminate].
    destruct (JSON.complete stk (JNumber (rev buf))) as [st'|] eqn:C; [|discriminate].
    apply A in E. subst st1.
    destruct stk as [|[done|done [k|]] stk]; simpl in C; inversion C; subst;
      simpl in F; try discriminate.
    unfold JSON.finalize. cbn. rewrite Acc. exact F.
  - exfalso. destruct (nth_error (JSON.literal_text l) seen) as [x|] eqn:T; [|discriminate].
    destruct (cu_eqb c x) eqn:X; [|discriminate].
    apply cu_eqb_eq in X. subst x.
    assert (L : In c (JSON.literal_text l)) by (eapply nth_error_In; eauto).
    revert W. destruct l; simpl in L;
      repeat (destruct L as [L|L]; [subst c; discriminate|]); destruct L.
Qed.

Lemma run_ws_finalize (w : jsstring) :
  Forall (fun c => isWhiteSpace c = true) w ->
  forall st st1 v, JSON.run st w = Some st1 ->
    JSON.finalize st1 = Some v -> JSON.finalize st = Some v.
Proof.
  induction 1 as [|c w W _ IH]; intros st st1 v R F; simpl in R.
  - inversion R; subst; exact F.
  - destruct (JSON.step st c) as [st2|] eqn:S; [|discriminate].
    eapply step_ws_finalize; eauto.
Qed.

Lemma trimStart_split (s : jsstring) :
  exists w, s = w ++ trimStart s /\ Forall (fun c => isWhiteSpace c = true) w.
Proof.
  induction s as [|c s (w & E & F)]; simpl.
  - exists []. split; auto.
  - destruct (isWhiteSpace c) eqn:W.
    + exists (c :: w). split; [simpl; congruence|constructor; auto].
    + exists []. split; auto.
Qed.

Lemma trimEnd_split (s : jsstring) :
  exists w, s = trimEnd s ++ w /\ Forall (fun c => isWhiteSpace c = true) w.
Proof.
  unfold trimEnd. destruct (trimStart_split (rev s)) as (w & E & F).
  exists (rev w). split.
  - rewrite <- rev_app_distr, <- E, rev_involutive. reflexivity.
  - apply Forall_rev. exact F.
Qed.

Lemma trimEnd_last (s y : jsstring) (c : code_unit) :
  trimEnd s = y ++ [c] -> isWhiteSpace c = false.
Proof.
  unfold trimEnd. intro H. apply (f_equal (@rev _)) in H.
  rewrite rev_involutive, rev_app_distr in H. simpl in H.
  eapply trimStart_head; eauto.
Qed.

Lemma parse_trimEnd (s : jsstring) (v : json) :
  JSON.parse s = Some v -> JSON.parse (trimEnd s) = Some v.
Proof.
  destruct (trimEnd_split s) as (w & E & F). intro H.
  rewrite E in H. unfold JSON.parse in *. rewrite run_app in H.
  destruct (JSON.run JSON.initial (trimEnd s)) as [st|]; [|discriminate].
  destruct (JSON.run st w) as [st1|] eqn:R; [|discriminate].
  eapply run_ws_finalize; eauto.
Qed.

Lemma parse_trim (s : jsstring) (v : json) :
  JSON.parse s = Some v -> JSON.parse (trim s) = Some v.
Proof. intro H. apply parse_trimEnd, parse_trimStart, H. Qed.

Lemma complete_top (stk : list JSON.frame) (v w : json) (st' : JSON.state) :
  JSON.complete stk v = Some st' -> JSON.top st' = Some w -> w = v /\ stk = [].
Proof.
  destruct stk as [|[done|done [k|]] stk]; simpl; intros E T;
    inversion E; subst; simpl in T; try discriminate.
  inversion T; auto.
Qed.

Lemma step_to_array (st st' : JSON.state) (c : code_unit) (l : list json) :
  JSON.step st c = Some st' -> JSON.top st' = Some (JArray l) ->
  JSON.isJSONWhiteSpace c = true \/ c = RBRACKET.
Proof.
  destruct st as [stk m t]. unfold JSON.step. cbn [JSON.stack JSON.md JSON.top].
  intros E T.
  assert (C : forall stk' v, JSON.complete stk' v = Some st' -> ~ array_value v -> False).
  { intros stk' v G N. destruct (complete_top _ _ G T) as [K _].
    apply N. exists l. auto. }
  assert (O : forall stk', JSON.close_object stk' = Some st' -> False).
  { intros stk' G. destruct stk' as [|[done|done [k|]] stk']; simpl in G;
      try discriminate.
    eapply C; eauto. intros (l0 & K). discriminate. }
  assert (V : forall stk', JSON.step_value stk' c = Some st' -> False).
  { intros stk' G. unfold JSON.step_value in G.
    repeat match type of G with
           | (if ?b then _ else _) = _ => destruct b
           end;
      try discriminate; inversion G; subst; discriminate. }
  assert (A : forall stk' t', JSON.step_after stk' t' c = Some st' ->
                JSON.isJSONWhiteSpace c = true \/ c = RBRACKET).
  { intros stk' t' G. unfold JSON.step_after in G.
    destruct (JSON.isJSONWhiteSpace c); [left; reflexivity|].
    destruct (cu_eqb c COMMA).
    { destruct stk' as [|[done|done [k|]] stk']; try discriminate;
        inversion G; subst; discriminate. }
    destruct (cu_eqb c RBRACKET) eqn:B; [right; apply cu_eqb_eq; exact B|].
    destruct (cu_eqb c RBRACE); [|discriminate].
    destruct (O _ G). }
  destruct m.
  - destruct (JSON.isJSONWhiteSpace c); [left; reflexivity|]. destruct (V _ E).
  - destruct (JSON.isJSONWhiteSpace c); [left; reflexivity|].
    destruct (cu_eqb c RBRACKET) eqn:B; [right; apply cu_eqb_eq; exact B|].
    destruct (V _ E).
  - destruct (JSON.isJSONWhiteSpace c); [left; reflexivity|].
    destruct (cu_eqb c RBRACE); [destruct (O _ E)|].
    destruct (cu_eqb c DQUOTE); [|discriminate]. inversion E; subst; discriminate.
  - destruct (JSON.isJSONWhiteSpace c); [left; reflexivity|].
    destruct (cu_eqb c DQUOTE); [|discriminate]. inversion E; subst; discriminate.
  - destruct (JSON.isJSONWhiteSpace c); [left; reflexivity|].
    destruct (cu_eqb c COLON); [|discriminate]. inversion E; subst; discriminate.
  - eapply A; eauto.
  - exfalso. unfold JSON.step_string in E. destruct esc as [| |k acc].
    + destruct (cu_eqb c DQUOTE).
      * unfold JSON.finish_string in E. destruct iskey.
        -- destruct stk as [|[done|done [k|]] stk]; simpl in E; try discriminate.
           inversion E; subst; discriminate.
        -- eapply C; eauto. intros (l0 & K). discriminate.
      * destruct (cu_eqb c BACKSLASH); [inversion E; subst; discriminate|].
        destruct (c <? 32)%N; [discriminate|]. inversion E; subst; discriminate.
    + repeat match type of E with
             | (if ?b then _ else _) = _ => destruct b
             end;
        try discriminate; inversion E; subst; discriminate.
    + destruct (JSON.hexValue c); [|discriminate].
      destruct (Nat.eqb k 3); inversion E; subst; discriminate.
  - destruct (JSON.num_next ns c); [inversion E; subst; discriminate|].
    destruct (JSON.num_accepting ns); [|discriminate].
    destruct (JSON.complete stk (JNumber (rev buf))) as [st1|]; [|discriminate].
    eapply A; eauto.
  - exfalso.
    destruct (nth_error (JSON.literal_text l0) seen) as [x|]; [|discriminate].
    destruct (cu_eqb c x); [|discriminate].
    destruct (Nat.eqb (S seen) (List.length (JSON.literal_text l0))).
    + eapply C; eauto. intros (l1 & K). destruct l0; discriminate.
    + inversion E; subst; discriminate.
Qed.

Lemma finalize_array (st : JSON.state) (l : list json) :
  JSON.finalize st = Some (JArray l) -> JSON.top st = Some (JArray l).
Proof.
  destruct st as [stk m t]. unfold JSON.finalize. cbn.
  destruct stk; [|discriminate].
  destruct m; try discriminate; auto.
  destruct (JSON.num_accepting ns); discriminate.
Qed.

(** The text of a JSON array ends, before white space, with its closing
    bracket. *)
Lemma parse_array_last (s : jsstring) (c : code_unit) (l : list json) :
  JSON.parse (s ++ [c]) = Some (JArray l) -> isWhiteSpace c = false ->
  c = RBRACKET.
Proof.
  unfold JSON.parse. rewrite run_app. intros H W.
  destruct (JSON.run JSON.initial s) as [st|]; [|discriminate].
  simpl in H. destruct (JSON.step st c) as [st'|] eqn:S; [|discriminate].
  apply finalize_array in H.
  destruct (step_to_array _ _ S H) as [J|J]; auto.
  apply json_ws_is_ws in J. congruence.
Qed.

Lemma parse_array_trim (s : jsstring) (l : list json) :
  JSON.parse s = Some (JArray l) ->
  exists mid, trim s = LBRACKET :: mid ++ [RBRACKET]
              /\ JSON.parse (trim s) = Some (JArray l).
Proof.
  intro H. pose proof (parse_trim _ H) as P.
  pose proof (parse_trimStart _ H) as P1.
  destruct (parse_array_head _ H) as (r & Hd).
  unfold trim in *. rewrite Hd in *.
  destruct (trimEnd_split (LBRACKET :: r)) as (w & E & F).
  remember (trimEnd (LBRACKET :: r)) as y eqn:Y.
  destruct y as [|y0 y]; [discriminate|].
  simpl in E. inversion E as [[E0 E1]]. subst y0.
  destruct (@exists_last _ (LBRACKET :: y)) as (y' & c & L); [discriminate|].
  assert (c = RBRACKET).
  { apply parse_array_last with (s := y') (l := l).
    - rewrite <- L. exact P.
    - apply trimEnd_last with (s := LBRACKET :: r) (y := y'). congruence. }
  subst c. destruct y' as [|y0 y']; simpl in L.
  - inversion L.
  - inversion L; subst. exists y'. split; [reflexivity|exact P].
Qed.

Lemma lastIndexOf_from_last (c : code_unit) (a : jsstring) :
  forall i f, lastIndexOf_from c (a ++ [c]) i f = (i + Z.of_nat (List.length a))%Z.
Proof.
  induction a as [|x a IH]; intros i f; simpl lastIndexOf_from.
  - rewrite cu_eqb_refl. simpl. lia.
  - rewrite IH. simpl List.length. lia.
Qed.

Lemma substring_all (s : jsstring) :
  substring s 0 (Z.of_nat (List.length s)) = s.
Proof.
  unfold substring.
  replace (Z.min (Z.max 0 0) (Z.of_nat (List.length s))) with 0%Z by lia.
  replace (Z.min (Z.max (Z.of_nat (List.length s)) 0) (Z.of_nat (List.length s)))
    with (Z.of_nat (List.length s)) by lia.
  replace (Z.min 0 (Z.of_nat (List.length s))) with 0%Z by lia.
  replace (Z.max 0 (Z.of_nat (List.length s))) with (Z.of_nat (List.length s)) by lia.
  rewrite Z.sub_0_r, Nat2Z.id. simpl. apply firstn_all.
Qed.

(** On a bracketed text that parses to an array the JSON stage succeeds. *)
Lemma extractJSON_bracketed (mid : jsstring) (l : list json) :
  JSON_parse (LBRACKET :: mid ++ [RBRACKET]) = Some (JArray l) ->
  AiService.extractJSON (LBRACKET :: mid ++ [RBRACKET]) = Some l.
Proof.
  intro H. unfold AiService.extractJSON.
  assert (I : indexOf LBRACKET (LBRACKET :: mid ++ [RBRACKET]) = 0%Z) by reflexivity.
  assert (L : lastIndexOf RBRACKET (LBRACKET :: mid ++ [RBRACKET])
              = Z.of_nat (List.length (LBRACKET :: mid))).
  { unfold lastIndexOf. rewrite app_comm_cons, lastIndexOf_from_last. lia. }
  rewrite I, L.
  replace (Z.of_nat (List.length (LBRACKET :: mid)) + 1)%Z
    with (Z.of_nat (List.length (LBRACKET :: mid ++ [RBRACKET])))
    by (simpl List.length; rewrite length_app; simpl; lia).
  rewrite substring_all, H.
  destruct (negb (0 =? -1)%Z && negb (Z.of_nat (List.length (LBRACKET :: mid)) =? -1)%Z
            && (Z.of_nat (List.length (LBRACKET :: mid)) >? 0)%Z) eqn:C; auto.
  exfalso. simpl List.length in C. rewrite Z.gtb_ltb in C.
  destruct (Z.eqb_spec (Z.of_nat (S (List.length mid))) (-1)%Z); [lia|].
  destruct (Z.ltb_spec 0%Z (Z.of_nat (S (List.length mid)))); [discriminate|lia].
Qed.

Lemma extractJSON_valid (s : jsstring) (l : list json) :
  JSON_parse s = Some (JArray l) -> AiService.extractJSON (trim s) = Some l.
Proof.
  intro H. destruct (parse_array_trim _ H) as (mid & E & P).
  rewrite E in *. apply extractJSON_bracketed. exact P.
Qed.

(** ** JSON.parse: the text of strings does not steer the parser *)

Lemma same_stack_cons (f f' : JSON.frame) (stk stk' : list JSON.frame) :
  same_stack (f :: stk) (f' :: stk')
  <-> erase_frame f = erase_frame f' /\ same_stack stk stk'.
Proof.
  unfold same_stack. simpl. split.
  - intro H. inversion H. auto.
  - intros [H1 H2]. congruence.
Qed.

Lemma complete_shape (stk stk' : list JSON.frame) (v v' : json) :
  same_stack stk stk' -> erase_json v = erase_json v' ->
  same_shape_opt (JSON.complete stk v) (JSON.complete stk' v').
Proof.
  unfold same_shape_opt. intros S V.
  destruct stk as [|f stk], stk' as [|f' stk']; try discriminate S.
  - simpl. unfold erase. simpl. congruence.
  - apply same_stack_cons in S. destruct S as [F S]. unfold same_stack in S.
    destruct f as [d|d [k|]], f' as [d'|d' [k'|]]; try discriminate F;
      simpl; unfold erase; simpl; congruence.
Qed.

Lemma close_array_shape (stk stk' : list JSON.frame) :
  same_stack stk stk' ->
  same_shape_opt (JSON.close_array stk) (JSON.close_array stk').
Proof.
  intros S.
  destruct stk as [|f stk], stk' as [|f' stk']; try discriminate S;
    [reflexivity|].
  apply same_stack_cons in S. destruct S as [F S].
  destruct f as [d|d k], f' as [d'|d' k']; try discriminate F; simpl;
    [|reflexivity].
  apply complete_shape; auto.
Qed.

Lemma close_object_shape (stk stk' : list JSON.frame) :
  same_stack stk stk' ->
  same_shape_opt (JSON.close_object stk) (JSON.close_object stk').
Proof.
  intros S.
  destruct stk as [|f stk], stk' as [|f' stk']; try discriminate S;
    [reflexivity|].
  apply same_stack_cons in S. destruct S as [F S].
  destruct f as [d|d [k|]], f' as [d'|d' [k'|]]; try discriminate F; simpl;
    try reflexivity.
  apply complete_shape; auto.
Qed.

Lemma set_key_shape (stk stk' : list JSON.frame) (k k' : jsstring) :
  same_stack stk stk' ->
  same_shape_opt (JSON.set_key stk k) (JSON.set_key stk' k').
Proof.
  intros S.
  destruct stk as [|f stk], stk' as [|f' stk']; try discriminate S;
    [reflexivity|].
  apply same_stack_cons in S. destruct S as [F S]. unfold same_stack in S.
  destruct f as [d|d [j|]], f' as [d'|d' [j'|]]; try discriminate F; simpl;
    try reflexivity.
  unfold same_shape_opt, erase. simpl. congruence.
Qed.

Lemma step_after_shape (stk stk' : list JSON.frame) (t t' : option json)
  (c : code_unit) :
  same_stack stk stk' -> option_map erase_json t = option_map erase_json t' ->
  same_shape_opt (JSON.step_after stk t c) (JSON.step_after stk' t' c).
Proof.
  intros S T. unfold JSON.step_after.
  destruct (JSON.isJSONWhiteSpace c).
  { unfold same_shape_opt, erase. simpl. unfold same_stack in S. congruence. }
  destruct (cu_eqb c COMMA).
  { destruct stk as [|f stk], stk' as [|f' stk']; try discriminate S;
      [reflexivity|].
    pose proof S as S0.
    apply same_stack_cons in S. destruct S as [F S]. unfold same_stack in S0.
    destruct f as [d|d [j|]], f' as [d'|d' [j'|]]; try discriminate F;
      try reflexivity; unfold same_shape_opt, erase; simpl; simpl in S0; congruence. }
  destruct (cu_eqb c RBRACKET); [apply close_array_shape; exact S|].
  destruct (cu_eqb c RBRACE); [apply close_object_shape; exact S|].
  reflexivity.
Qed.

Lemma step_value_shape (stk stk' : list JSON.frame) (c : code_unit) :
  same_stack stk stk' ->
  same_shape_opt (JSON.step_value stk c) (JSON.step_value stk' c).
Proof.
  intros S. unfold JSON.step_value, same_stack in *.
  repeat match goal with
         | |- same_shape_opt (if ?b then _ else _) _ => destruct b
         end;
    unfold same_shape_opt, erase; simpl; congruence.
Qed.

Lemma step_string_shape (stk stk' : list JSON.frame) (iskey : bool)
  (buf buf' : jsstring) (esc esc' : JSON.escape) (c : code_unit) :
  same_stack stk stk' -> erase_escape esc = erase_escape esc' ->
  same_shape_opt (JSON.step_string stk iskey buf esc c)
                 (JSON.step_string stk' iskey buf' esc' c).
Proof.
  intros S E. pose proof S as S0. unfold same_stack in S0.
  assert (K : forall b b' e e', erase_escape e = erase_escape e' ->
              same_shape_opt (Some (JSON.mkState stk (JSON.MString iskey b e) None))
                             (Some (JSON.mkState stk' (JSON.MString iskey b' e') None))).
  { intros. unfold same_shape_opt, erase. simpl. congruence. }
  unfold JSON.step_string.
  destruct esc as [| |k acc], esc' as [| |k' acc']; try discriminate E.
  - destruct (cu_eqb c DQUOTE).
    + unfold JSON.finish_string. destruct iskey.
      * apply set_key_shape; auto.
      * apply complete_shape; auto.
    + destruct (cu_eqb c BACKSLASH); [apply K; reflexivity|].
      destruct (c <? 32)%N; [reflexivity|apply K; reflexivity].
  - repeat match goal with
           | |- same_shape_opt (if ?b then _ else _) _ => destruct b
           end;
      try reflexivity; apply K; reflexivity.
  - simpl in E. inversion E; subst k'.
    destruct (JSON.hexValue c); [|reflexivity].
    destruct (Nat.eqb k 3); apply K; reflexivity.
Qed.

Lemma complete_md (stk : list JSON.frame) (v : json) (st : JSON.state) :
  JSON.complete stk v = Some st -> JSON.md st = JSON.MAfter.
Proof.
  destruct stk as [|[d|d [k|]] stk]; simpl; intro H; inversion H; reflexivity.
Qed.

Lemma same_shape_parts (st st' : JSON.state) :
  same_shape st st' ->
  same_stack (JSON.stack st) (JSON.stack st')
  /\ erase_mode (JSON.md st) = erase_mode (JSON.md st').
Proof.
  unfold same_shape, erase. intro H. inversion H. split; auto.
Qed.

(** One step keeps the shapes of two states equal. *)
Lemma step_shape (st st' : JSON.state) (c : code_unit) :
  same_shape st st' -> same_shape_opt (JSON.step st c) (JSON.step st' c).
Proof.
  intro H. destruct (same_shape_parts H) as [Sk M].
  destruct st as [stk m t], st' as [stk' m' t'].
  cbn [JSON.stack JSON.md] in Sk, M.
  unfold JSON.step. cbn [JSON.stack JSON.md JSON.top].
  destruct m, m'; try discriminate M.
  - destruct (JSON.isJSONWhiteSpace c); [exact (f_equal Some H)|].
    apply step_value_shape; auto.
  - destruct (JSON.isJSONWhiteSpace c); [exact (f_equal Some H)|].
    destruct (cu_eqb c RBRACKET); [apply close_array_shape; auto|].
    apply step_value_shape; auto.
  - destruct (JSON.isJSONWhiteSpace c); [exact (f_equal Some H)|].
    destruct (cu_eqb c RBRACE); [apply close_object_shape; auto|].
    destruct (cu_eqb c DQUOTE); [|reflexivity].
    unfold same_shape_opt, erase, same_stack in *. simpl. congruence.
  - destruct (JSON.isJSONWhiteSpace c); [exact (f_equal Some H)|].
    destruct (cu_eqb c DQUOTE); [|reflexivity].
    unfold same_shape_opt, erase, same_stack in *. simpl. congruence.
  - destruct (JSON.isJSONWhiteSpace c); [exact (f_equal Some H)|].
    destruct (cu_eqb c COLON); [|reflexivity].
    unfold same_shape_opt, erase, same_stack in *. simpl. congruence.
  - apply step_after_shape; auto.
    unfold same_shape, erase in H. simpl in H. congruence.
  - simpl in M. inversion M; subst.
    apply step_string_shape; auto.
  - simpl in M. inversion M; subst.
    destruct (JSON.num_next ns0 c).
    + unfold same_shape_opt, erase, same_stack in *. simpl. congruence.
    + destruct (JSON.num_accepting ns0); [|reflexivity].
      pose proof (@complete_shape stk stk' (JNumber (rev buf)) (JNumber (rev buf0)) Sk eq_refl) as C.
      destruct (JSON.complete stk (JNumber (rev buf))) as [s1|] eqn:C1,
               (JSON.complete stk' (JNumber (rev buf0))) as [s2|] eqn:C2;
        try discriminate C; [|reflexivity].
      unfold same_shape_opt in C. cbn [option_map] in C.
      assert (C0 : erase s1 = erase s2) by congruence.
      apply step_after_shape.
      * unfold same_stack. unfold erase in C0. congruence.
      * pose proof (complete_md _ _ C1) as M1.
        pose proof (complete_md _ _ C2) as M2.
        unfold erase in C0. rewrite M1, M2 in C0. congruence.
  - simpl in M. inversion M; subst.
    destruct (nth_error (JSON.literal_text l0) seen0); [|reflexivity].
    destruct (cu_eqb c c0); [|reflexivity].
    destruct (Nat.eqb (S seen0) (List.length (JSON.literal_text l0))).
    + apply complete_shape; auto.
    + unfold same_shape_opt, erase, same_stack in *. simpl. congruence.
Qed.

Lemma finalize_shape (st st' : JSON.state) :
  same_shape st st' ->
  option_map erase_json (JSON.finalize st) = option_map erase_json (JSON.finalize st').
Proof.
  intro H. destruct (same_shape_parts H) as [Sk M].
  destruct st as [stk m t], st' as [stk' m' t'].
  cbn [JSON.stack JSON.md] in Sk, M. unfold JSON.finalize.
  cbn [JSON.stack JSON.md JSON.top].
  destruct stk, stk'; try discriminate Sk; [|reflexivity].
  destruct m, m'; try discriminate M; try reflexivity.
  - unfold same_shape, erase in H. simpl in H. congruence.
  - simpl in M. inversion M; subst. destruct (JSON.num_accepting ns0); reflexivity.
Qed.

(** ** Literal patterns *)

Lemma rmatch_Lit (ic : bool) (p : jsstring) :
  p <> [] -> forall b n s k,
    rmatch ic (Lit p) b n s k
    = if prefix_matches ic p s
      then k false (n + List.length p) (skipn (List.length p) s)
      else None.
Proof.
  induction p as [|c p IH]; intros N b n s k; [contradiction|].
  destruct p as [|c2 p].
  - simpl. destruct s as [|x s]; [reflexivity|].
    rewrite andb_true_r. destruct (char_matches ic c x); [|reflexivity].
    f_equal. lia.
  - change (Lit (c :: c2 :: p)) with (Seq (Char c) (Lit (c2 :: p))).
    cbn [rmatch]. destruct s as [|x s]; [reflexivity|].
    change (prefix_matches ic (c :: c2 :: p) (x :: s))
      with (char_matches ic c x && prefix_matches ic (c2 :: p) s).
    destruct (char_matches ic c x); cbn [andb]; [|reflexivity].
    rewrite IH by discriminate.
    destruct (prefix_matches ic (c2 :: p) s); [|reflexivity].
    f_equal. simpl. lia.
Qed.

Lemma match_at_Lit (ic : bool) (p : jsstring) (b : bool) (s : jsstring) :
  p <> [] ->
  match_at ic (Lit p) b s
  = if prefix_matches ic p s then Some (List.length p) else None.
Proof. intro N. unfold match_at. rewrite rmatch_Lit by exact N. reflexivity. Qed.

Lemma replaceAll_from_Lit_start (ic : bool) (p repl : jsstring) (s : jsstring) :
  p <> [] -> forall skip b b',
    replaceAll_from ic (Lit p) repl b skip s
    = replaceAll_from ic (Lit p) repl b' skip s.
Proof.
  intros N. destruct s as [|c s]; intros [|n] b b'; simpl; auto;
    rewrite !match_at_Lit by exact N; reflexivity.
Qed.

Lemma char_matches_plain (ic : bool) (c x : code_unit) :
  char_matches ic c x = true -> plain c = true -> plain x = true.
Proof.
  unfold char_matches, plain, Canonicalize. destruct ic; unfold_cu;
    split_cmp; done_cmp.
Qed.

Lemma char_matches_backtick (ic : bool) (x : code_unit) :
  char_matches ic BACKTICK x = true -> x = BACKTICK.
Proof.
  unfold char_matches, Canonicalize. destruct ic; unfold_cu;
    split_cmp; done_cmp.
Qed.

Lemma prefix_matches_plain (ic : bool) (p : jsstring) :
  Forall (fun c => plain c = true) p ->
  forall s, prefix_matches ic p s = true ->
    Forall (fun c => plain c = true) (firstn (List.length p) s)
    /\ List.length p <= List.length s.
Proof.
  induction 1 as [|c p P _ IH]; intros s M; simpl.
  - split; [constructor|lia].
  - destruct s as [|x s]; [discriminate|].
    simpl in M. apply andb_true_iff in M. destruct M as [M1 M2].
    destruct (IH _ M2) as [F L]. split; [|simpl; lia].
    constructor; auto. eapply char_matches_plain; eauto.
Qed.

(** ** A fence inside a JSON string *)

Lemma step_backtick (st st1 : JSON.state) :
  JSON.step st BACKTICK = Some st1 -> in_string st.
Proof.
  destruct st as [stk m t]. unfold JSON.step, in_string.
  cbn [JSON.stack JSON.md JSON.top]. intro E.
  destruct m; try (cbn in E; discriminate E).
  - destruct esc; [eauto| |]; cbn in E; discriminate E.
  - exfalso. destruct ns; cbn in E; try discriminate E;
      destruct (JSON.complete stk (JNumber (rev buf))) as [s1|]; cbn in E;
      discriminate E.
  - exfalso. destruct (nth_error (JSON.literal_text l) seen) as [x|] eqn:T;
      [|discriminate E].
    destruct (cu_eqb BACKTICK x) eqn:X; [|discriminate E].
    apply cu_eqb_eq in X. subst x.
    assert (L : In BACKTICK (JSON.literal_text l)) by (eapply nth_error_In; eauto).
    destruct l; simpl in L;
      repeat (destruct L as [L|L]; [discriminate L|]); destruct L.
Qed.

Lemma step_plain (st : JSON.state) (c : code_unit) :
  in_string st -> plain c = true ->
  exists st1, JSON.step st c = Some st1 /\ in_string st1 /\ same_shape st1 st.
Proof.
  destruct st as [stk m t]. intros (iskey & buf & M) P. simpl in M. subst m.
  unfold JSON.step. cbn [JSON.stack JSON.md JSON.top]. unfold JSON.step_string.
  unfold plain in P. apply andb_true_iff in P. destruct P as [P P3].
  apply andb_true_iff in P. destruct P as [P1 P2].
  apply negb_true_iff in P1, P2, P3. rewrite P1, P2, P3.
  eexists. split; [reflexivity|]. split.
  - exists iskey, (c :: buf). reflexivity.
  - reflexivity.
Qed.

Lemma same_shape_trans (a b c : JSON.state) :
  same_shape a b -> same_shape b c -> same_shape a c.
Proof. unfold same_shape. congruence. Qed.

(** Deleting a fence, which can only stand inside a string, leaves the
    parser in a state of the same shape. *)
Lemma strip_run (ic : bool) (p : jsstring) :
  Forall (fun c => plain c = true) (BACKTICK :: p) ->
  forall s b skip st st' stf,
    same_shape st st' ->
    (0 < skip -> in_string st
                 /\ Forall (fun c => plain c = true) (firstn skip s)
                 /\ skip <= List.length s) ->
    JSON.run st s = Some stf ->
    exists stf',
      JSON.run st' (replaceAll_from ic (Lit (BACKTICK :: p)) [] b skip s) = Some stf'
      /\ same_shape stf stf'.
Proof.
  intros Pl. induction s as [|c s IH]; intros b skip st st' stf Sh Sk R.
  - simpl in R. inversion R; subst stf. exists st'.
    destruct skip; cbn [replaceAll_from];
      [rewrite match_at_Lit by discriminate; cbn [prefix_matches]|];
      simpl; auto.
  - simpl in R. destruct (JSON.step st c) as [st1|] eqn:St; [|discriminate].
    destruct skip as [|n].
    + cbn [replaceAll_from]. rewrite match_at_Lit by discriminate.
      destruct (prefix_matches ic (BACKTICK :: p) (c :: s)) eqn:M.
      * destruct (prefix_matches_plain ic Pl _ M) as [F L].
        simpl in M. apply andb_true_iff in M. destruct M as [M _].
        apply char_matches_backtick in M. subst c.
        pose proof (step_backtick _ St) as I.
        destruct (step_plain BACKTICK I eq_refl) as (st2 & E2 & I2 & S2).
        rewrite St in E2. inversion E2; subst st2.
        simpl List.length. cbn [app]. simpl in F, L. inversion F; subst.
        apply IH with (st := st1) (stf := stf); auto.
        -- eapply same_shape_trans; eauto.
        -- intros _. split; [exact I2|]. split; [assumption|lia].
      * pose proof (step_shape c Sh) as C. rewrite St in C.
        unfold same_shape_opt in C.
        destruct (JSON.step st' c) as [st1'|] eqn:St'; [|discriminate].
        cbn [option_map] in C.
        assert (C0 : same_shape st1 st1') by (unfold same_shape; congruence).
        assert (Z0 : 0 < 0 -> in_string st1
                     /\ Forall (fun c => plain c = true) (firstn 0 s)
                     /\ 0 <= List.length s) by (intro; lia).
        destruct (IH false 0 st1 st1' stf C0 Z0 R) as (stf' & R' & S').
        exists stf'. split; [|exact S']. simpl. rewrite St'. exact R'.
    + cbn [replaceAll_from].
      destruct (Sk ltac:(lia)) as (I & F & L).
      simpl in F, L. inversion F; subst.
      destruct (step_plain c I H1) as (st2 & E2 & I2 & S2).
      rewrite St in E2. inversion E2; subst st2.
      apply IH with (st := st1) (stf := stf); auto.
      * eapply same_shape_trans; eauto.
      * intros _. split; [exact I2|]. split; [assumption|lia].
Qed.

Lemma strip_parse (ic : bool) (p s : jsstring) (l : list json) :
  Forall (fun c => plain c = true) (BACKTICK :: p) ->
  JSON.parse s = Some (JArray l) ->
  exists l', JSON.parse (replaceAll ic (Lit (BACKTICK :: p)) [] s) = Some (JArray l').
Proof.
  intros Pl H. unfold JSON.parse in H.
  destruct (JSON.run JSON.initial s) as [stf|] eqn:R; [|discriminate].
  destruct (@strip_run ic p Pl s true 0 JSON.initial JSON.initial stf)
    as (stf' & R' & S'); auto; [reflexivity|intro; lia|].
  pose proof (finalize_shape S') as F. rewrite H in F. simpl in F.
  unfold JSON.parse, replaceAll. rewrite R'.
  destruct (JSON.finalize stf') as [v|]; [|discriminate].
  simpl in F. destruct v; try discriminate. eauto.
Qed.

Lemma cleanText_valid (s : jsstring) (l : list json) :
  JSON_parse s = Some (JArray l) ->
  exists l', AiService.extractJSON (AiService.cleanText s) = Some l'.
Proof.
  intro H. unfold JSON_parse in H.
  assert (P1 : Forall (fun c => plain c = true) (BACKTICK :: lit "``json"))
    by (repeat constructor).
  assert (P2 : Forall (fun c => plain c = true) (BACKTICK :: lit "``"))
    by (repeat constructor).
  destruct (@strip_parse true _ _ _ P1 H) as (l1 & H1).
  destruct (@strip_parse false _ _ _ P2 H1) as (l2 & H2).
  exists l2. unfold AiService.cleanText. apply extractJSON_valid. exact H2.
Qed.

(** ** Fences around a text *)

Lemma prefix_matches_barrier (ic : bool) (p : jsstring) (c : code_unit)
  (rest : jsstring) :
  matches_none ic p c = true ->
  forall a, prefix_matches ic p (a ++ c :: rest) = prefix_matches ic p a.
Proof.
  induction p as [|x p IH]; intros N a; [reflexivity|].
  simpl in N. apply andb_true_iff in N. destruct N as [N1 N2].
  apply negb_true_iff in N1. destruct a as [|y a]; simpl.
  - rewrite N1. reflexivity.
  - rewrite IH by exact N2. reflexivity.
Qed.

Lemma prefix_matches_length (ic : bool) (p s : jsstring) :
  prefix_matches ic p s = true -> List.length p <= List.length s.
Proof.
  revert s. induction p as [|x p IH]; intros s H; simpl; [lia|].
  destruct s as [|y s]; [discriminate|]. simpl in H.
  apply andb_true_iff in H. destruct H as [_ H]. apply IH in H. simpl. lia.
Qed.

Lemma replaceAll_from_barrier (ic : bool) (x : code_unit) (p : jsstring)
  (c : code_unit) (rest : jsstring) :
  matches_none ic (x :: p) c = true ->
  forall a skip b, skip <= List.length a ->
    replaceAll_from ic (Lit (x :: p)) [] b skip (a ++ c :: rest)
    = replaceAll_from ic (Lit (x :: p)) [] b skip a
      ++ c :: replaceAll_from ic (Lit (x :: p)) [] false 0 rest.
Proof.
  intros N. induction a as [|y a IH]; intros skip b L.
  - simpl in L. assert (skip = 0) by lia. subst skip.
    cbn [app replaceAll_from]. rewrite !match_at_Lit by discriminate.
    pose proof (prefix_matches_barrier ic (x :: p) c rest N []) as B.
    cbn [app] in B. rewrite B. reflexivity.
  - destruct skip as [|n].
    + cbn [app replaceAll_from]. rewrite !match_at_Lit by discriminate.
      pose proof (prefix_matches_barrier ic (x :: p) c rest N (y :: a)) as B.
      cbn [app] in B. rewrite B. clear B.
      destruct (prefix_matches ic (x :: p) (y :: a)) eqn:M.
      * apply prefix_matches_length in M. simpl in M.
        simpl List.length. cbn [app]. apply IH. lia.
      * simpl. f_equal. apply IH. lia.
    + cbn [app replaceAll_from]. apply IH. simpl in L. lia.
Qed.

Lemma replaceAll_from_ws (ic : bool) (x : code_unit) (p : jsstring) (w : jsstring) :
  Forall (fun c => matches_none ic (x :: p) c = true) w ->
  forall b rest,
    replaceAll_from ic (Lit (x :: p)) [] b 0 (w ++ rest)
    = w ++ replaceAll_from ic (Lit (x :: p)) [] false 0 rest.
Proof.
  induction 1 as [|c w N _ IH]; intros b rest.
  - apply replaceAll_from_Lit_start. discriminate.
  - cbn [app replaceAll_from]. rewrite match_at_Lit by discriminate.
    simpl in N. apply andb_true_iff in N. destruct N as [N _].
    apply negb_true_iff in N. cbn [prefix_matches]. rewrite N. cbn [andb].
    f_equal. apply IH.
Qed.

Lemma ws_char_matches (ic : bool) (x c : code_unit) :
  isWhiteSpace c = true -> isWhiteSpace (Canonicalize x) = false ->
  isWhiteSpace x = false -> char_matches ic x c = false.
Proof.
  intros W C X. unfold char_matches. destruct ic.
  - assert (E : Canonicalize c = c).
    { unfold Canonicalize.
      destruct ((97 <=? c)%N && (c <=? 122)%N) eqn:L; [|reflexivity].
      exfalso. unfold isWhiteSpace in W. to_prop. lia. }
    rewrite E. apply cu_eqb_neq. intro K. congruence.
  - apply cu_eqb_neq. intro K. congruence.
Qed.

Lemma ws_matches_none (c : code_unit) :
  isWhiteSpace c = true ->
  matches_none true (lit "```json") c = true
  /\ matches_none false (lit "```") c = true.
Proof.
  intro W. unfold matches_none.
  split; cbn [lit list_ascii_of_string List.map forallb];
    rewrite !ws_char_matches by (exact W || reflexivity); reflexivity.
Qed.

Lemma trimStart_ws_app (w s : jsstring) :
  whitespace w -> trimStart (w ++ s) = trimStart s.
Proof.
  induction 1 as [|c w W _ IH]; simpl; auto. rewrite W. exact IH.
Qed.

Lemma trimStart_all_ws (w : jsstring) : whitespace w -> trimStart w = [].
Proof.
  intro H. rewrite <- (app_nil_r w). rewrite trimStart_ws_app by exact H.
  reflexivity.
Qed.

Lemma trimEnd_app_ws (s w : jsstring) :
  whitespace w -> trimEnd (s ++ w) = trimEnd s.
Proof.
  intro H. unfold trimEnd. rewrite rev_app_distr.
  rewrite trimStart_ws_app; [reflexivity|]. apply Forall_rev. exact H.
Qed.

Lemma trim_padded (w1 s w2 : jsstring) :
  whitespace w1 -> whitespace w2 -> trim (w1 ++ s ++ w2) = trim s.
Proof.
  intros H1 H2. unfold trim. rewrite trimStart_ws_app by exact H1.
  induction s as [|c s IH]; simpl.
  - rewrite trimStart_all_ws by exact H2. reflexivity.
  - destruct (isWhiteSpace c); [exact IH|].
    apply (trimEnd_app_ws (c :: s) H2).
Qed.

(** The last code unit of the text of a JSON array is its closing bracket
    or white space; neither is part of a fence. *)
Lemma array_text_last (s : jsstring) (l : list json) :
  JSON_parse s = Some (JArray l) ->
  exists s0 c, s = s0 ++ [c]
               /\ matches_none true (lit "```json") c = true
               /\ matches_none false (lit "```") c = true.
Proof.
  intro H. destruct s as [|x s]; [discriminate|].
  destruct (@exists_last _ (x :: s)) as (s0 & c & E); [discriminate|].
  exists s0, c. split; [exact E|].
  destruct (isWhiteSpace c) eqn:W.
  - apply ws_matches_none. exact W.
  - rewrite E in H. apply parse_array_last in H; auto. subst c.
    split; reflexivity.
Qed.

Lemma replaceAll_from_last (ic : bool) (x : code_unit) (p : jsstring)
  (s0 : jsstring) (c : code_unit) (b : bool) :
  matches_none ic (x :: p) c = true ->
  replaceAll_from ic (Lit (x :: p)) [] b 0 (s0 ++ [c])
  = replaceAll_from ic (Lit (x :: p)) [] false 0 s0 ++ [c].
Proof.
  intro N. rewrite (@replaceAll_from_barrier ic x p c [] N s0 0 b) by lia.
  rewrite (@replaceAll_from_Lit_start ic (x :: p) [] s0 ltac:(discriminate) 0 b false).
  cbn [replaceAll_from]. rewrite match_at_Lit by discriminate. reflexivity.
Qed.

Lemma replaceAll_from_padded (ic : bool) (x : code_unit) (p : jsstring)
  (w1 s0 : jsstring) (c : code_unit) (w2 tail : jsstring) :
  Forall (fun a => matches_none ic (x :: p) a = true) w1 ->
  Forall (fun a => matches_none ic (x :: p) a = true) w2 ->
  matches_none ic (x :: p) c = true ->
  replaceAll_from ic (Lit (x :: p)) [] false 0 (w1 ++ (s0 ++ [c]) ++ w2 ++ tail)
  = w1 ++ replaceAll_from ic (Lit (x :: p)) [] false 0 (s0 ++ [c])
       ++ w2 ++ replaceAll_from ic (Lit (x :: p)) [] false 0 tail.
Proof.
  intros W1 W2 N. rewrite replaceAll_from_ws by exact W1. f_equal.
  rewrite replaceAll_from_last by exact N.
  rewrite <- !app_assoc. cbn [app].
  rewrite (@replaceAll_from_barrier ic x p c (w2 ++ tail) N s0 0 false) by lia.
  rewrite replaceAll_from_ws by exact W2. reflexivity.
Qed.

Lemma strip_opening_fence (rest : jsstring) :
  replaceAll_from true AiService.re_fence_json [] true 0 (lit "```json" ++ rest)
  = replaceAll_from true AiService.re_fence_json [] false 0 rest.
Proof. reflexivity. Qed.

Lemma cleanText_fenced (w1 s w2 : jsstring) (l : list json) :
  JSON_parse s = Some (JArray l) -> whitespace w1 -> whitespace w2 ->
  AiService.cleanText (fenced w1 s w2) = AiService.cleanText s.
Proof.
  intros H W1 W2. destruct (array_text_last _ H) as (s0 & c & E & N1 & N3).
  subst s. clear H.
  assert (M1 : forall w, whitespace w ->
             Forall (fun c => matches_none true (BACKTICK :: lit "``json") c = true) w).
  { intros w Hw. eapply Forall_impl; [|exact Hw].
    intros a Ha. apply ws_matches_none. exact Ha. }
  assert (M3 : forall w, whitespace w ->
             Forall (fun c => matches_none false (BACKTICK :: lit "``") c = true) w).
  { intros w Hw. eapply Forall_impl; [|exact Hw].
    intros a Ha. apply ws_matches_none. exact Ha. }
  unfold AiService.cleanText, fenced, replaceAll.
  rewrite strip_opening_fence.
  unfold AiService.re_fence_json, AiService.re_fence.
  change (lit "```json") with (BACKTICK :: lit "``json") in *.
  change (lit "```") with (BACKTICK :: lit "``") in *.
  rewrite (@replaceAll_from_padded true BACKTICK (lit "``json") w1 s0 c w2
             (BACKTICK :: lit "``") (M1 _ W1) (M1 _ W2) N1).
  change (replaceAll_from true (Lit (BACKTICK :: lit "``json")) [] false 0
            (BACKTICK :: lit "``")) with (BACKTICK :: lit "``").
  rewrite (@replaceAll_from_Lit_start true (BACKTICK :: lit "``json") []
             (s0 ++ [c]) ltac:(discriminate) 0 true false).
  rewrite replaceAll_from_last by exact N1.
  rewrite (@replaceAll_from_Lit_start false (BACKTICK :: lit "``") []
             _ ltac:(discriminate) 0 true false).
  rewrite (@replaceAll_from_padded false BACKTICK (lit "``") w1 _ c w2
             (BACKTICK :: lit "``") (M3 _ W1) (M3 _ W2) N3).
  change (replaceAll_from false (Lit (BACKTICK :: lit "``")) [] false 0
            (BACKTICK :: lit "``")) with (@nil code_unit).
  rewrite app_nil_r.
  rewrite (@replaceAll_from_Lit_start false (BACKTICK :: lit "``") []
             _ ltac:(discriminate) 0 true false).
  apply trim_padded; assumption.
Qed.

Lemma fenced_normalises_alike (w1 s w2 : jsstring) (l : list json) :
  JSON_parse s = Some (JArray l) -> whitespace w1 -> whitespace w2 ->
  AiService.cleanAndParseJSON (fenced w1 s w2) = AiService.cleanAndParseJSON s.
Proof.
  intros H W1 W2. unfold AiService.cleanAndParseJSON.
  rewrite (@cleanText_fenced w1 s w2 l H W1 W2).
  destruct (@cleanText_valid s l H) as (l' & E). rewrite E. reflexivity.
Qed.

(** C7.  A text that is a valid JSON array, put between a [```json] fence
    and a [```] fence (directly, or with white space such as a line break
    inside the fences), is normalised to the same sequence as the text
    alone. *)
Theorem cleanAndParseJSON_fenced (w1 s w2 : jsstring) (l : list json) :
  JSON_parse s = Some (JArray l) -> whitespace w1 -> whitespace w2 ->
  AiService.cleanAndParseJSON (fenced w1 s w2) = AiService.cleanAndParseJSON s.
Proof. exact (@fenced_normalises_alike w1 s w2 l). Qed.

Lemma cleanAndParseJSON_fenced_witness :
  JSON_parse abc_array = Some (JArray [JString (lit "a"); JString (lit "b"); JString (lit "c")])
  /\ whitespace [LF] /\ whitespace [LF]
  /\ AiService.cleanAndParseJSON (fenced [LF] abc_array [LF])
     = AiService.cleanAndParseJSON abc_array.
Proof.
  assert (H : JSON_parse abc_array
              = Some (JArray [JString (lit "a"); JString (lit "b"); JString (lit "c")]))
    by reflexivity.
  assert (W : whitespace [LF]) by (repeat constructor).
  split; [exact H|]. split; [exact W|]. split; [exact W|].
  exact (@cleanAndParseJSON_fenced [LF] abc_array [LF] _ H W W).
Defined.

(** The same with nothing between the fences and the text. *)
Corollary fenced_tight_normalises_alike (s : jsstring) (l : list json) :
  JSON_parse s = Some (JArray l) ->
  AiService.cleanAndParseJSON (lit "```json" ++ s ++ lit "```")
  = AiService.cleanAndParseJSON s.
Proof.
  intro H.
  exact (@fenced_normalises_alike [] s [] l H (Forall_nil _) (Forall_nil _)).
Qed.

(** ** A text without any structure *)

Lemma extractJSON_no_bracket (cleaned : jsstring) :
  ~ In LBRACKET cleaned -> AiService.extractJSON cleaned = None.
Proof.
  intro N. unfold AiService.extractJSON, indexOf.
  rewrite indexOf_from_absent by exact N.
  change (-1 =? -1)%Z with true. cbn [negb andb].
  unfold AiService.parseRepaired.
  destruct (JSON_parse _) as [[]|] eqn:P; auto.
  exfalso. apply parse_array_In in P. apply replaceAll_incl in P.
  destruct P as [P|P]; [auto|].
  simpl in P. destruct P as [P|[P|[]]]; discriminate P.
Qed.

(** C8, as the code has it.  A text with no bracket, no quoted-list
    pattern once cleaned, no list marker after a line break and no blank
    line comes back as the sole element, unchanged: it is not trimmed. *)
Theorem cleanAndParseJSON_plain_text (text : jsstring) :
  ~ In LBRACKET text -> ~ In RBRACKET text ->
  includes [DQUOTE; COMMA; SP; DQUOTE] (AiService.cleanText text) = false ->
  startsWith [DQUOTE] (AiService.cleanText text) = false ->
  exec true AiService.re_list_marker text = None ->
  includes [LF; LF] text = false ->
  AiService.cleanAndParseJSON text = [JString text].
Proof.
  intros B1 _ Q1 Q2 M P. unfold AiService.cleanAndParseJSON.
  rewrite extractJSON_no_bracket
    by (intro K; apply B1; apply cleanText_incl; exact K).
  rewrite Q1, Q2. cbn [orb andb].
  unfold AiService.validItemsOf. rewrite (@exec_none_split _ _ _ M).
  change (List.map trim [text]) with [trim text].
  rewrite length_map_filter_singleton.
  unfold AiService.paragraphsOf.
  rewrite (@exec_none_split _ _ _ (@no_blank_line_exec _ P true)).
  rewrite length_filter_map_singleton. reflexivity.
Qed.

Lemma cleanAndParseJSON_plain_text_witness :
  AiService.cleanAndParseJSON (lit "  hello world  ")
  = [JString (lit "  hello world  ")].
Proof.
  apply cleanAndParseJSON_plain_text; try reflexivity;
    intro H; simpl in H;
    repeat (destruct H as [H|H]; [discriminate H|]); exact H.
Defined.

(** ** Patterns without the start anchor *)

Lemma star_greedy_bol_free (ic : bool) (p : code_unit -> bool) (s : jsstring) :
  forall b b' n (k k' : cont),
    (forall b1 b2 n s, k b1 n s = k' b2 n s) ->
    star_greedy p b n s k = star_greedy p b' n s k'.
Proof.
  induction s as [|c s IH]; intros b b' n k k' H; simpl.
  - apply H.
  - destruct (p c); [|apply H].
    rewrite (IH false false (S n) k k' H). rewrite (H b b' n (c :: s)).
    reflexivity.
Qed.

Lemma star_lazy_bol_free (ic : bool) (p : code_unit -> bool) (s : jsstring) :
  forall b b' n (k k' : cont),
    (forall b1 b2 n s, k b1 n s = k' b2 n s) ->
    star_lazy p b n s k = star_lazy p b' n s k'.
Proof.
  induction s as [|c s IH]; intros b b' n k k' H; simpl.
  - rewrite (H b b' n []). reflexivity.
  - rewrite (H b b' n (c :: s)). destruct (k' b' n (c :: s)); [reflexivity|].
    destruct (p c); [|reflexivity]. apply IH. exact H.
Qed.

Lemma rmatch_bol_free (ic : bool) (r : regex) :
  bol_free r = true ->
  forall b b' n s (k k' : cont),
    (forall b1 b2 n s, k b1 n s = k' b2 n s) ->
    rmatch ic r b n s k = rmatch ic r b' n s k'.
Proof.
  induction r as [|c|p|r1 IH1 r2 IH2|r1 IH1 r2 IH2|p|p| | |r IH];
    intros F b b' n s k k' H; simpl in F; cbn [rmatch].
  - apply H.
  - destruct s as [|x s]; [reflexivity|].
    destruct (char_matches ic c x); [apply H|reflexivity].
  - destruct s as [|x s]; [reflexivity|]. destruct (p x); [apply H|reflexivity].
  - apply andb_true_iff in F. destruct F as [F1 F2].
    apply IH1; [exact F1|]. intros. apply IH2; [exact F2|exact H].
  - apply andb_true_iff in F. destruct F as [F1 F2].
    rewrite (IH1 F1 b b' n s k k' H), (IH2 F2 b b' n s k k' H). reflexivity.
  - apply (star_greedy_bol_free ic). exact H.
  - apply (star_lazy_bol_free ic). exact H.
  - discriminate F.
  - destruct s; [apply H|reflexivity].
  - rewrite (IH F b b' n s (fun _ n' _ => Some n') (fun _ n' _ => Some n'))
      by reflexivity.
    rewrite (H b b' n s). reflexivity.
Qed.

Lemma match_at_bol_free (ic : bool) (r : regex) (b b' : bool) (s : jsstring) :
  bol_free r = true -> match_at ic r b s = match_at ic r b' s.
Proof. intro F. unfold match_at. apply rmatch_bol_free; auto. Qed.

Lemma split_from_bol_free (ic : bool) (r : regex) (b b' : bool) (skip : nat)
  (cur s : jsstring) :
  bol_free r = true ->
  split_from ic r b skip cur s = split_from ic r b' skip cur s.
Proof.
  intro F. destruct s as [|c s]; [reflexivity|]. destruct skip; simpl; auto.
  rewrite (match_at_bol_free ic r b b' (c :: s) F). reflexivity.
Qed.

Lemma split_from_skip (ic : bool) (r : regex) (a : jsstring) :
  bol_free r = true ->
  forall b cur s,
    split_from ic r b (List.length a) cur (a ++ s) = split_from ic r false 0 cur s.
Proof.
  intro F. induction a as [|x a IH]; intros b cur s.
  - apply split_from_bol_free. exact F.
  - simpl. apply IH.
Qed.


(** ** The list-marker pattern *)

Lemma star_greedy_stop (p : code_unit -> bool) (b : bool) (n : nat)
  (c : code_unit) (s : jsstring) (k : cont) :
  p c = false -> star_greedy p b n (c :: s) k = k b n (c :: s).
Proof. intro H. simpl. rewrite H. reflexivity. Qed.

Lemma star_greedy_run (p : code_unit -> bool) (ds : jsstring) (c : code_unit)
  (s : jsstring) (k : cont) (r : nat) :
  Forall (fun d => p d = true) ds -> p c = false ->
  forall n, k false (S n + List.length ds) (c :: s) = Some r ->
    star_greedy p false (S n) (ds ++ c :: s) k = Some r.
Proof.
  induction 1 as [|d ds D _ IH]; intros C n K.
  - cbn [app]. simpl in K. rewrite Nat.add_0_r in K.
    rewrite star_greedy_stop by exact C. exact K.
  - cbn [app star_greedy]. rewrite D.
    rewrite (IH C (S n)); [reflexivity|].
    simpl in K. rewrite Nat.add_succ_r in K. exact K.
Qed.

Lemma digit_not_ws (d : code_unit) : isDigit d = true -> isWhiteSpace d = false.
Proof.
  intro D. destruct (isWhiteSpace d) eqn:W; [|reflexivity].
  exfalso. unfold isDigit, isWhiteSpace in *. to_prop. lia.
Qed.

Lemma char_matches_control (k c : code_unit) :
  (k < 65)%N -> char_matches true k c = cu_eqb k c.
Proof.
  intro K. unfold char_matches, Canonicalize, cu_eqb.
  destruct ((97 <=? k)%N && (k <=? 122)%N) eqn:L1; [to_prop; lia|].
  destruct ((97 <=? c)%N && (c <=? 122)%N) eqn:L2; [|reflexivity].
  destruct (N.eqb_spec k c); to_prop; lia.
Qed.

Lemma line_break_not_at (b : bool) (n : nat) (c : code_unit) (s : jsstring)
  (k : cont) :
  c <> LF -> c <> CR -> rmatch true AiService.re_line_break b n (c :: s) k = None.
Proof.
  intros N1 N2. unfold AiService.re_line_break. cbn [rmatch].
  rewrite !char_matches_control by (unfold CR, LF; lia).
  assert (E1 : cu_eqb CR c = false) by (apply cu_eqb_neq; congruence).
  assert (E2 : cu_eqb LF c = false) by (apply cu_eqb_neq; congruence).
  rewrite E1, E2. reflexivity.
Qed.

Lemma list_marker_not_at (b : bool) (c : code_unit) (s : jsstring) :
  c <> LF -> c <> CR -> match_at true AiService.re_list_marker b (c :: s) = None.
Proof.
  intros N1 N2. unfold match_at, AiService.re_list_marker. cbn [rmatch].
  apply line_break_not_at; assumption.
Qed.

Lemma ws_not_digit (c : code_unit) : isWhiteSpace c = true -> isDigit c = false.
Proof.
  intro W. destruct (isDigit c) eqn:D; [|reflexivity].
  apply digit_not_ws in D. congruence.
Qed.

(** Under the [i] flag a code unit that is not white space matches none
    that is. *)
Lemma char_matches_ws (k c : code_unit) :
  isWhiteSpace k = false -> isWhiteSpace c = true -> char_matches true k c = false.
Proof.
  intros Wk Wc. destruct (char_matches true k c) eqn:E; [|reflexivity].
  exfalso. unfold char_matches, Canonicalize, cu_eqb in E.
  destruct ((97 <=? k)%N && (k <=? 122)%N) eqn:Lk;
    destruct ((97 <=? c)%N && (c <=? 122)%N) eqn:Lc;
    apply N.eqb_eq in E; unfold isWhiteSpace in Wk, Wc; to_prop; lia.
Qed.

(** Under the [i] flag a capital letter matches itself and its small
    form. *)
Lemma char_matches_capital (x c : code_unit) :
  (65 <= x <= 90)%N -> char_matches true x c = true -> c = x \/ c = (x + 32)%N.
Proof.
  intros R M. unfold char_matches, Canonicalize, cu_eqb in M.
  destruct ((97 <=? x)%N && (x <=? 122)%N) eqn:Lx;
    destruct ((97 <=? c)%N && (c <=? 122)%N) eqn:Lc;
    apply N.eqb_eq in M; to_prop; lia.
Qed.

Lemma spelled_app (p w t : jsstring) :
  spelled p w ->
  prefix_matches true p (w ++ t) = true /\ skipn (List.length p) (w ++ t) = t.
Proof.
  intros [L M]. split.
  - clear L. revert w M. induction p as [|x p IH]; intros w M; [reflexivity|].
    destruct w as [|c w]; [discriminate M|].
    cbn [prefix_matches app] in *. apply andb_true_iff in M. destruct M as [M1 M2].
    rewrite M1. cbn [andb]. apply IH. exact M2.
  - rewrite <- L. clear. induction w as [|c w IH]; simpl; auto.
Qed.

(** What a marker starts with: no white space, and for [Option] and
    [Variation] the letter, in either case. *)
Lemma marker_head (m : jsstring) :
  marker m -> exists c r, m = c :: r /\ isWhiteSpace c = false.
Proof.
  intros [ds p Hn Hd Hp| | | |w ds [L M] Hn Hd|w ds [L M] Hn Hd].
  - destruct ds as [|d0 ds]; [contradiction|]. inversion Hd; subst.
    exists d0, (ds ++ [p]). split; [reflexivity|]. apply digit_not_ws. assumption.
  - exists MINUS, []. split; reflexivity.
  - exists STAR, []. split; reflexivity.
  - exists BULLET, []. split; reflexivity.
  - destruct w as [|c w]; [discriminate L|]. exists c, (w ++ ds).
    split; [reflexivity|]. cbn [prefix_matches] in M.
    apply andb_true_iff in M. destruct M as [M _].
    apply (@char_matches_capital 79%N c) in M; [|lia].
    destruct M; subst c; reflexivity.
  - destruct w as [|c w]; [discriminate L|]. exists c, (w ++ ds).
    split; [reflexivity|]. cbn [prefix_matches] in M.
    apply andb_true_iff in M. destruct M as [M _].
    apply (@char_matches_capital 86%N c) in M; [|lia].
    destruct M; subst c; reflexivity.
Qed.

(** A number and what follows it: the digits are all taken. *)
Lemma digits_at (ds : jsstring) (b : bool) (n : nat) (c : code_unit)
  (s : jsstring) (k : cont) (r : nat) :
  ds <> [] -> Forall (fun d => isDigit d = true) ds -> isDigit c = false ->
  k false (n + List.length ds) (c :: s) = Some r ->
  rmatch true (Plus isDigit) b n (ds ++ c :: s) k = Some r.
Proof.
  intros Hn Hd C K. destruct ds as [|d0 ds]; [contradiction|].
  inversion Hd as [|? ? D0 Dr]; subst.
  unfold Plus. cbn [rmatch app]. rewrite D0.
  apply star_greedy_run; [exact Dr|exact C|].
  rewrite <- K. f_equal. simpl. lia.
Qed.

(** The alternatives for a word and a number, on a text that starts with
    a letter of the word. *)
Lemma worded_marker_at (c : code_unit) (s : jsstring) (b : bool) (n : nat) (k : cont) :
  c = 79%N \/ c = 111%N \/ c = 86%N \/ c = 118%N ->
  rmatch true AiService.re_marker b n (c :: s) k
  = match rmatch true (Seq (Lit (lit "Option ")) (Plus isDigit)) b n (c :: s) k with
    | Some r => Some r
    | None => rmatch true (Seq (Lit (lit "Variation ")) (Plus isDigit)) b n (c :: s) k
    end.
Proof.
  intros [E|[E|[E|E]]]; subst c; reflexivity.
Qed.

Lemma marker_at (m : jsstring) (b : bool) (n : nat) (c : code_unit)
  (s : jsstring) (k : cont) (r : nat) :
  marker m -> isDigit c = false ->
  k false (n + List.length m) (c :: s) = Some r ->
  rmatch true AiService.re_marker b n (m ++ c :: s) k = Some r.
Proof.
  intros M C K.
  destruct M as [ds p Hn Hd Hp| | | |w ds Sp Hn Hd|w ds Sp Hn Hd].
  - unfold AiService.re_marker.
    destruct ds as [|d0 ds]; [contradiction|]. inversion Hd as [|? ? D0 Dr]; subst.
    cbn [rmatch]. unfold Plus. cbn [rmatch]. rewrite <- app_assoc. cbn [app].
    rewrite D0.
    erewrite star_greedy_run; [reflexivity|exact Dr| |].
    + destruct Hp; subst p; reflexivity.
    + assert (P : (cu_eqb p DOT || cu_eqb p RPAREN) = true)
        by (destruct Hp; subst p; reflexivity).
      rewrite P. rewrite <- K. f_equal.
      rewrite length_app. simpl. lia.
  - simpl in K. rewrite Nat.add_1_r in K. cbn. rewrite K. reflexivity.
  - simpl in K. rewrite Nat.add_1_r in K. cbn. rewrite K. reflexivity.
  - simpl in K. rewrite Nat.add_1_r in K. cbn. rewrite K. reflexivity.
  - pose proof Sp as [L P]. destruct w as [|x w]; [discriminate L|].
    assert (X : x = 79%N \/ x = 111%N).
    { cbn [prefix_matches] in P. apply andb_true_iff in P. destruct P as [P _].
      apply (@char_matches_capital 79%N x) in P; [exact P|lia]. }
    rewrite <- app_assoc. cbn [app].
    rewrite worded_marker_at by tauto.
    change (x :: w ++ ds ++ c :: s) with ((x :: w) ++ ds ++ c :: s).
    cbn [rmatch]. rewrite rmatch_Lit by discriminate.
    destruct (@spelled_app _ _ (ds ++ c :: s) Sp) as [P1 P2]. rewrite P1, P2.
    erewrite digits_at; [reflexivity|exact Hn|exact Hd|exact C|].
    rewrite <- K. f_equal. rewrite length_app. rewrite L. lia.
  - pose proof Sp as [L P]. destruct w as [|x w]; [discriminate L|].
    assert (X : x = 86%N \/ x = 118%N).
    { cbn [prefix_matches] in P. apply andb_true_iff in P. destruct P as [P _].
      apply (@char_matches_capital 86%N x) in P; [exact P|lia]. }
    rewrite <- app_assoc. cbn [app].
    rewrite worded_marker_at by tauto.
    assert (O : rmatch true (Seq (Lit (lit "Option ")) (Plus isDigit)) b n
                  (x :: w ++ ds ++ c :: s) k = None).
    { cbn [rmatch]. rewrite rmatch_Lit by discriminate.
      destruct X; subst x; reflexivity. }
    rewrite O.
    change (x :: w ++ ds ++ c :: s) with ((x :: w) ++ ds ++ c :: s).
    cbn [rmatch]. rewrite rmatch_Lit by discriminate.
    destruct (@spelled_app _ _ (ds ++ c :: s) Sp) as [P1 P2]. rewrite P1, P2.
    erewrite digits_at; [reflexivity|exact Hn|exact Hd|exact C|].
    rewrite <- K. f_equal. rewrite length_app. rewrite L. lia.
Qed.

(** No marker starts with white space, and none is empty. *)
Lemma marker_not_at_ws (b : bool) (n : nat) (c : code_unit) (s : jsstring) (k : cont) :
  isWhiteSpace c = true -> rmatch true AiService.re_marker b n (c :: s) k = None.
Proof.
  intro W. unfold AiService.re_marker, Plus. cbn [rmatch].
  rewrite (@ws_not_digit _ W).
  rewrite !rmatch_Lit by discriminate.
  change (prefix_matches true (lit "Option ") (c :: s))
    with (char_matches true 79%N c && prefix_matches true (lit "ption ") s).
  change (prefix_matches true (lit "Variation ") (c :: s))
    with (char_matches true 86%N c && prefix_matches true (lit "ariation ") s).
  rewrite !(@char_matches_ws _ c) by (reflexivity || exact W).
  reflexivity.
Qed.

Lemma marker_not_at_end (b : bool) (n : nat) (k : cont) :
  rmatch true AiService.re_marker b n [] k = None.
Proof. reflexivity. Qed.

Lemma after_break_ws (w : jsstring) (k : cont) :
  whitespace w -> forall b n, after_break k b n w = None.
Proof.
  unfold after_break. cbn [rmatch].
  induction 1 as [|c w W _ IH]; intros b n.
  - reflexivity.
  - cbn [star_greedy]. rewrite W, IH. apply marker_not_at_ws. exact W.
Qed.

Lemma after_break_at (indent m gap : jsstring) (i0 : code_unit) (rest : jsstring) :
  whitespace indent -> marker m -> gap <> [] -> whitespace gap ->
  isWhiteSpace i0 = false ->
  forall b n,
    after_break (fun _ n' _ => Some n') b n (indent ++ m ++ gap ++ i0 :: rest)
    = Some (n + List.length indent + List.length m + List.length gap).
Proof.
  intros Wi M Gn Wg W0. unfold after_break. cbn [rmatch].
  destruct gap as [|g0 gap]; [contradiction|].
  assert (G0 : isWhiteSpace g0 = true) by (inversion Wg; assumption).
  assert (Gr : whitespace gap) by (inversion Wg; assumption).
  clear Wg Gn.
  induction Wi as [|x indent X _ IH]; intros b n.
  - cbn [app]. destruct (marker_head M) as (c & r & E & Wc).
    rewrite E at 1. cbn [app]. rewrite star_greedy_stop by exact Wc.
    change (c :: r ++ g0 :: gap ++ i0 :: rest)
      with ((c :: r) ++ g0 :: gap ++ i0 :: rest).
    rewrite <- E.
    apply marker_at; [exact M|apply ws_not_digit; exact G0|].
    unfold Plus. cbn [rmatch]. rewrite G0.
    apply star_greedy_run; [exact Gr|exact W0|].
    f_equal. simpl. lia.
  - cbn [app star_greedy]. rewrite X. rewrite IH. f_equal. simpl. lia.
Qed.

(** The anchored match of the whole pattern: on white space there is
    none; on a line break, an indentation, a marker and a gap it takes
    them all. *)
Lemma list_marker_unfold (b : bool) (c : code_unit) (s : jsstring) :
  match_at true AiService.re_list_marker b (c :: s)
  = match (if char_matches true CR c
           then match s with
                | x :: s' => if char_matches true LF x
                             then after_break (fun _ n' _ => Some n') false 2 s'
                             else None
                | [] => None
                end
           else None) with
    | Some r => Some r
    | None =>
        match (if char_matches true CR c
               then after_break (fun _ n' _ => Some n') false 1 s else None) with
        | Some r => Some r
        | None => if char_matches true LF c
                  then after_break (fun _ n' _ => Some n') false 1 s else None
        end
    end.
Proof. reflexivity. Qed.

Lemma list_marker_not_at_ws (b : bool) (w : jsstring) :
  whitespace w -> match_at true AiService.re_list_marker b w = None.
Proof.
  intro W. destruct w as [|c w]; [reflexivity|].
  rewrite list_marker_unfold. inversion W as [|? ? _ Wr]; subst.
  rewrite (@after_break_ws w _ Wr).
  destruct w as [|x w].
  - destruct (char_matches true CR c), (char_matches true LF c); reflexivity.
  - inversion Wr as [|? ? _ Wr']; subst. rewrite (@after_break_ws w _ Wr').
    destruct (char_matches true CR c), (char_matches true LF x),
      (char_matches true LF c); reflexivity.
Qed.

Lemma list_marker_at (b : bool) (b0 : code_unit) (indent m gap : jsstring)
  (i0 : code_unit) (rest : jsstring) :
  b0 = LF \/ b0 = CR ->
  whitespace indent -> marker m -> gap <> [] -> whitespace gap ->
  isWhiteSpace i0 = false ->
  match_at true AiService.re_list_marker b (b0 :: indent ++ m ++ gap ++ i0 :: rest)
  = Some (S (List.length indent + List.length m + List.length gap)).
Proof.
  intros B Wi M Gn Wg W0. rewrite list_marker_unfold.
  rewrite (@after_break_at indent m gap i0 rest Wi M Gn Wg W0).
  destruct B; subst b0.
  - change (char_matches true CR LF) with false.
    change (char_matches true LF LF) with true. cbv iota. reflexivity.
  - change (char_matches true CR CR) with true. cbv iota.
    destruct (indent ++ m ++ gap ++ i0 :: rest) as [|x s'] eqn:E; [reflexivity|].
    destruct (char_matches true LF x) eqn:X; [|reflexivity].
    rewrite char_matches_control in X by (unfold LF; lia).
    apply cu_eqb_eq in X. subst x.
    destruct indent as [|y indent'].
    + exfalso. cbn [app] in E. destruct (marker_head M) as (c & r & Em & Wc).
      rewrite Em in E. inversion E; subst c. discriminate Wc.
    + cbn [app] in E. inversion E; subst y s'. inversion Wi as [|? ? _ Wi']; subst.
      rewrite (@after_break_at indent' m gap i0 rest Wi' M Gn Wg W0).
      reflexivity.
Qed.
(** ** A list of items behind a preamble *)

Lemma split_line_free (x : jsstring) :
  line_free x ->
  forall b cur s,
    split_from true AiService.re_list_marker b 0 cur (x ++ s)
    = split_from true AiService.re_list_marker false 0 (rev x ++ cur) s.
Proof.
  induction 1 as [|c x [N1 N2] _ IH]; intros b cur s.
  - apply split_from_bol_free. reflexivity.
  - cbn [app split_from]. rewrite list_marker_not_at by assumption.
    rewrite IH. simpl. rewrite <- app_assoc. reflexivity.
Qed.

(** White space at the end of the text holds no separator. *)
Lemma split_whitespace (w : jsstring) :
  whitespace w ->
  forall b cur,
    split_from true AiService.re_list_marker b 0 cur w = [rev cur ++ w].
Proof.
  induction w as [|c w IH]; intros W b cur.
  - simpl. rewrite app_nil_r. reflexivity.
  - cbn [split_from]. rewrite list_marker_not_at_ws by exact W.
    inversion W; subst. rewrite IH by assumption.
    simpl. rewrite <- app_assoc. reflexivity.
Qed.

Lemma split_at_marker (b : bool) (cur : jsstring) (b0 : code_unit)
  (indent m gap : jsstring) (i0 : code_unit) (rest : jsstring) :
  b0 = LF \/ b0 = CR ->
  whitespace indent -> marker m -> gap <> [] -> whitespace gap ->
  isWhiteSpace i0 = false ->
  split_from true AiService.re_list_marker b 0 cur
    (b0 :: indent ++ m ++ gap ++ i0 :: rest)
  = rev cur :: split_from true AiService.re_list_marker false 0 [] (i0 :: rest).
Proof.
  intros B Wi M Gn Wg W0. cbn [split_from].
  rewrite list_marker_at by assumption.
  f_equal.
  replace (indent ++ m ++ gap ++ i0 :: rest)
    with ((indent ++ m ++ gap) ++ i0 :: rest)
    by (rewrite <- !app_assoc; reflexivity).
  replace (List.length indent + List.length m + List.length gap)
    with (List.length (indent ++ m ++ gap))
    by (rewrite !length_app; lia).
  apply (@split_from_skip true AiService.re_list_marker (indent ++ m ++ gap)).
  reflexivity.
Qed.

Lemma trimStart_length (s : jsstring) : List.length (trimStart s) <= List.length s.
Proof.
  induction s as [|c s IH]; simpl; auto. destruct (isWhiteSpace c); simpl; lia.
Qed.

Lemma trim_length (s : jsstring) : List.length (trim s) <= List.length s.
Proof.
  unfold trim, trimEnd. rewrite length_rev.
  etransitivity; [apply trimStart_length|]. rewrite length_rev.
  apply trimStart_length.
Qed.

Lemma trim_fixed_head (c : code_unit) (r : jsstring) :
  trim (c :: r) = c :: r -> isWhiteSpace c = false.
Proof.
  intro H. destruct (isWhiteSpace c) eqn:W; [|reflexivity].
  exfalso. apply (f_equal (@List.length _)) in H.
  unfold trim in H. simpl trimStart in H. rewrite W in H.
  pose proof (trim_length r) as L. unfold trim in L. simpl in H. lia.
Qed.

Lemma trimStart_whitespace (w s : jsstring) :
  whitespace w -> trimStart (w ++ s) = trimStart s.
Proof.
  induction 1 as [|c w W _ IH]; [reflexivity|]. cbn [app trimStart].
  rewrite W. exact IH.
Qed.

(** Trimming takes away the white space behind a trimmed text. *)
Lemma trim_app_whitespace (x w : jsstring) :
  trim x = x -> whitespace w -> trim (x ++ w) = x.
Proof.
  intros T W. destruct x as [|c r].
  - cbn [app]. unfold trim. rewrite <- (app_nil_r w).
    rewrite trimStart_whitespace by exact W. reflexivity.
  - pose proof (trim_fixed_head T) as Wc.
    unfold trim in *. cbn [app trimStart] in *. rewrite Wc in *.
    unfold trimEnd in *.
    change (c :: r ++ w) with ((c :: r) ++ w). rewrite rev_app_distr.
    rewrite trimStart_whitespace; [exact T|].
    unfold whitespace in *. apply Forall_rev. exact W.
Qed.

Lemma keepItem_length (it : jsstring) :
  AiService.keepItem it = true -> 5 <= List.length it.
Proof.
  unfold AiService.keepItem.
  destruct (Nat.ltb_spec (List.length it) 5); [discriminate|auto].
Qed.

Lemma list_item_head (it : jsstring) :
  list_item it -> exists i0 r, it = i0 :: r /\ isWhiteSpace i0 = false.
Proof.
  intros [T K _ _ _]. apply keepItem_length in K.
  destruct it as [|i0 r]; [simpl in K; lia|].
  exists i0, r. split; [reflexivity|]. apply (@trim_fixed_head i0 r). exact T.
Qed.

Lemma line_free_app (a b : jsstring) : line_free a -> line_free b -> line_free (a ++ b).
Proof. intros A B. unfold line_free in *. apply Forall_app. auto. Qed.

(** The pieces that the separators leave. *)
Lemma split_lines (lines : list line) (ending : jsstring) :
  Forall list_line lines -> whitespace ending ->
  forall x b cur, line_free x ->
    split_from true AiService.re_list_marker b 0 cur
      (x ++ List.concat (List.map line_text lines) ++ ending)
    = pieces (rev cur ++ x) lines ending.
Proof.
  intros F We. induction F as [|l lines Hl _ IH]; intros x b cur L.
  - cbn [List.map List.concat app pieces].
    rewrite split_line_free by exact L.
    rewrite split_whitespace by exact We.
    rewrite rev_app_distr, rev_involutive, <- app_assoc. reflexivity.
  - destruct Hl as [[Wt Lt] B Wi M [Gn Wg] I].
    destruct (list_item_head I) as (i0 & r & E & W0).
    pose proof (item_line I) as Li.
    cbn [List.map List.concat pieces]. unfold line_text at 1.
    rewrite E in *.
    replace (x ++ ((l_trailing l ++ l_break l :: l_indent l ++ l_marker l
                      ++ l_gap l ++ i0 :: r)
                   ++ List.concat (List.map line_text lines)) ++ ending)
      with ((x ++ l_trailing l)
              ++ l_break l :: l_indent l ++ l_marker l ++ l_gap l
              ++ i0 :: (r ++ List.concat (List.map line_text lines) ++ ending))
      by (repeat (rewrite <- app_assoc; cbn [app]); reflexivity).
    rewrite split_line_free by (apply line_free_app; assumption).
    rewrite split_at_marker by assumption.
    rewrite rev_app_distr, rev_involutive, app_assoc. f_equal.
    change (i0 :: r ++ List.concat (List.map line_text lines) ++ ending)
      with ((i0 :: r) ++ List.concat (List.map line_text lines) ++ ending).
    rewrite IH by exact Li. reflexivity.
Qed.

Lemma pieces_trimmed (lines : list line) (ending : jsstring) :
  Forall list_line lines -> whitespace ending ->
  forall x, trim x = x ->
    List.map trim (pieces x lines ending) = x :: List.map l_item lines.
Proof.
  intros F We. induction F as [|l lines Hl _ IH]; intros x T; cbn [pieces List.map].
  - rewrite trim_app_whitespace by assumption. reflexivity.
  - destruct Hl as [[Wt _] _ _ _ _ I].
    rewrite trim_app_whitespace by assumption.
    rewrite IH by (apply (item_trimmed I)). reflexivity.
Qed.

(** ** The quotes at the two ends of an item *)

Lemma replaceAll_no_match (ic : bool) (r : regex) (repl : jsstring)
  (P : jsstring -> Prop) :
  (forall c s, P (c :: s) -> P s) ->
  (forall b s, P s -> match_at ic r b s = None) ->
  forall s b, P s -> replaceAll_from ic r repl b 0 s = s.
Proof.
  intros Hs Hm. induction s as [|c s IH]; intros b H; cbn [replaceAll_from];
    rewrite Hm by exact H; [reflexivity|].
  f_equal. apply IH. eapply Hs; eauto.
Qed.

(** The same, for a pattern that may match at the start of the subject
    only where the scan begins. *)
Lemma replaceAll_no_match_inside (ic : bool) (r : regex) (repl : jsstring)
  (P : jsstring -> Prop) :
  (forall c s, P (c :: s) -> P s) ->
  (forall s, P s -> match_at ic r false s = None) ->
  forall s, P s -> replaceAll_from ic r repl false 0 s = s.
Proof.
  intros Hs Hm. induction s as [|c s IH]; intro H; cbn [replaceAll_from];
    rewrite Hm by exact H; [reflexivity|].
  f_equal. apply IH. eapply Hs; eauto.
Qed.

Lemma startsWith_app (p a b : jsstring) :
  startsWith p a = true -> startsWith p (a ++ b) = true.
Proof.
  revert a. induction p as [|x p IH]; intros a H; [reflexivity|].
  destruct a as [|y a]; [discriminate H|]. cbn [startsWith app] in *.
  apply andb_true_iff in H. destruct H as [H1 H2]. rewrite H1. cbn [andb].
  apply IH. exact H2.
Qed.

Lemma endsWith_tail (p : jsstring) (c : code_unit) (s : jsstring) :
  endsWith p (c :: s) = false -> endsWith p s = false.
Proof.
  unfold endsWith. cbn [rev]. intro H.
  destruct (startsWith (rev p) (rev s)) eqn:E; [|reflexivity].
  rewrite (@startsWith_app _ _ [c] E) in H. discriminate H.
Qed.

Lemma item_edges_inside (s : jsstring) :
  open_ended s -> match_at false AiService.re_item_edges false s = None.
Proof.
  intros [E1 E2]. unfold match_at, AiService.re_item_edges, Opt.
  destruct s as [|x s]; [reflexivity|].
  cbn [rmatch char_matches].
  destruct (cu_eqb DQUOTE x) eqn:X; [|reflexivity].
  apply cu_eqb_eq in X. subst x.
  destruct s as [|y s]; [discriminate E1|].
  destruct (cu_eqb COMMA y) eqn:Y; [|reflexivity].
  apply cu_eqb_eq in Y. subst y.
  destruct s as [|z s]; [discriminate E2|reflexivity].
Qed.

Lemma item_edges_start (c : code_unit) (s : jsstring) :
  startsWith [DQUOTE] (c :: s) = false ->
  startsWith [LBRACKET; DQUOTE] (c :: s) = false ->
  match_at false AiService.re_item_edges true (c :: s) = None.
Proof.
  intros S1 S2. unfold match_at, AiService.re_item_edges, Opt.
  cbn [rmatch char_matches]. cbn [startsWith] in S1, S2.
  rewrite andb_true_r in S1. rewrite S1.
  destruct (cu_eqb LBRACKET c); [|reflexivity].
  destruct s as [|y s]; [reflexivity|].
  cbn [andb] in S2. rewrite andb_true_r in S2. rewrite S2. reflexivity.
Qed.

Lemma item_cleaning_id (it : jsstring) :
  list_item it ->
  trim (replaceAll false AiService.re_item_edges [] it) = it.
Proof.
  intros [T K _ [S1 S2] [E1 E2]]. unfold replaceAll.
  destruct it as [|c s]; [reflexivity|].
  cbn [replaceAll_from]. rewrite item_edges_start by assumption.
  rewrite (@replaceAll_no_match_inside false AiService.re_item_edges [] open_ended).
  - exact T.
  - intros x s' [H1 H2]. split; eapply endsWith_tail; eauto.
  - intros s' H. apply item_edges_inside. exact H.
  - split; eapply endsWith_tail; eauto.
Qed.

Lemma validItemsOf_preamble_list (lines : list line) (ending : jsstring) :
  Forall list_line lines -> whitespace ending ->
  AiService.validItemsOf (list_text lines ending) = List.map l_item lines.
Proof.
  intros F We. unfold AiService.validItemsOf, split_re, list_text.
  change (preamble ++ List.concat (List.map line_text lines) ++ ending)
    with (72%N :: ((lit "ere are some options:")
                     ++ List.concat (List.map line_text lines) ++ ending)) at 1.
  cbv iota.
  change (72%N :: ((lit "ere are some options:")
                     ++ List.concat (List.map line_text lines) ++ ending))
    with (preamble ++ List.concat (List.map line_text lines) ++ ending).
  rewrite (@split_lines lines ending F We preamble true []).
  2: { unfold line_free, preamble. simpl. repeat constructor; discriminate. }
  cbn [rev app].
  rewrite (@pieces_trimmed lines ending F We preamble eq_refl).
  cbn [filter].
  change (AiService.keepItem preamble) with false. cbv iota.
  assert (E : forall l, Forall list_item l ->
                List.map (fun item => trim (replaceAll false AiService.re_item_edges [] item))
                  (filter AiService.keepItem l) = l).
  { induction 1 as [|it l I _ IH]; [reflexivity|].
    cbn [List.map filter]. rewrite (item_kept I).
    cbn [List.map]. rewrite (item_cleaning_id I), IH. reflexivity. }
  apply E. clear E. induction F as [|l lines Hl _ IH]; constructor; auto.
  exact (line_item Hl).
Qed.

(** When the two stages before that of the list markers leave the text,
    the items are what is returned. *)
Lemma preamble_list_normalised (lines : list line) (ending : jsstring) :
  Forall list_line lines -> whitespace ending -> 2 <= List.length lines ->
  AiService.extractJSON (AiService.cleanText (list_text lines ending)) = None ->
  quotedListFound (AiService.cleanText (list_text lines ending)) = false ->
  AiService.cleanAndParseJSON (list_text lines ending)
  = strings (List.map l_item lines).
Proof.
  intros F We L J Q.
  unfold AiService.cleanAndParseJSON. rewrite J.
  unfold quotedListFound in Q. rewrite Q.
  rewrite validItemsOf_preamble_list by assumption.
  rewrite length_map.
  destruct (Nat.ltb_spec 1 (List.length lines)); [reflexivity|lia].
Qed.

(** The two stages leave every such text that holds neither an opening
    bracket nor a double quote. *)
Lemma preamble_list_plain (lines : list line) (ending : jsstring) :
  Forall list_line lines -> whitespace ending -> 2 <= List.length lines ->
  ~ In LBRACKET (list_text lines ending) -> ~ In DQUOTE (list_text lines ending) ->
  AiService.cleanAndParseJSON (list_text lines ending)
  = strings (List.map l_item lines).
Proof.
  intros F We L B D. apply preamble_list_normalised; try assumption.
  - apply extractJSON_no_bracket. intro K. apply B.
    apply cleanText_incl. exact K.
  - unfold quotedListFound.
    assert (Q1 : includes [DQUOTE; COMMA; SP; DQUOTE]
                   (AiService.cleanText (list_text lines ending)) = false).
    { destruct (includes _ _) eqn:K; [|reflexivity].
      apply includes_In, cleanText_incl in K. contradiction. }
    assert (Q2 : startsWith [DQUOTE]
                   (AiService.cleanText (list_text lines ending)) = false).
    { destruct (startsWith _ _) eqn:K; [|reflexivity].
      apply startsWith_In, cleanText_incl in K. contradiction. }
    rewrite Q1, Q2. reflexivity.
Qed.

(** C9, as the code has it.  The text is the line [Here are some
    options:] and two or more list lines, with white space at its end or
    none.  A list line is, behind the blanks that may end the line before:
    a line break ([LF], [CR], or both), white space or none, a marker (an
    ordinal with a dot or a parenthesis; a dash, a star or a bullet;
    [Option] or [Variation], in any case of letters, a space and a
    number), white space, and an item.  An item is trimmed and on one
    line, is kept by [keepItem] (five code units or more, not starting
    with a preamble phrase, not holding [linkedin post]), does not start
    with a double quote or with a bracket and a double quote, and does
    not end with a double quote or with a double quote and a comma.  When
    the two stages before that of the list markers leave the text - the
    part from its first opening bracket to its last closing one, code
    fences taken out, is not a JSON array, and the text is not taken for
    a list of quoted strings - the normaliser returns exactly the items,
    in order.  The preamble is then absent and every item present. *)
Theorem cleanAndParseJSON_preamble_list (lines : list line) (ending : jsstring) :
  Forall list_line lines -> whitespace ending -> 2 <= List.length lines ->
  AiService.extractJSON (AiService.cleanText (list_text lines ending)) = None ->
  quotedListFound (AiService.cleanText (list_text lines ending)) = false ->
  AiService.cleanAndParseJSON (list_text lines ending)
  = strings (List.map l_item lines)
  /\ ~ In (JString preamble) (AiService.cleanAndParseJSON (list_text lines ending))
  /\ forall l, In l lines ->
       In (JString (l_item l)) (AiService.cleanAndParseJSON (list_text lines ending)).
Proof.
  intros F We L J Q.
  rewrite (@preamble_list_normalised lines ending F We L J Q).
  split; [reflexivity|]. split.
  - unfold strings. rewrite map_map. intro K. apply in_map_iff in K.
    destruct K as (l & K1 & K2). inversion K1 as [K3].
    rewrite Forall_forall in F.
    pose proof (item_kept (line_item (F _ K2))) as Kp.
    rewrite K3 in Kp. discriminate Kp.
  - intros l H. unfold strings. rewrite map_map.
    apply in_map_iff. exists l. split; [reflexivity|exact H].
Qed.

Lemma absent_by_test (c : code_unit) (s : jsstring) :
  existsb (cu_eqb c) s = false -> ~ In c s.
Proof.
  intros E K.
  assert (T : existsb (cu_eqb c) s = true).
  { apply existsb_exists. exists c. split; [exact K|apply cu_eqb_refl]. }
  congruence.
Qed.

Lemma line_free_by_test (s : jsstring) :
  forallb (fun c => negb (cu_eqb c LF) && negb (cu_eqb c CR)) s = true ->
  line_free s.
Proof.
  intros E. unfold line_free. apply Forall_forall. intros c K.
  rewrite forallb_forall in E. specialize (E c K).
  apply andb_true_iff in E. destruct E as [E1 E2].
  apply negb_true_iff in E1, E2. apply cu_eqb_neq in E1, E2. auto.
Qed.

Lemma whitespace_by_test (s : jsstring) :
  forallb isWhiteSpace s = true -> whitespace s.
Proof.
  intro E. unfold whitespace. apply Forall_forall. intros c K.
  rewrite forallb_forall in E. apply E. exact K.
Qed.

Lemma str_eqb_true (a b : jsstring) : str_eqb a b = true -> a = b.
Proof.
  revert b. induction a as [|x a IH]; intros [|y b] H; simpl in H;
    try discriminate; auto.
  apply andb_true_iff in H. destruct H as [H1 H2].
  apply cu_eqb_eq in H1. subst. f_equal. apply IH. exact H2.
Qed.

Lemma list_item_by_test (it : jsstring) :
  str_eqb (trim it) it = true -> AiService.keepItem it = true ->
  forallb (fun c => negb (cu_eqb c LF) && negb (cu_eqb c CR)) it = true ->
  startsWith [DQUOTE] it = false -> startsWith [LBRACKET; DQUOTE] it = false ->
  endsWith [DQUOTE] it = false -> endsWith [DQUOTE; COMMA] it = false ->
  list_item it.
Proof.
  intros T K L S1 S2 E1 E2.
  constructor; auto using line_free_by_test, str_eqb_true.
Qed.

Lemma two_lines_listed : Forall list_line two_lines.
Proof.
  unfold two_lines. constructor; [|constructor; [|constructor]];
    constructor; cbn [l_trailing l_break l_indent l_marker l_gap l_item].
  - split; [apply whitespace_by_test|apply line_free_by_test]; reflexivity.
  - right. reflexivity.
  - apply whitespace_by_test. reflexivity.
  - apply (@marker_option (lit "OPTION ") (lit "1"));
      [split; reflexivity|discriminate|repeat constructor].
  - split; [discriminate|apply whitespace_by_test; reflexivity].
  - apply list_item_by_test; reflexivity.
  - split; [apply whitespace_by_test|apply line_free_by_test]; reflexivity.
  - left. reflexivity.
  - apply whitespace_by_test. reflexivity.
  - apply (@marker_ordinal (lit "2") RPAREN); [discriminate|repeat constructor|auto].
  - split; [discriminate|apply whitespace_by_test; reflexivity].
  - apply list_item_by_test; reflexivity.
Qed.

Lemma cleanAndParseJSON_preamble_list_witness :
  Forall list_line two_lines /\ whitespace [LF] /\ 2 <= List.length two_lines
  /\ AiService.extractJSON (AiService.cleanText (list_text two_lines [LF])) = None
  /\ quotedListFound (AiService.cleanText (list_text two_lines [LF])) = false
  /\ AiService.cleanAndParseJSON (list_text two_lines [LF])
     = strings [lit "Say " ++ quoted (lit "hi") ++ lit " to everyone";
                lit "See [note] here"].
Proof.
  assert (W : whitespace [LF]) by (apply whitespace_by_test; reflexivity).
  assert (J : AiService.extractJSON (AiService.cleanText (list_text two_lines [LF]))
              = None) by (vm_compute; reflexivity).
  assert (Q : quotedListFound (AiService.cleanText (list_text two_lines [LF])) = false)
    by (vm_compute; reflexivity).
  split; [exact two_lines_listed|]. split; [exact W|]. split; [simpl; lia|].
  split; [exact J|]. split; [exact Q|].
  exact (proj1 (@cleanAndParseJSON_preamble_list two_lines [LF] two_lines_listed W
                  (le_n 2) J Q)).
Defined.

(** C9 does not hold as stated: an item that speaks of a LinkedIn post is
    dropped together with the preamble. *)
Lemma cleanAndParseJSON_drops_linkedin_item :
  5 <= List.length (lit "Write a LinkedIn post about AI")
  /\ AiService.cleanAndParseJSON linkedin_list
     = strings [lit "Second real item"; lit "Third real item"]
  /\ ~ In (JString (lit "Write a LinkedIn post about AI"))
          (AiService.cleanAndParseJSON linkedin_list).
Proof.
  assert (E : AiService.cleanAndParseJSON linkedin_list
              = strings [lit "Second real item"; lit "Third real item"])
    by (vm_compute; reflexivity).
  split; [simpl; lia|]. split; [exact E|]. rewrite E.
  simpl. intros [K|[K|[]]]; discriminate K.
Qed.

(** Other texts of that form which are not returned item by item: a single
    item; an item that holds a JSON array; an item that starts with a
    double quote, which it loses; and items that hold quoted strings with
    a comma between them, where the text is cut at these. *)
Lemma cleanAndParseJSON_single_item :
  AiService.cleanAndParseJSON (preamble ++ [LF] ++ lit "1. First real item")
  = [JString (preamble ++ [LF] ++ lit "1. First real item")].
Proof. vm_compute. reflexivity. Qed.

Lemma cleanAndParseJSON_item_with_array :
  AiService.cleanAndParseJSON
    (preamble ++ [LF] ++ lit "1. Tag it [1, 2] today" ++ [LF] ++ lit "2. Second real item")
  = [JNumber (lit "1"); JNumber (lit "2")].
Proof. vm_compute. reflexivity. Qed.

Lemma cleanAndParseJSON_item_with_quote_first :
  AiService.cleanAndParseJSON
    (preamble ++ [LF] ++ lit "1. " ++ quoted (lit "First") ++ lit " real item"
       ++ [LF] ++ lit "2. Second real item")
  = strings [lit "First" ++ [DQUOTE] ++ lit " real item"; lit "Second real item"].
Proof. vm_compute. reflexivity. Qed.

Lemma cleanAndParseJSON_items_with_quoted_list :
  AiService.cleanAndParseJSON
    (preamble ++ [LF] ++ lit "1. Choose " ++ quoted (lit "growth") ++ lit ", "
       ++ quoted (lit "retention") ++ lit " today"
       ++ [LF] ++ lit "2. Second real item")
  = strings [preamble ++ [LF] ++ lit "1. Choose " ++ [DQUOTE] ++ lit "growth";
             lit "retention" ++ [DQUOTE] ++ lit " today" ++ [LF]
               ++ lit "2. Second real item"].
Proof. vm_compute. reflexivity. Qed.

(** * Properties of the routes *)

Section RouteFacts.

Variable EIGEN_MODEL : jsstring.
Variable generateTopics : value -> value -> value -> value -> M AIResponse.
Variable generateHooks : value -> value -> value -> value -> M AIResponse.
Variable generateBody : value -> value -> value -> value -> value -> value -> M AIResponse.
Variable generateCTA : value -> value -> value -> value -> M AIResponse.
Variable paymentWallet : outcome jsstring.
Variable facilitatorWallet : outcome jsstring.
Variable faucetWallet : outcome jsstring.
Variable toNumber : value -> option Z.

(** A template literal over values that all have a primitive form goes
    through; over one that has none it throws. *)
Lemma interpolate_printable (vs : list value) (g : bool) :
  forallb printable vs = true -> interpolate vs g = Ret (Returned tt, g).
Proof. intro P. unfold interpolate. rewrite P. reflexivity. Qed.

Lemma interpolate_unprintable (vs : list value) (g : bool) :
  forallb printable vs = false -> interpolate vs g = Ret (Thrown cannotConvert, g).
Proof. intro P. unfold interpolate. rewrite P. reflexivity. Qed.

Lemma interpolate_one_printable (v : value) :
  printable v = true -> interpolate [v] = ret tt.
Proof. intro P. unfold interpolate. simpl. rewrite P. reflexivity. Qed.

Lemma interpolate_one_unprintable (v : value) :
  printable v = false -> interpolate [v] = throw cannotConvert.
Proof. intro P. unfold interpolate. simpl. rewrite P. reflexivity. Qed.

(** A sequence that starts with a step that returns, or that throws. *)
Lemma bind_ret_tt (A : Type) (k : unit -> M A) : bind (ret tt) k = k tt.
Proof. reflexivity. Qed.

Lemma bind_throw (A B : Type) (e : error) (k : A -> M B) :
  bind (throw e) k = throw e.
Proof. reflexivity. Qed.

Lemma printable_pair (a b : value) :
  printable a = true -> printable b = true -> forallb printable [a; b] = true.
Proof. intros A B. simpl. rewrite A, B. reflexivity. Qed.

(** The retry of [polishContent] is taken at most once: more fuel than one
    changes nothing. *)
Lemma polishContent_fuel_raised (n : nat) (o : oracle) (past : list call)
  (content tone emojiDensity : value) :
  run o past (polishContent_fuel EIGEN_MODEL n content tone emojiDensity true)
  = run o past (polishContent_fuel EIGEN_MODEL 0 content tone emojiDensity true).
Proof.
  destruct n; [reflexivity|].
  cbn [polishContent_fuel]. unfold bind, interpolate.
  destruct (forallb printable [tone; content]); [|reflexivity].
  cbn. destruct (o past _) as [c|e]; reflexivity.
Qed.

Lemma polishContent_fuel_enough (n : nat) (o : oracle) (past : list call)
  (content tone emojiDensity : value) (g : bool) :
  run o past (polishContent_fuel EIGEN_MODEL (S n) content tone emojiDensity g)
  = run o past (polishContent EIGEN_MODEL content tone emojiDensity g).
Proof.
  unfold polishContent.
  destruct g;
    [rewrite (polishContent_fuel_raised (S n)), (polishContent_fuel_raised 1);
     reflexivity|].
  cbn [polishContent_fuel]. unfold bind, interpolate.
  destruct (forallb printable [tone; content]) eqn:P; [|reflexivity].
  cbn. destruct (o past _) as [c|e]; [reflexivity|].
  cbn. destruct (isNumber (errStatus e) 401); [|reflexivity].
  cbn.
  pose proof (polishContent_fuel_raised n o
                (ChatCompletion false (resolveModelId EIGEN_MODEL false) Polish
                   [content; tone; emojiDensity] :: past)
                content tone emojiDensity) as R.
  destruct n;
    [cbn [polishContent_fuel]; unfold bind, interpolate; rewrite P; reflexivity|].
  cbn [polishContent_fuel] in R |- *. unfold bind, interpolate in R |- *.
  rewrite P in R |- *. cbn in R |- *.
  destruct (o _ _) as [c|e']; reflexivity.
Qed.

(** C2.  A payment request gets as far as the read call
    [verifyPaymentSignature] when it has the six fields, its log line can
    be written ([user] and [tier] have a primitive form) and the wallet is
    constructed.  When the read call then answers that the signature is
    invalid, with a reason, [/api/payment] answers 402 with
    [success: false] and that reason, and the read call is the only call
    made: no transaction is sent and no generation stage runs. *)
Theorem payment_invalid_signature (o : oracle) (body : list (string * value))
  (wallet reason : jsstring) (g : bool) :
  truthy (prop "user" body) = true ->
  truthy (prop "tier" body) = true ->
  truthy (prop "contentId" body) = true ->
  isUndefined (prop "nonce" body) = false ->
  truthy (prop "deadline" body) = true ->
  truthy (prop "signature" body) = true ->
  printable (prop "user" body) = true ->
  printable (prop "tier" body) = true ->
  paymentWallet = Returned wallet ->
  o [] (VerifyPaymentSignature (prop "user" body) (prop "tier" body)
          (prop "contentId" body) (prop "nonce" body) (prop "deadline" body)
          (prop "signature" body)) = Returned (false, reason) ->
  serve o (paymentRoute EIGEN_MODEL generateTopics generateHooks generateBody generateCTA
       paymentWallet body) g
  = ((Returned (res_status_json 402 [("success"%string, VBool false);
                                     ("error"%string, VString reason)]), g),
     [VerifyPaymentSignature (prop "user" body) (prop "tier" body)
        (prop "contentId" body) (prop "nonce" body) (prop "deadline" body)
        (prop "signature" body)]).
Proof.
  intros H1 H2 H3 H4 H5 H6 P1 P2 W V.
  unfold serve, paymentRoute, try_catch, bind, interpolate.
  rewrite H1, H2, H3, H4, H5, H6, (@printable_pair _ _ P1 P2), W.
  cbn. rewrite V. reflexivity.
Qed.

(** C5.  A request to [/api/execute-payment] gets as far as the allowance
    when it has its two fields, its log line can be written ([userAddress]
    and [tier] have a primitive form), the wallet is constructed and the
    tier has a price.  An allowance below that price is then answered by
    an error whose body holds [success: false] and [needsApproval: true];
    the allowance is the only call made, so [transferFrom] is not
    issued. *)
Theorem execute_payment_low_allowance (o : oracle) (body : list (string * value))
  (wallet : jsstring) (amount allowance : Z) (g : bool) :
  truthy (prop "userAddress" body) = true ->
  truthy (prop "tier" body) = true ->
  printable (prop "userAddress" body) = true ->
  printable (prop "tier" body) = true ->
  facilitatorWallet = Returned wallet ->
  TIERS (toNumber (prop "tier" body)) = Some amount ->
  o [] (Allowance (prop "userAddress" body) wallet) = Returned allowance ->
  (allowance < amount)%Z ->
  exists resp,
    serve o (executePaymentRoute facilitatorWallet toNumber body) g
    = ((Returned resp, g), [Allowance (prop "userAddress" body) wallet])
    /\ status resp = 400%Z
    /\ prop "success" (payload resp) = VBool false
    /\ prop "needsApproval" (payload resp) = VBool true.
Proof.
  intros H1 H2 P1 P2 W T A L. eexists.
  unfold serve, executePaymentRoute, try_catch, bind, interpolate.
  rewrite H1, H2, (@printable_pair _ _ P1 P2), W.
  cbn. rewrite T. cbn. rewrite A. cbn.
  apply Z.ltb_lt in L. rewrite L. cbn.
  repeat split; reflexivity.
Qed.

(** C10, as the code has it.  For a tier that is none of the numbers 1, 2,
    3, when the tier and the content id have a primitive form, so that the
    log line of the orchestrator can be written, the orchestrator returns
    [undefined] without a call and without an exception; and a payment
    with such a tier and content id that reaches it (log line written,
    signature valid, transaction sent and confirmed) is answered with
    [success: true], the hash of the receipt and a [result] that is
    [undefined]. *)
Theorem other_tier_undefined (tier contentId : value) (g : bool) :
  tier <> VNumber 1 -> tier <> VNumber 2 -> tier <> VNumber 3 ->
  printable tier = true -> printable contentId = true ->
  generateTieredContent EIGEN_MODEL generateTopics generateHooks generateBody
    generateCTA tier contentId g = Ret (Returned VUndefined, g)
  /\ forall (o : oracle) (body : list (string * value)) (wallet reason : jsstring)
       (tx : transaction) (rc : receipt),
       prop "tier" body = tier ->
       prop "contentId" body = contentId ->
       printable (prop "user" body) = true ->
       truthy (prop "user" body) = true ->
       truthy tier = true ->
       truthy contentId = true ->
       isUndefined (prop "nonce" body) = false ->
       truthy (prop "deadline" body) = true ->
       truthy (prop "signature" body) = true ->
       paymentWallet = Returned wallet ->
       let verify := VerifyPaymentSignature (prop "user" body) tier
                       contentId (prop "nonce" body)
                       (prop "deadline" body) (prop "signature" body) in
       let execute := ExecutePayment (prop "user" body) tier
                        contentId (prop "nonce" body)
                        (prop "deadline" body) (prop "signature" body) in
       o [] verify = Returned (true, reason) ->
       o [verify] execute = Returned tx ->
       o [execute; verify] (Wait tx) = Returned rc ->
       receiptStatus rc = 1%Z ->
       serve o (paymentRoute EIGEN_MODEL generateTopics generateHooks generateBody generateCTA
       paymentWallet body) g
       = ((Returned (res_json [("success"%string, VBool true);
                               ("txHash"%string, VString (receiptHash rc));
                               ("result"%string, VUndefined)]), g),
          [verify; execute; Wait tx]).
Proof.
  intros N1 N2 N3 P1 P2.
  assert (T : isNumber tier 1 = false /\ isNumber tier 2 = false
              /\ isNumber tier 3 = false).
  { destruct tier; simpl; auto.
    repeat split; apply Z.eqb_neq; intro K; subst; congruence. }
  destruct T as (T1 & T2 & T3).
  assert (O : generateTieredContent EIGEN_MODEL generateTopics generateHooks generateBody
    generateCTA tier contentId g = Ret (Returned VUndefined, g)).
  { unfold generateTieredContent, try_catch, bind, interpolate.
    rewrite (@printable_pair _ _ P1 P2), T1, T2, T3.
    reflexivity. }
  split; [exact O|].
  intros o body wallet reason tx rc E E' P0 H1 H2 H3 H4 H5 H6 W verify execute V X R S.
  unfold serve, paymentRoute, try_catch, bind.
  unfold interpolate at 1.
  rewrite E, E', H1, H2, H3, H4, H5, H6, (@printable_pair _ _ P0 P1), W.
  cbn.
  fold verify. rewrite V. cbn. fold execute. rewrite X. cbn. rewrite R. cbn.
  rewrite S. cbn.
  rewrite O. reflexivity.
Qed.

(** C3, as the code has it.  A request that lacks a field its handler
    checks for is answered 400 before any call is made: the six fields of
    [/api/payment], the two of [/api/execute-payment], [userAddress] of
    [/api/faucet], [address] of [/api/grant/message], and [step] of
    [/api/generate], where the values that handler writes to its log ahead
    of the check ([model], and [walletAddress] when [grantMessage] is
    there) must have a primitive form.  [/api/polish] checks for no field,
    and [/api/generate] for none but [step]. *)
Theorem missing_checked_field_rejected (e : endpoint) (field : string)
  (fields : list (string * value)) (o : oracle) (g : bool) :
  In field (checkedFields e) ->
  prop field fields = VUndefined ->
  forallb printable (loggedBeforeCheck e fields) = true ->
  statusOf (serve o (handler EIGEN_MODEL generateTopics generateHooks generateBody generateCTA
              paymentWallet facilitatorWallet faucetWallet toNumber e fields) g) = Some 400%Z
  /\ calls (serve o (handler EIGEN_MODEL generateTopics generateHooks generateBody generateCTA
              paymentWallet facilitatorWallet faucetWallet toNumber e fields) g) = []
  /\ snd (fst (serve o (handler EIGEN_MODEL generateTopics generateHooks generateBody generateCTA
              paymentWallet facilitatorWallet faucetWallet toNumber e fields) g)) = g.
Proof.
  intros I U P. destruct e; simpl in I;
    repeat (destruct I as [I|I]; [subst field|]); try destruct I;
    unfold serve, handler, paymentRoute, executePaymentRoute, faucetRoute,
      grantMessageRoute, generateRoute, try_catch, bind;
    rewrite U; cbn; rewrite ?orb_true_r; cbn; auto.
  unfold loggedBeforeCheck in P. rewrite U in P.
  unfold interpolate. cbn [forallb printable andb] in P |- *.
  rewrite forallb_app in P. apply andb_true_iff in P. destruct P as [P1 P2].
  cbn [forallb printable andb] in P1. rewrite andb_true_r in *. rewrite P1.
  cbn.
  destruct (truthy (prop "grantMessage" fields)).
  - cbn [forallb] in P2 |- *. rewrite P2. cbn. auto.
  - cbn. auto.
Qed.

End RouteFacts.

Lemma payment_invalid_signature_witness :
  refusing (lit "Signature expired") []
    (VerifyPaymentSignature (prop "user" (samplePayment 1)) (prop "tier" (samplePayment 1))
       (prop "contentId" (samplePayment 1)) (prop "nonce" (samplePayment 1))
       (prop "deadline" (samplePayment 1)) (prop "signature" (samplePayment 1)))
  = Returned (false, lit "Signature expired")
  /\ serve (refusing (lit "Signature expired"))
       (sampleHandler PaymentEndpoint (samplePayment 1)) false
     = ((Returned (res_status_json 402
                     [("success"%string, VBool false);
                      ("error"%string, VString (lit "Signature expired"))]), false),
        [VerifyPaymentSignature (VString (lit "0xUser")) (VNumber 1)
           (VString (lit "test-1")) (VNumber 0) (VNumber 1700000000)
           (VString (lit "0xSig"))]).
Proof.
  split; [reflexivity|].
  apply (@payment_invalid_signature (lit "gpt-oss-120b-f16") noStage noStage noBody
           noStage (Returned (lit "0xFacilitator"))
           (refusing (lit "Signature expired")) (samplePayment 1)
           (lit "0xFacilitator") (lit "Signature expired") false);
    reflexivity.
Defined.

Lemma execute_payment_low_allowance_witness :
  TIERS (wholeNumber (VNumber 2)) = Some 15000000%Z
  /\ exists resp,
       serve obliging
         (sampleHandler ExecutePaymentEndpoint
            [("userAddress"%string, VString (lit "0xUser")); ("tier"%string, VNumber 2)])
         false
       = ((Returned resp, false), [Allowance (VString (lit "0xUser")) (lit "0xFacilitator")])
       /\ status resp = 400%Z
       /\ prop "success" (payload resp) = VBool false
       /\ prop "needsApproval" (payload resp) = VBool true.
Proof.
  split; [reflexivity|].
  apply (@execute_payment_low_allowance (Returned (lit "0xFacilitator")) wholeNumber
           obliging
           [("userAddress"%string, VString (lit "0xUser")); ("tier"%string, VNumber 2)]
           (lit "0xFacilitator") 15000000%Z 0%Z false);
    reflexivity.
Defined.

Lemma other_tier_undefined_witness :
  VNumber 4 <> VNumber 1 /\ VNumber 4 <> VNumber 2 /\ VNumber 4 <> VNumber 3
  /\ printable (VNumber 4) = true /\ printable (VString (lit "test-1")) = true
  /\ generateTieredContent (lit "gpt-oss-120b-f16") noStage noStage noBody noStage
       (VNumber 4) (VString (lit "test-1")) false
     = Ret (Returned VUndefined, false)
  /\ serve obliging (sampleHandler PaymentEndpoint (samplePayment 4)) false
     = ((Returned (res_json [("success"%string, VBool true);
                             ("txHash"%string, VString (lit "0xabc"));
                             ("result"%string, VUndefined)]), false),
        [VerifyPaymentSignature (VString (lit "0xUser")) (VNumber 4)
           (VString (lit "test-1")) (VNumber 0) (VNumber 1700000000)
           (VString (lit "0xSig"));
         ExecutePayment (VString (lit "0xUser")) (VNumber 4)
           (VString (lit "test-1")) (VNumber 0) (VNumber 1700000000)
           (VString (lit "0xSig"));
         Wait (mkTx (lit "0xabc"))]).
Proof.
  assert (N1 : VNumber 4 <> VNumber 1) by discriminate.
  assert (N2 : VNumber 4 <> VNumber 2) by discriminate.
  assert (N3 : VNumber 4 <> VNumber 3) by discriminate.
  destruct (@other_tier_undefined (lit "gpt-oss-120b-f16") noStage noStage noBody
              noStage (Returned (lit "0xFacilitator")) (VNumber 4)
              (VString (lit "test-1")) false N1 N2 N3 eq_refl eq_refl) as [A B].
  repeat (split; [assumption || reflexivity|]).
  apply (B obliging (samplePayment 4) (lit "0xFacilitator") []
           (mkTx (lit "0xabc")) (mkReceipt 1 (lit "0xabc"))); reflexivity.
Defined.

Lemma missing_checked_field_rejected_witness :
  In "tier"%string (checkedFields PaymentEndpoint)
  /\ prop "tier" [("user"%string, VString (lit "0xUser"))] = VUndefined
  /\ forallb printable
       (loggedBeforeCheck PaymentEndpoint [("user"%string, VString (lit "0xUser"))]) = true
  /\ statusOf (serve obliging
                 (sampleHandler PaymentEndpoint [("user"%string, VString (lit "0xUser"))])
                 false) = Some 400%Z
  /\ calls (serve obliging
              (sampleHandler PaymentEndpoint [("user"%string, VString (lit "0xUser"))])
              false) = [].
Proof.
  assert (I : In "tier"%string (checkedFields PaymentEndpoint))
    by (simpl; auto).
  split; [exact I|]. split; [reflexivity|]. split; [reflexivity|].
  destruct (@missing_checked_field_rejected (lit "gpt-oss-120b-f16") noStage noStage
              noBody noStage (Returned (lit "0xFacilitator"))
              (Returned (lit "0xFacilitator")) (Returned (lit "0xFaucet"))
              wholeNumber PaymentEndpoint "tier"%string
              [("user"%string, VString (lit "0xUser"))] obliging false I eq_refl
              eq_refl)
    as (A & B & _).
  split; assumption.
Defined.

(** C3 does not hold as stated: [/api/polish] without any of its fields is
    answered 200, after a call to the model provider. *)
Lemma polish_without_fields :
  In "content"%string (requiredFields PolishEndpoint)
  /\ prop "content" [] = VUndefined
  /\ statusOf (serve obliging (sampleHandler PolishEndpoint []) false) = Some 200%Z
  /\ calls (serve obliging (sampleHandler PolishEndpoint []) false)
     = [ChatCompletion false (lit "gpt-oss-120b-f16") Polish
          [VUndefined; VUndefined; VUndefined]]
  /\ forallb external (calls (serve obliging (sampleHandler PolishEndpoint []) false))
     = true.
Proof. repeat split; simpl; auto. Qed.

(** [/api/generate] writes its log ahead of the [switch]: without [step],
    and with a [model] that has no primitive form, the answer is 500, not
    400; no call is made. *)
Lemma generate_without_step_unprintable_model :
  prop "step" [("model"%string, unprintable)] = VUndefined
  /\ serve obliging (sampleHandler GenerateEndpoint [("model"%string, unprintable)]) false
     = ((Returned (res_status_json 500
                     [("error"%string, VString (lit "Failed to generate content"))]),
         false), []).
Proof. split; reflexivity. Qed.

(** C10 does not hold as stated: a tier without a primitive form is none
    of 1, 2, 3, and the log line of the orchestrator, which stands before
    its [try], throws on it; so does it, for tier 4, on a content id
    without one.  A payment with such a tier is answered 500 before any
    call: the log line of the route throws as well. *)
Lemma generateTieredContent_unprintable_throws :
  unprintable <> VNumber 1 /\ unprintable <> VNumber 2 /\ unprintable <> VNumber 3
  /\ generateTieredContent (lit "gpt-oss-120b-f16") noStage noStage noBody noStage
       unprintable (VString (lit "test-1")) false
     = Ret (Thrown cannotConvert, false)
  /\ generateTieredContent (lit "gpt-oss-120b-f16") noStage noStage noBody noStage
       (VNumber 4) unprintable false
     = Ret (Thrown cannotConvert, false)
  /\ serve obliging
       (sampleHandler PaymentEndpoint (("tier"%string, unprintable) :: samplePayment 4))
       false
     = ((Returned (failure 500 "Internal server error"), false), []).
Proof. repeat split; discriminate || reflexivity. Qed.

(** * Further properties of the routes *)

(** Running a sequence: the second part starts from the calls of the
    first. *)
Lemma run_pbind (R S : Type) (o : oracle) (p : prog R) (f : R -> prog S)
  (past : list call) :
  run o past (pbind p f)
  = (fst (run o (rev (snd (run o past p)) ++ past) (f (fst (run o past p)))),
     snd (run o past p)
     ++ snd (run o (rev (snd (run o past p)) ++ past) (f (fst (run o past p))))).
Proof.
  revert past. induction p as [r|c k IH]; intro past; cbn.
  - destruct (run o past (f r)); reflexivity.
  - rewrite IH. cbn. rewrite <- app_assoc. reflexivity.
Qed.

Section RouteSafety.

Variable EIGEN_MODEL : jsstring.
Variable generateTopics : value -> value -> value -> value -> M AIResponse.
Variable generateHooks : value -> value -> value -> value -> M AIResponse.
Variable generateBody : value -> value -> value -> value -> value -> value -> M AIResponse.
Variable generateCTA : value -> value -> value -> value -> M AIResponse.
Variable paymentWallet : outcome jsstring.
Variable facilitatorWallet : outcome jsstring.
Variable faucetWallet : outcome jsstring.
Variable toNumber : value -> option Z.

(** What [/api/payment] does before the orchestrator is reached, whatever
    the orchestrator is. *)
Lemma paymentRoute_cases (o : oracle) (body : list (string * value)) (g : bool) :
  let r := serve o (paymentRoute EIGEN_MODEL generateTopics generateHooks generateBody
                      generateCTA paymentWallet body) g in
  (exists resp, r = ((Returned resp, g), [])
                /\ (status resp = 400 \/ status resp = 500)%Z)
  \/ (paymentFieldsPresent body = true
      /\ ((exists resp, r = ((Returned resp, g), [verifyOf body])
                        /\ (status resp = 402 \/ status resp = 500)%Z
                        /\ forall reason, o [] (verifyOf body) <> Returned (true, reason))
          \/ exists reason, o [] (verifyOf body) = Returned (true, reason)
             /\ ((r = ((Returned (failure 500 "Transaction execution failed"), g),
                       [verifyOf body; executeOf body])
                  /\ forall tx, o [verifyOf body] (executeOf body) <> Returned tx)
                 \/ exists tx, o [verifyOf body] (executeOf body) = Returned tx
                    /\ ((r = ((Returned (failure 500 "Internal server error"), g),
                              [verifyOf body; executeOf body; Wait tx])
                         /\ forall rc, o [executeOf body; verifyOf body] (Wait tx)
                                       <> Returned rc)
                        \/ exists rc,
                             o [executeOf body; verifyOf body] (Wait tx) = Returned rc
                             /\ ((r = ((Returned (failure 500 "Transaction reverted"), g),
                                       [verifyOf body; executeOf body; Wait tx])
                                  /\ receiptStatus rc <> 1%Z)
                                 \/ (receiptStatus rc = 1%Z
                                     /\ r = (let a := run o [Wait tx; executeOf body; verifyOf body]
                                                        (generateTieredContent EIGEN_MODEL
                                                           generateTopics generateHooks
                                                           generateBody generateCTA
                                                           (prop "tier" body)
                                                           (prop "contentId" body) g) in
                                             ((Returned
                                                 match fst (fst a) with
                                                 | Returned v =>
                                                     res_json [("success"%string, VBool true);
                                                               ("txHash"%string, VString (receiptHash rc));
                                                               ("result"%string, v)]
                                                 | Thrown _ => failure 500 "Internal server error"
                                                 end, snd (fst a)),
                                              [verifyOf body; executeOf body; Wait tx] ++ snd a)))))))).
Proof.
  intro r. subst r.
  unfold serve, paymentRoute, paymentFieldsPresent.
  remember (generateTieredContent EIGEN_MODEL generateTopics generateHooks
              generateBody generateCTA (prop "tier" body) (prop "contentId" body)) as G.
  clear HeqG.
  fold (verifyOf body). fold (executeOf body).
  destruct (truthy (prop "user" body));
    [|left; eexists; split; [reflexivity|left; reflexivity]].
  destruct (truthy (prop "tier" body));
    [|left; eexists; split; [reflexivity|left; reflexivity]].
  destruct (truthy (prop "contentId" body));
    [|left; eexists; split; [reflexivity|left; reflexivity]].
  destruct (isUndefined (prop "nonce" body));
    [left; eexists; split; [reflexivity|left; reflexivity]|].
  destruct (truthy (prop "deadline" body));
    [|left; eexists; split; [reflexivity|left; reflexivity]].
  destruct (truthy (prop "signature" body));
    [|left; eexists; split; [reflexivity|left; reflexivity]].
  unfold interpolate.
  destruct (forallb printable [prop "user" body; prop "tier" body]);
    [|left; eexists; split; [reflexivity|right; reflexivity]].
  destruct paymentWallet as [wallet|e];
    [|left; eexists; split; [reflexivity|right; reflexivity]].
  right. split; [reflexivity|].
  unfold try_catch, bind. cbn.
  destruct (o [] (verifyOf body)) as [[[|] reason]|e] eqn:V; cbn.
  - right. exists reason. split; [reflexivity|].
    destruct (o [verifyOf body] (executeOf body)) as [tx|e] eqn:X; cbn.
    + right. exists tx. split; [reflexivity|].
      destruct (o [executeOf body; verifyOf body] (Wait tx)) as [rc|e] eqn:R; cbn.
      * right. exists rc. split; [reflexivity|].
        destruct (receiptStatus rc =? 1)%Z eqn:S1; cbn.
        -- right. apply Z.eqb_eq in S1. split; [exact S1|].
           rewrite !run_pbind. cbn.
           destruct (run o [Wait tx; executeOf body; verifyOf body] (G g))
             as [[[v|e] g'] t]; cbn; rewrite ?app_nil_r; reflexivity.
        -- left. apply Z.eqb_neq in S1. split; [reflexivity|exact S1].
      * left. split; [reflexivity|]. intros rc; discriminate.
    + left. split; [reflexivity|]. intros tx; discriminate.
  - left. eexists. split; [reflexivity|]. split; [left; reflexivity|].
    intros r; congruence.
  - left. eexists. split; [reflexivity|]. split; [right; reflexivity|].
    intros r; discriminate.
Qed.

(** [/api/payment] makes a call only for a request that has its six
    fields and whose log line can be written, and with a wallet. *)
Lemma payment_call_needs (o : oracle) (body : list (string * value)) (g : bool)
  (c : call) :
  In c (calls (serve o (paymentRoute EIGEN_MODEL generateTopics generateHooks
                          generateBody generateCTA paymentWallet body) g)) ->
  paymentFieldsPresent body = true
  /\ printable (prop "user" body) = true
  /\ printable (prop "tier" body) = true
  /\ exists wallet, paymentWallet = Returned wallet.
Proof.
  unfold serve, paymentRoute, paymentFieldsPresent, interpolate.
  destruct (truthy (prop "user" body)); [|intros []].
  destruct (truthy (prop "tier" body)); [|intros []].
  destruct (truthy (prop "contentId" body)); [|intros []].
  destruct (isUndefined (prop "nonce" body)); [intros []|].
  destruct (truthy (prop "deadline" body)); [|intros []].
  destruct (truthy (prop "signature" body)); [|intros []].
  cbn [forallb]. rewrite andb_true_r.
  destruct (printable (prop "user" body)); [|intros []].
  destruct (printable (prop "tier" body)); [|intros []].
  destruct paymentWallet as [wallet|e]; [|intros []].
  intros _. repeat split; eauto.
Qed.

(** X1.  Whatever the request and whatever the chain and the stages answer,
    [/api/payment] answers: no exception leaves the handler, and the status
    is one of 200, 400, 402 and 500. *)
Theorem payment_always_answers (o : oracle) (body : list (string * value)) (g : bool) :
  exists resp,
    responded (serve o (paymentRoute EIGEN_MODEL generateTopics generateHooks
                          generateBody generateCTA paymentWallet body) g)
    = Returned resp
    /\ In (status resp) [200; 400; 402; 500]%Z.
Proof.
  pose proof (paymentRoute_cases o body g) as C. cbv zeta in C.
  destruct C as [(resp & E & S)|(_ & [(resp & E & S & _)|(reason & _ & C)])].
  - rewrite E. exists resp. split; [reflexivity|]. simpl. intuition.
  - rewrite E. exists resp. split; [reflexivity|]. simpl. intuition.
  - destruct C as [(E & _)|(tx & _ & [(E & _)|(rc & _ & [(E & _)|(_ & E)])])];
      rewrite E; eexists; (split; [reflexivity|]); try (simpl; intuition).
    unfold responded; cbn.
    destruct (fst (fst (run _ _ _))); simpl; intuition.
Qed.

(** X2.  [/api/payment] sends a transaction only for a signature the contract
    found valid: when a call that changes the state of the chain is among
    the calls of a request, the six fields were present and
    [verifyPaymentSignature] had answered [true]. *)
Theorem payment_transaction_needs_valid_signature (o : oracle)
  (body : list (string * value)) (g : bool) (c : call) :
  In c (calls (serve o (paymentRoute EIGEN_MODEL generateTopics generateHooks
                          generateBody generateCTA paymentWallet body) g)) ->
  stateChanging c = true ->
  paymentFieldsPresent body = true
  /\ exists reason, o [] (verifyOf body) = Returned (true, reason).
Proof.
  intros I S.
  pose proof (paymentRoute_cases o body g) as C. cbv zeta in C.
  destruct C as [(resp & E & _)|(P & [(resp & E & _)|(reason & V & _)])].
  - rewrite E in I. destruct I.
  - rewrite E in I. destruct I as [I|[]]. subst c. discriminate S.
  - split; [exact P|]. exists reason. exact V.
Qed.

(** X3.  [/api/payment] answers 200 only after a confirmed transaction: the
    signature was found valid, [executePayment] was sent, its receipt has
    status 1, and the response carries [success: true] and the hash of
    that receipt. *)
Theorem payment_success_needs_receipt (o : oracle) (body : list (string * value))
  (g : bool) (resp : response) :
  responded (serve o (paymentRoute EIGEN_MODEL generateTopics generateHooks
                        generateBody generateCTA paymentWallet body) g)
  = Returned resp ->
  status resp = 200%Z ->
  exists reason tx rc,
    o [] (verifyOf body) = Returned (true, reason)
    /\ o [verifyOf body] (executeOf body) = Returned tx
    /\ o [executeOf body; verifyOf body] (Wait tx) = Returned rc
    /\ receiptStatus rc = 1%Z
    /\ prop "success" (payload resp) = VBool true
    /\ prop "txHash" (payload resp) = VString (receiptHash rc).
Proof.
  intros E S.
  pose proof (paymentRoute_cases o body g) as C. cbv zeta in C.
  destruct C as [(resp' & E' & S')|(_ & [(resp' & E' & S' & _)|(reason & V & C)])].
  - rewrite E' in E. unfold responded in E. cbn in E.
    assert (resp' = resp) by congruence. subst. lia.
  - rewrite E' in E. unfold responded in E. cbn in E.
    assert (resp' = resp) by congruence. subst. lia.
  - destruct C as [(E' & _)|(tx & X & [(E' & _)|(rc & R & [(E' & _)|(S1 & E')])])];
      rewrite E' in E; unfold responded in E; cbn in E;
      try (assert (K : failure 500 "Transaction execution failed" = resp) by congruence;
           subst resp; discriminate S);
      try (assert (K : failure 500 "Internal server error" = resp) by congruence;
           subst resp; discriminate S);
      try (assert (K : failure 500 "Transaction reverted" = resp) by congruence;
           subst resp; discriminate S).
    exists reason, tx, rc. repeat (split; [assumption|]).
    destruct (fst (fst (run _ _ _))) as [v|e].
    + assert (K : res_json [("success"%string, VBool true);
                            ("txHash"%string, VString (receiptHash rc));
                            ("result"%string, v)] = resp) by congruence.
      subst resp. split; reflexivity.
    + assert (K : failure 500 "Internal server error" = resp) by congruence.
      subst resp. discriminate S.
Qed.

(** X4.  For a request with its six fields whose log line can be written
    ([user] and [tier] have a primitive form): once the transaction of
    [/api/payment] is confirmed, the orchestrator runs once, after the
    three contract calls, and its outcome is the response: its value under
    [result], beside [success: true] and the hash of the receipt, or, when
    it throws, 500 [Internal server error] - after the payment was
    taken. *)
Theorem payment_confirmed_runs_orchestrator (o : oracle)
  (body : list (string * value)) (wallet reason : jsstring) (tx : transaction)
  (rc : receipt) (g : bool) :
  paymentFieldsPresent body = true ->
  printable (prop "user" body) = true ->
  printable (prop "tier" body) = true ->
  paymentWallet = Returned wallet ->
  o [] (verifyOf body) = Returned (true, reason) ->
  o [verifyOf body] (executeOf body) = Returned tx ->
  o [executeOf body; verifyOf body] (Wait tx) = Returned rc ->
  receiptStatus rc = 1%Z ->
  serve o (paymentRoute EIGEN_MODEL generateTopics generateHooks generateBody
             generateCTA paymentWallet body) g
  = (let a := run o [Wait tx; executeOf body; verifyOf body]
                (generateTieredContent EIGEN_MODEL generateTopics generateHooks
                   generateBody generateCTA (prop "tier" body)
                   (prop "contentId" body) g) in
     ((Returned match fst (fst a) with
                | Returned v =>
                    res_json [("success"%string, VBool true);
                              ("txHash"%string, VString (receiptHash rc));
                              ("result"%string, v)]
                | Thrown _ => failure 500 "Internal server error"
                end, snd (fst a)),
      [verifyOf body; executeOf body; Wait tx] ++ snd a)).
Proof.
  intros P Q1 Q2 W V X R S1.
  pose proof (paymentRoute_cases o body g) as C. cbv zeta in C.
  destruct C as [(resp & E & _)|(_ & [(resp & _ & _ & N)|(reason' & _ & C)])].
  - exfalso. revert E. unfold serve, paymentRoute, paymentFieldsPresent, interpolate in *.
    apply andb_prop in P. destruct P as [P P6].
    apply andb_prop in P. destruct P as [P P5].
    apply andb_prop in P. destruct P as [P P4].
    apply andb_prop in P. destruct P as [P P3].
    apply andb_prop in P. destruct P as [P1 P2].
    apply negb_true_iff in P4.
    rewrite P1, P2, P3, P4, P5, P6, (@printable_pair _ _ Q1 Q2), W.
    unfold try_catch, bind. cbn. fold (verifyOf body). rewrite V. cbn.
    fold (executeOf body). rewrite X. cbn. discriminate.
  - exfalso. exact (N reason V).
  - destruct C as [(_ & N)|(tx' & X' & [(_ & N)|(rc' & R' & [(_ & N)|(_ & E)])])].
    + exfalso. exact (N tx X).
    + exfalso. assert (tx' = tx) by congruence. subst. exact (N rc R).
    + exfalso. assert (tx' = tx) by congruence. subst.
      assert (rc' = rc) by congruence. subst. exact (N S1).
    + assert (tx' = tx) by congruence. subst.
      assert (rc' = rc) by congruence. subst. exact E.
Qed.


(** [/api/execute-payment] *)
Lemma executePaymentRoute_cases (o : oracle) (body : list (string * value)) (g : bool) :
  let r := serve o (executePaymentRoute facilitatorWallet toNumber body) g in
  let user := prop "userAddress" body in
  (exists resp, r = ((Returned resp, g), [])
                /\ (status resp = 400 \/ status resp = 500)%Z)
  \/ exists wallet amount,
       facilitatorWallet = Returned wallet
       /\ TIERS (toNumber (prop "tier" body)) = Some amount
       /\ ((exists resp, r = ((Returned resp, g), [Allowance user wallet])
                         /\ (status resp = 400 \/ status resp = 500)%Z)
           \/ exists allowance,
                o [] (Allowance user wallet) = Returned allowance
                /\ (amount <= allowance)%Z
                /\ ((exists resp,
                        r = ((Returned resp, g), [Allowance user wallet; BalanceOf user])
                        /\ (status resp = 400 \/ status resp = 500)%Z)
                    \/ exists balance,
                         o [Allowance user wallet] (BalanceOf user) = Returned balance
                         /\ (amount <= balance)%Z
                         /\ ((exists resp,
                                 r = ((Returned resp, g),
                                      [Allowance user wallet; BalanceOf user;
                                       TransferFrom user wallet amount])
                                 /\ status resp = 500%Z)
                             \/ exists tx,
                                  o [BalanceOf user; Allowance user wallet]
                                    (TransferFrom user wallet amount) = Returned tx
                                  /\ ((exists resp,
                                          r = ((Returned resp, g),
                                               [Allowance user wallet; BalanceOf user;
                                                TransferFrom user wallet amount; Wait tx])
                                          /\ status resp = 500%Z
                                          /\ forall rc,
                                               o [TransferFrom user wallet amount;
                                                  BalanceOf user; Allowance user wallet]
                                                 (Wait tx) = Returned rc ->
                                               receiptStatus rc <> 1%Z
                                               /\ prop "error" (payload resp)
                                                  = VString (lit "Transaction reverted"))
                                      \/ exists rc resp,
                                           o [TransferFrom user wallet amount;
                                              BalanceOf user; Allowance user wallet]
                                             (Wait tx) = Returned rc
                                           /\ receiptStatus rc = 1%Z
                                           /\ r = ((Returned resp, g),
                                                   [Allowance user wallet; BalanceOf user;
                                                    TransferFrom user wallet amount;
                                                    Wait tx; FreshId])
                                           /\ (status resp = 500%Z
                                               \/ status resp = 200%Z
                                                  /\ prop "txHash" (payload resp)
                                                     = VString (receiptHash rc)))))).
Proof.
  intros r user. subst r.
  unfold serve, executePaymentRoute. fold user.
  destruct (truthy user);
    [|left; eexists; split; [reflexivity|left; reflexivity]].
  destruct (truthy (prop "tier" body));
    [|left; eexists; split; [reflexivity|left; reflexivity]].
  unfold interpolate.
  destruct (forallb printable [user; prop "tier" body]);
    [|left; eexists; split; [reflexivity|right; reflexivity]].
  destruct facilitatorWallet as [wallet|e];
    [|left; eexists; split; [reflexivity|right; reflexivity]].
  unfold try_catch, bind. cbn.
  destruct (TIERS (toNumber (prop "tier" body))) as [amount|] eqn:T;
    [|left; eexists; split; [reflexivity|left; reflexivity]].
  right. exists wallet, amount. split; [reflexivity|]. split; [reflexivity|].
  cbn.
  destruct (o [] (Allowance user wallet)) as [allowance|e] eqn:A; cbn;
    [|left; eexists; split; [reflexivity|right; reflexivity]].
  destruct (allowance <? amount)%Z eqn:LA; cbn;
    [left; eexists; split; [reflexivity|left; reflexivity]|].
  apply Z.ltb_ge in LA.
  right. exists allowance. split; [reflexivity|]. split; [exact LA|].
  destruct (o [Allowance user wallet] (BalanceOf user)) as [balance|e] eqn:B; cbn;
    [|left; eexists; split; [reflexivity|right; reflexivity]].
  destruct (balance <? amount)%Z eqn:LB; cbn;
    [left; eexists; split; [reflexivity|left; reflexivity]|].
  apply Z.ltb_ge in LB.
  right. exists balance. split; [reflexivity|]. split; [exact LB|].
  destruct (o [BalanceOf user; Allowance user wallet] (TransferFrom user wallet amount))
    as [tx|e] eqn:X; cbn;
    [|left; eexists; split; [reflexivity|reflexivity]].
  right. exists tx. split; [reflexivity|].
  destruct (o [TransferFrom user wallet amount; BalanceOf user; Allowance user wallet]
              (Wait tx)) as [rc|e] eqn:R; cbn.
  - destruct (receiptStatus rc =? 1)%Z eqn:S1; cbn.
    + apply Z.eqb_eq in S1. right.
      destruct (o [Wait tx; TransferFrom user wallet amount; BalanceOf user;
                   Allowance user wallet] FreshId) as [id|e] eqn:F; cbn.
      * exists rc. eexists. split; [reflexivity|]. split; [exact S1|].
        split; [reflexivity|]. right. split; reflexivity.
      * exists rc. eexists. split; [reflexivity|]. split; [exact S1|].
        split; [reflexivity|]. left. reflexivity.
    + apply Z.eqb_neq in S1. left. eexists. split; [reflexivity|].
      split; [reflexivity|]. intros rc' E. assert (rc' = rc) by congruence. subst.
      split; [exact S1|reflexivity].
  - left. eexists. split; [reflexivity|]. split; [reflexivity|].
    intros rc E. discriminate E.
Qed.

(** [/api/execute-payment] makes a call only for a request that has its
    two fields and whose log line can be written, with a wallet and for a
    tier that has a price. *)
Lemma execute_payment_call_needs (o : oracle) (body : list (string * value))
  (g : bool) (c : call) :
  In c (calls (serve o (executePaymentRoute facilitatorWallet toNumber body) g)) ->
  truthy (prop "userAddress" body) = true
  /\ truthy (prop "tier" body) = true
  /\ printable (prop "userAddress" body) = true
  /\ printable (prop "tier" body) = true
  /\ exists wallet amount,
       facilitatorWallet = Returned wallet
       /\ TIERS (toNumber (prop "tier" body)) = Some amount.
Proof.
  unfold serve, executePaymentRoute, interpolate.
  destruct (truthy (prop "userAddress" body)); [|intros []].
  destruct (truthy (prop "tier" body)); [|intros []].
  cbn [forallb]. rewrite andb_true_r.
  destruct (printable (prop "userAddress" body)); [|intros []].
  destruct (printable (prop "tier" body)); [|intros []].
  destruct facilitatorWallet as [wallet|e]; [|intros []].
  unfold try_catch, bind. cbn.
  destruct (TIERS (toNumber (prop "tier" body))) as [amount|]; [|intros []].
  intros _. repeat split; eauto.
Qed.

(** X6.  [/api/execute-payment] issues [transferFrom] only when the user can
    pay: the transfer is from the user to the facilitator, of the price of
    the tier (5, 15 or 30 USDC), and the allowance and the balance read
    before it both cover that price. *)
Theorem transferFrom_only_when_covered (o : oracle) (body : list (string * value))
  (g : bool) (from : value) (to : jsstring) (amount : Z) :
  In (TransferFrom from to amount)
     (calls (serve o (executePaymentRoute facilitatorWallet toNumber body) g)) ->
  from = prop "userAddress" body
  /\ facilitatorWallet = Returned to
  /\ TIERS (toNumber (prop "tier" body)) = Some amount
  /\ In amount [5000000; 15000000; 30000000]%Z
  /\ exists allowance balance,
       o [] (Allowance from to) = Returned allowance
       /\ o [Allowance from to] (BalanceOf from) = Returned balance
       /\ (amount <= allowance)%Z /\ (amount <= balance)%Z.
Proof.
  intro I.
  pose proof (executePaymentRoute_cases o body g) as C. cbv zeta in C.
  assert (price : forall n a, TIERS n = Some a -> In a [5000000; 15000000; 30000000]%Z).
  { intros n a K. unfold TIERS in K.
    repeat match type of K with
           | context [match ?x with _ => _ end] => destruct x
           end; try discriminate K; inversion K; simpl; auto. }
  destruct C as [(resp & E & _)|(wallet & amt & W & T & C)].
  { rewrite E in I. destruct I. }
  destruct C as [(resp & E & _)|(allowance & A & LA & C)].
  { rewrite E in I. simpl in I. destruct I as [I|[]]. discriminate I. }
  destruct C as [(resp & E & _)|(balance & B & LB & C)].
  { rewrite E in I. simpl in I. destruct I as [I|[I|[]]]; discriminate I. }
  assert (K : forall l, In (TransferFrom from to amount)
                          (Allowance (prop "userAddress" body) wallet
                           :: BalanceOf (prop "userAddress" body)
                           :: TransferFrom (prop "userAddress" body) wallet amt :: l) ->
                        (forall x, In x l -> stateChanging x = false) ->
                        from = prop "userAddress" body /\ to = wallet /\ amount = amt).
  { intros l [J|[J|[J|J]]] N; try discriminate J.
    - inversion J. auto.
    - apply N in J. discriminate J. }
  assert (D : from = prop "userAddress" body /\ to = wallet /\ amount = amt).
  { destruct C as [(resp & E & _)|(tx & X & [(resp & E & _)|(rc & resp & _ & _ & E & _)])];
      rewrite E in I; apply K in I; auto; intros x J; simpl in J;
      repeat (destruct J as [J|J]; [subst x; reflexivity|]); destruct J. }
  destruct D as (-> & -> & ->).
  repeat (split; [auto; eauto|]).
  exists allowance, balance. auto.
Qed.

(** X7.  [/api/execute-payment] sends at most one transaction per request, and
    [/api/faucet] too: nothing is retried. *)
Theorem at_most_one_transaction (o : oracle) (body : list (string * value)) (g : bool) :
  (List.length (filter stateChanging
                  (calls (serve o (executePaymentRoute facilitatorWallet toNumber body) g)))
   <= 1)%nat
  /\ (List.length (filter stateChanging
                     (calls (serve o (faucetRoute faucetWallet body) g))) <= 1)%nat.
Proof.
  split.
  - pose proof (executePaymentRoute_cases o body g) as C. cbv zeta in C.
    destruct C as [(resp & E & _)|(wallet & amt & _ & _ & C)];
      [rewrite E; simpl; lia|].
    destruct C as [(resp & E & _)|(allowance & _ & _ & C)];
      [rewrite E; simpl; lia|].
    destruct C as [(resp & E & _)|(balance & _ & _ & C)];
      [rewrite E; simpl; lia|].
    destruct C as [(resp & E & _)|(tx & _ & [(resp & E & _)|(rc & resp & _ & _ & E & _)])];
      rewrite E; simpl; lia.
  - unfold serve, faucetRoute, interpolate.
    destruct (truthy (prop "userAddress" body)); [|simpl; lia].
    destruct faucetWallet as [wallet|e]; [|simpl; lia].
    destruct (forallb printable [prop "userAddress" body]); [|simpl; lia].
    unfold try_catch, bind. cbn.
    destruct (o [] _) as [nonce|e]; cbn; [|lia].
    destruct (o _ (Transfer _ _ _)) as [tx|e]; cbn; [|lia].
    destruct (o _ (Wait _)) as [rc|e]; cbn; lia.
Qed.

(** X8.  [/api/execute-payment] answers 200 only after a confirmed transfer:
    [transferFrom] was sent, its receipt has status 1, and the response
    carries the hash of that receipt. *)
Theorem execute_payment_success_needs_receipt (o : oracle)
  (body : list (string * value)) (g : bool) (resp : response) :
  responded (serve o (executePaymentRoute facilitatorWallet toNumber body) g)
  = Returned resp ->
  status resp = 200%Z ->
  exists wallet amount tx rc,
    facilitatorWallet = Returned wallet
    /\ TIERS (toNumber (prop "tier" body)) = Some amount
    /\ o [BalanceOf (prop "userAddress" body); Allowance (prop "userAddress" body) wallet]
         (TransferFrom (prop "userAddress" body) wallet amount) = Returned tx
    /\ o [TransferFrom (prop "userAddress" body) wallet amount;
          BalanceOf (prop "userAddress" body); Allowance (prop "userAddress" body) wallet]
         (Wait tx) = Returned rc
    /\ receiptStatus rc = 1%Z
    /\ prop "txHash" (payload resp) = VString (receiptHash rc).
Proof.
  intros E S.
  pose proof (executePaymentRoute_cases o body g) as C. cbv zeta in C.
  assert (no : forall (resp' : response) t,
             serve o (executePaymentRoute facilitatorWallet toNumber body) g
             = ((Returned resp', g), t) ->
             (status resp' = 400 \/ status resp' = 500)%Z -> False).
  { intros resp' t E' S'. rewrite E' in E. unfold responded in E. cbn in E.
    assert (resp' = resp) by congruence. subst. lia. }
  destruct C as [(resp' & E' & S')|(wallet & amt & W & T & C)]; [exfalso; eauto|].
  destruct C as [(resp' & E' & S')|(allowance & _ & _ & C)]; [exfalso; eauto|].
  destruct C as [(resp' & E' & S')|(balance & _ & _ & C)]; [exfalso; eauto|].
  destruct C as [(resp' & E' & S')|(tx & X & C)]; [exfalso; eauto|].
  destruct C as [(resp' & E' & S' & _)|(rc & resp' & R & S1 & E' & [S'|(_ & H)])];
    [exfalso; eauto| exfalso; eauto |].
  rewrite E' in E. unfold responded in E. cbn in E.
  assert (resp' = resp) by congruence. subst.
  exists wallet, amt, tx, rc. auto 10.
Qed.

(** X9.  On [/api/execute-payment], for a request with its two fields whose
    log line can be written ([userAddress] and [tier] have a primitive
    form), a transfer whose receipt has another status than 1 is answered
    500 with the message [Transaction reverted], and no content id is
    drawn. *)
Theorem execute_payment_reverted (o : oracle) (body : list (string * value))
  (wallet : jsstring) (amount allowance balance : Z) (tx : transaction)
  (rc : receipt) (g : bool) :
  truthy (prop "userAddress" body) = true ->
  truthy (prop "tier" body) = true ->
  printable (prop "userAddress" body) = true ->
  printable (prop "tier" body) = true ->
  facilitatorWallet = Returned wallet ->
  TIERS (toNumber (prop "tier" body)) = Some amount ->
  let user := prop "userAddress" body in
  o [] (Allowance user wallet) = Returned allowance ->
  o [Allowance user wallet] (BalanceOf user) = Returned balance ->
  (amount <= allowance)%Z -> (amount <= balance)%Z ->
  o [BalanceOf user; Allowance user wallet] (TransferFrom user wallet amount)
  = Returned tx ->
  o [TransferFrom user wallet amount; BalanceOf user; Allowance user wallet] (Wait tx)
  = Returned rc ->
  receiptStatus rc <> 1%Z ->
  serve o (executePaymentRoute facilitatorWallet toNumber body) g
  = ((Returned (failure 500 "Transaction reverted"), g),
     [Allowance user wallet; BalanceOf user; TransferFrom user wallet amount; Wait tx]).
Proof.
  intros H1 H2 Q1 Q2 W T user A B LA LB X R S1. subst user.
  unfold serve, executePaymentRoute, interpolate.
  rewrite H1, H2, (@printable_pair _ _ Q1 Q2), W.
  unfold try_catch, bind. cbn. rewrite T. cbn.
  rewrite A. cbn. apply Z.ltb_ge in LA. rewrite LA. cbn.
  rewrite B. cbn. apply Z.ltb_ge in LB. rewrite LB. cbn.
  rewrite X. cbn. rewrite R. cbn.
  apply Z.eqb_neq in S1. rewrite S1. reflexivity.
Qed.

(** X10.  [/api/faucet] transfers 100 USDC (six decimals) to the address of the
    request, with the nonce that the pending transaction count gave. *)
Theorem faucet_transfer_shape (o : oracle) (body : list (string * value)) (g : bool)
  (to : value) (amount nonce : Z) :
  In (Transfer to amount nonce) (calls (serve o (faucetRoute faucetWallet body) g)) ->
  to = prop "userAddress" body
  /\ amount = 100000000%Z
  /\ exists wallet,
       faucetWallet = Returned wallet
       /\ o [] (GetTransactionCount wallet) = Returned nonce.
Proof.
  unfold serve, faucetRoute, interpolate.
  destruct (truthy (prop "userAddress" body)); [|intros []].
  destruct faucetWallet as [wallet|e]; [|intros []].
  destruct (forallb printable [prop "userAddress" body]); [|intros []].
  unfold try_catch, bind. cbn.
  destruct (o [] (GetTransactionCount wallet)) as [n|e] eqn:N; cbn;
    [|intros [I|[]]; discriminate I].
  intro I.
  assert (D : to = prop "userAddress" body /\ amount = 100000000%Z /\ nonce = n).
  { revert I.
    destruct (o _ (Transfer _ _ _)) as [tx|e]; cbn;
      [destruct (o _ (Wait _)) as [rc|e]; cbn|];
      intro I;
      repeat (destruct I as [I|I]; [try discriminate I; inversion I; auto|]);
      destruct I. }
  destruct D as (-> & -> & ->).
  split; [reflexivity|]. split; [reflexivity|]. exists wallet. auto.
Qed.


(** X12.  [/api/grant/message] answers 400 [Missing wallet address], without
    calling the grant service, for every [address] that is not a non-empty
    text: none, an empty text, or a list from a repeated parameter. *)
Theorem grant_message_rejects_non_text (o : oracle) (query : list (string * value)) (g : bool) :
  (forall s, prop "address" query = VString s -> s = []) ->
  serve o (grantMessageRoute query) g
  = ((Returned (res_status_json 400
                  [("error"%string, VString (lit "Missing wallet address"))]), g), []).
Proof.
  intro N. unfold serve, grantMessageRoute, try_catch.
  destruct (prop "address" query) as [| | | |[|c s]| |]; try reflexivity.
  specialize (N _ eq_refl). discriminate N.
Qed.

(** X13.  For an [address] that is a non-empty text, [/api/grant/message] makes
    one call to the grant service and relays it: the message with status
    200, or the message of the exception with status 500. *)
Theorem grant_message_relayed (o : oracle) (query : list (string * value)) (g : bool)
  (address : jsstring) :
  prop "address" query = VString address ->
  address <> [] ->
  serve o (grantMessageRoute query) g
  = ((Returned match o [] (FetchGrantMessage address) with
               | Returned message => res_json [("message"%string, VString message)]
               | Thrown e => res_status_json 500 [("error"%string, message e)]
               end, g),
     [FetchGrantMessage address]).
Proof.
  intros E N. unfold serve, grantMessageRoute, try_catch. rewrite E.
  destruct address as [|c s]; [congruence|].
  unfold bind. cbn.
  destruct (o [] (FetchGrantMessage (c :: s))); reflexivity.
Qed.

Lemma str_eqb_eq (a b : jsstring) : str_eqb a b = true <-> a = b.
Proof.
  revert b. induction a as [|x a IH]; intros [|y b]; simpl; split; intro H;
    try reflexivity; try discriminate H.
  - apply andb_prop in H. destruct H as [H1 H2].
    apply cu_eqb_eq in H1. apply IH in H2. congruence.
  - inversion H; subst. rewrite cu_eqb_refl. simpl. apply IH. reflexivity.
Qed.

Lemma isText_eq (v : value) (s : string) :
  isText v s = true <-> v = VString (lit s).
Proof.
  destruct v; simpl; split; intro H; try discriminate H.
  - apply str_eqb_eq in H. congruence.
  - inversion H. apply str_eqb_eq. reflexivity.
Qed.

(** What [/api/generate] answers for a request. *)
Lemma generateRoute_cases (o : oracle) (body : list (string * value)) (g : bool) :
  let r := serve o (generateRoute generateTopics generateHooks generateBody
                      generateCTA body) g in
  (forallb printable (loggedBeforeCheck GenerateEndpoint body) = false
   /\ r = ((Returned (res_status_json 500
                        [("error"%string, VString (lit "Failed to generate content"))]),
            g), []))
  \/ (forallb printable (loggedBeforeCheck GenerateEndpoint body) = true
      /\ ((In (prop "step" body) stepNames
           /\ exists resp, responded r = Returned resp
                           /\ ((status resp = 200%Z /\ exists a, payload resp = aiJson a)
                               \/ resp = res_status_json 500
                                           [("error"%string,
                                             VString (lit "Failed to generate content"))]))
          \/ (~ In (prop "step" body) stepNames
              /\ r = ((Returned (res_status_json 400
                                   [("error"%string, VString (lit "Invalid step"))]), g),
                      [])))).
Proof.
  intro r. subst r. unfold loggedBeforeCheck. rewrite forallb_app.
  assert (relay : forall (m : M AIResponse) past,
             exists resp,
               fst (fst (run o past
                           (pbind
                              (pbind (m g)
                                 (fun r => match fst r with
                                           | Returned a =>
                                               ret (res_json (aiJson a)) (snd r)
                                           | Thrown e => Ret (Thrown e, snd r)
                                           end))
                              (fun r => match fst r with
                                        | Returned a => Ret (Returned a, snd r)
                                        | Thrown _ =>
                                            ret (res_status_json 500
                                                   [("error"%string,
                                                     VString (lit "Failed to generate content"))])
                                              (snd r)
                                        end)))) = Returned resp
               /\ ((status resp = 200%Z /\ exists a, payload resp = aiJson a)
                   \/ resp = res_status_json 500
                               [("error"%string,
                                 VString (lit "Failed to generate content"))])).
  { intros m past. rewrite !run_pbind. cbn.
    destruct (run o past (m g)) as [[[a|e] g'] t]; cbn; eexists;
      (split; [reflexivity|]); [left; split; [reflexivity|exists a; reflexivity]
                               |right; reflexivity]. }
  unfold serve, generateRoute, interpolate.
  destruct (forallb printable [prop "step" body; prop "model" body]);
    [|left; split; reflexivity].
  rewrite bind_ret_tt.
  destruct (truthy (prop "grantMessage" body));
    [destruct (forallb printable [prop "walletAddress" body]);
     [|left; split; reflexivity]|];
    rewrite bind_ret_tt; right; (split; [reflexivity|]);
    unfold try_catch, bind, responded;
    (destruct (isText (prop "step" body) "topics") eqn:T1;
     [left; apply isText_eq in T1; split; [rewrite T1; simpl; auto|apply relay]|]);
    (destruct (isText (prop "step" body) "hooks") eqn:T2;
     [left; apply isText_eq in T2; split; [rewrite T2; simpl; auto|apply relay]|]);
    (destruct (isText (prop "step" body) "body") eqn:T3;
     [left; apply isText_eq in T3; split; [rewrite T3; simpl; auto|apply relay]|]);
    (destruct (isText (prop "step" body) "cta") eqn:T4;
     [left; apply isText_eq in T4; split; [rewrite T4; simpl; auto 6|apply relay]|]);
    right; (split; [|reflexivity]);
    intros [I|[I|[I|[I|[]]]]]; symmetry in I; apply isText_eq in I; congruence.
Qed.

(** X14.  [/api/generate] writes [step] and [model], and [walletAddress]
    when [grantMessage] is there, to its log ahead of the [switch].  It
    answers 400 exactly when these have a primitive form and [step] is
    none of [topics], [hooks], [body] and [cta]; it then runs no stage
    and makes no call.  When one of them has no primitive form it answers
    500, without a call.  The status is always 200, 400 or 500. *)
Theorem generate_invalid_step_iff (o : oracle) (body : list (string * value)) (g : bool) :
  let r := serve o (generateRoute generateTopics generateHooks generateBody
                      generateCTA body) g in
  let logged := forallb printable (loggedBeforeCheck GenerateEndpoint body) in
  (statusOf r = Some 400%Z <-> logged = true /\ ~ In (prop "step" body) stepNames)
  /\ (statusOf r = Some 400%Z -> calls r = [])
  /\ (logged = false -> statusOf r = Some 500%Z /\ calls r = [])
  /\ (statusOf r = Some 200%Z \/ statusOf r = Some 400%Z \/ statusOf r = Some 500%Z).
Proof.
  intros r logged.
  pose proof (generateRoute_cases o body g) as C. cbv zeta in C.
  fold r logged in C. unfold statusOf.
  destruct C as [(L & E)|(L & [(I & resp & E & [(S & _)|S])|(N & E)])]; rewrite L;
    rewrite E; [|rewrite S|subst resp|]; unfold responded, calls; cbn;
    (split;
     [split;
      [intro K; first [discriminate K|split; [reflexivity|assumption]]
      |intros [K1 K2]; first [discriminate K1|contradiction|reflexivity]]|]);
    (split; [intro K; first [discriminate K|reflexivity]|]);
    (split; [intro K; first [discriminate K|split; reflexivity]|]);
    auto.
Qed.

(** X15.  [/api/polish] always answers.  [polishContent] compares [tone]
    with a number and writes [content] into its prompt before its [try]:
    when one of the two has no primitive form the route answers 500
    [Failed to polish content], without a call.  Otherwise it answers
    200, because [polishContent] catches every failure of the provider.
    One provider call is then made, or two: the second goes to the
    fallback provider and is made only when the primary was in use and
    refused the first with status 401; the process then stays on the
    fallback.  A flag that is raised is never lowered. *)
Theorem polish_always_answers (o : oracle) (body : list (string * value)) (g : bool) :
  let r := serve o (polishRoute EIGEN_MODEL body) g in
  (forallb printable [prop "tone" body; prop "content" body] = false
   /\ r = ((Returned (res_status_json 500
                        [("error"%string, VString (lit "Failed to polish content"))]), g),
           []))
  \/ (forallb printable [prop "tone" body; prop "content" body] = true
      /\ statusOf r = Some 200%Z
      /\ ((calls r = [polishCall g (resolveModelId EIGEN_MODEL g) body]
           /\ snd (fst r) = g)
          \/ (g = false
              /\ calls r = [polishCall false EIGEN_MODEL body;
                            polishCall true GROQ_MODEL body]
              /\ snd (fst r) = true
              /\ exists e, o [] (polishCall false EIGEN_MODEL body) = Thrown e
                           /\ errStatus e = VNumber 401))).
Proof.
  intro r. subst r.
  unfold serve, polishRoute, polishContent. cbn [polishContent_fuel].
  unfold interpolate.
  destruct (forallb printable [prop "tone" body; prop "content" body]);
    [right; split; [reflexivity|]|left; split; reflexivity].
  unfold polishCall, statusOf, responded, calls, try_catch, bind.
  cbn.
  destruct (o [] _) as [c|e] eqn:E1; cbn; [split; [reflexivity|left; split; reflexivity]|].
  destruct g; cbn; [split; [reflexivity|left; split; reflexivity]|].
  destruct (isNumber (errStatus e) 401) eqn:S; cbn;
    [|split; [reflexivity|left; split; reflexivity]].
  assert (S' : errStatus e = VNumber 401).
  { destruct (errStatus e); simpl in S; try discriminate S.
    apply Z.eqb_eq in S. congruence. }
  destruct (o [_] _) as [c|e']; cbn;
    (split; [reflexivity|right; repeat split; try reflexivity; exists e; auto]).
Qed.

(** X16.  [/api/polish] never loses the post: unless [tone] or [content]
    has no primitive form, when the answer is 500 and no call is made,
    the [result] it answers is the text of a completion that the provider
    returned, or else the [content] of the request, unchanged. *)
Theorem polish_result_or_content (o : oracle) (body : list (string * value)) (g : bool) :
  exists resp,
    responded (serve o (polishRoute EIGEN_MODEL body) g) = Returned resp
    /\ ((forallb printable [prop "tone" body; prop "content" body] = false
         /\ status resp = 500%Z
         /\ calls (serve o (polishRoute EIGEN_MODEL body) g) = [])
        \/ (forallb printable [prop "tone" body; prop "content" body] = true
            /\ status resp = 200%Z
            /\ (prop "result" (payload resp) = prop "content" body
                \/ exists past usingGroq model completion,
                     o past (polishCall usingGroq model body) = Returned completion
                     /\ In (polishCall usingGroq model body)
                          (calls (serve o (polishRoute EIGEN_MODEL body) g))
                     /\ truthy (messageContent completion) = true
                     /\ prop "result" (payload resp) = messageContent completion))).
Proof.
  unfold serve, polishRoute, polishContent. cbn [polishContent_fuel].
  unfold interpolate.
  destruct (forallb printable [prop "tone" body; prop "content" body]);
    [|eexists; split; [reflexivity|left; repeat split; reflexivity]].
  unfold polishCall, responded, calls, try_catch, bind.
  cbn.
  assert (K : forall v, orElse v (prop "content" body) = prop "content" body
                        \/ truthy v = true /\ orElse v (prop "content" body) = v).
  { intro v. unfold orElse. destruct (truthy v); auto. }
  destruct (o [] _) as [c|e] eqn:E1; cbn.
  { eexists. split; [reflexivity|]. right. split; [reflexivity|].
    split; [reflexivity|]. cbn.
    destruct (K (messageContent c)) as [->|(T & ->)]; [left; reflexivity|].
    right. do 4 eexists. split; [exact E1|]. split; [simpl; auto|]. auto. }
  destruct g; cbn;
    [eexists; split; [reflexivity|right; repeat split; left; reflexivity]|].
  destruct (isNumber (errStatus e) 401); cbn;
    [|eexists; split; [reflexivity|right; repeat split; left; reflexivity]].
  destruct (o [_] _) as [c|e'] eqn:E2; cbn;
    [|eexists; split; [reflexivity|right; repeat split; left; reflexivity]].
  eexists. split; [reflexivity|]. right. split; [reflexivity|].
  split; [reflexivity|]. cbn.
  destruct (K (messageContent c)) as [->|(T & ->)]; [left; reflexivity|].
  right. do 4 eexists. split; [exact E2|]. split; [simpl; auto|]. auto.
Qed.

End RouteSafety.

Lemma payment_transaction_needs_valid_signature_witness :
  In (executeOf (samplePayment 2))
     (calls (serve obliging (sampleHandler PaymentEndpoint (samplePayment 2)) false))
  /\ paymentFieldsPresent (samplePayment 2) = true
  /\ exists reason, obliging [] (verifyOf (samplePayment 2)) = Returned (true, reason).
Proof.
  assert (I : In (executeOf (samplePayment 2))
                (calls (serve obliging (sampleHandler PaymentEndpoint (samplePayment 2))
                          false)))
    by (simpl; auto).
  split; [exact I|].
  exact (@payment_transaction_needs_valid_signature (lit "gpt-oss-120b-f16") noStage
           noStage noBody noStage (Returned (lit "0xFacilitator")) obliging
           (samplePayment 2) false (executeOf (samplePayment 2)) I eq_refl).
Defined.

Lemma payment_success_needs_receipt_witness :
  exists reason tx rc,
    obliging [] (verifyOf (samplePayment 4)) = Returned (true, reason)
    /\ obliging [verifyOf (samplePayment 4)] (executeOf (samplePayment 4)) = Returned tx
    /\ obliging [executeOf (samplePayment 4); verifyOf (samplePayment 4)] (Wait tx)
       = Returned rc
    /\ receiptStatus rc = 1%Z
    /\ prop "success" [("success"%string, VBool true);
                       ("txHash"%string, VString (lit "0xabc"));
                       ("result"%string, VUndefined)] = VBool true
    /\ prop "txHash" [("success"%string, VBool true);
                      ("txHash"%string, VString (lit "0xabc"));
                      ("result"%string, VUndefined)] = VString (receiptHash rc).
Proof.
  exact (@payment_success_needs_receipt (lit "gpt-oss-120b-f16") noStage noStage noBody
           noStage (Returned (lit "0xFacilitator")) obliging (samplePayment 4) false
           (res_json [("success"%string, VBool true);
                      ("txHash"%string, VString (lit "0xabc"));
                      ("result"%string, VUndefined)]) eq_refl eq_refl).
Defined.

Lemma payment_confirmed_runs_orchestrator_witness :
  serve obliging
    (paymentRoute (lit "gpt-oss-120b-f16") failingStage noStage noBody noStage
       (Returned (lit "0xFacilitator")) (samplePayment 1)) false
  = ((Returned (failure 500 "Internal server error"), false),
     [verifyOf (samplePayment 1); executeOf (samplePayment 1); Wait (mkTx (lit "0xabc"))]).
Proof.
  rewrite (@payment_confirmed_runs_orchestrator (lit "gpt-oss-120b-f16") failingStage
             noStage noBody noStage (Returned (lit "0xFacilitator")) obliging
             (samplePayment 1) (lit "0xFacilitator") [] (mkTx (lit "0xabc"))
             (mkReceipt 1 (lit "0xabc")) false eq_refl eq_refl eq_refl eq_refl eq_refl
             eq_refl eq_refl eq_refl).
  reflexivity.
Defined.


Lemma transferFrom_only_when_covered_witness :
  In (TransferFrom (VString (lit "0xUser")) (lit "0xFacilitator") 15000000)
     (calls (serve funded (sampleHandler ExecutePaymentEndpoint sampleTransfer) false))
  /\ exists allowance balance,
       funded [] (Allowance (VString (lit "0xUser")) (lit "0xFacilitator"))
       = Returned allowance
       /\ funded [Allowance (VString (lit "0xUser")) (lit "0xFacilitator")]
            (BalanceOf (VString (lit "0xUser"))) = Returned balance
       /\ (15000000 <= allowance)%Z /\ (15000000 <= balance)%Z.
Proof.
  assert (I : In (TransferFrom (VString (lit "0xUser")) (lit "0xFacilitator") 15000000)
                (calls (serve funded (sampleHandler ExecutePaymentEndpoint sampleTransfer)
                          false)))
    by (simpl; auto).
  split; [exact I|].
  exact (proj2 (proj2 (proj2 (proj2
           (@transferFrom_only_when_covered (Returned (lit "0xFacilitator")) wholeNumber
              funded sampleTransfer false (VString (lit "0xUser")) (lit "0xFacilitator")
              15000000%Z I))))).
Defined.

Lemma execute_payment_success_needs_receipt_witness :
  statusOf (serve funded (sampleHandler ExecutePaymentEndpoint sampleTransfer) false)
  = Some 200%Z
  /\ exists wallet amount tx rc,
       Returned (lit "0xFacilitator") = Returned wallet
       /\ TIERS (wholeNumber (prop "tier" sampleTransfer)) = Some amount
       /\ funded [BalanceOf (prop "userAddress" sampleTransfer);
                  Allowance (prop "userAddress" sampleTransfer) wallet]
            (TransferFrom (prop "userAddress" sampleTransfer) wallet amount) = Returned tx
       /\ funded [TransferFrom (prop "userAddress" sampleTransfer) wallet amount;
                  BalanceOf (prop "userAddress" sampleTransfer);
                  Allowance (prop "userAddress" sampleTransfer) wallet]
            (Wait tx) = Returned rc
       /\ receiptStatus rc = 1%Z
       /\ prop "txHash"
            (payload (res_json
                        [("success"%string, VBool true);
                         ("contentId"%string, VString (lit "linkid-0-0"));
                         ("txHash"%string, VString (lit "0xdef"));
                         ("content"%string,
                          VObject [("tier"%string, VNumber 2);
                                   ("title"%string, VString (lit "AI Generated Content"));
                                   ("content"%string,
                                    VString (lit "Content generation triggered successfully via permissionless flow."))])]))
          = VString (receiptHash rc).
Proof.
  split; [reflexivity|].
  exact (@execute_payment_success_needs_receipt (Returned (lit "0xFacilitator"))
           wholeNumber funded sampleTransfer false _ eq_refl eq_refl).
Defined.

Lemma execute_payment_reverted_witness :
  serve reverting (sampleHandler ExecutePaymentEndpoint sampleTransfer) false
  = ((Returned (failure 500 "Transaction reverted"), false),
     [Allowance (VString (lit "0xUser")) (lit "0xFacilitator");
      BalanceOf (VString (lit "0xUser"));
      TransferFrom (VString (lit "0xUser")) (lit "0xFacilitator") 15000000;
      Wait (mkTx (lit "0xdef"))]).
Proof.
  apply (@execute_payment_reverted (Returned (lit "0xFacilitator")) wholeNumber reverting
           sampleTransfer (lit "0xFacilitator") 15000000%Z 50000000%Z 50000000%Z
           (mkTx (lit "0xdef")) (mkReceipt 0 (lit "0xdef")) false);
    try reflexivity; try discriminate; lia.
Defined.

Lemma faucet_transfer_shape_witness :
  In (Transfer (VString (lit "0xUser")) 100000000 0)
     (calls (serve obliging
               (sampleHandler FaucetEndpoint [("userAddress"%string, VString (lit "0xUser"))])
               false))
  /\ exists wallet,
       Returned (lit "0xFaucet") = Returned wallet
       /\ obliging [] (GetTransactionCount wallet) = Returned 0%Z.
Proof.
  assert (I : In (Transfer (VString (lit "0xUser")) 100000000 0)
                (calls (serve obliging
                          (sampleHandler FaucetEndpoint
                             [("userAddress"%string, VString (lit "0xUser"))]) false)))
    by (simpl; auto).
  split; [exact I|].
  exact (proj2 (proj2
           (@faucet_transfer_shape (Returned (lit "0xFaucet")) obliging
              [("userAddress"%string, VString (lit "0xUser"))] false
              (VString (lit "0xUser")) 100000000%Z 0%Z I))).
Defined.


Lemma grant_message_rejects_non_text_witness :
  serve obliging
    (grantMessageRoute [("address"%string, VArray [VString (lit "0xA"); VString (lit "0xB")])])
    false
  = ((Returned (res_status_json 400
                  [("error"%string, VString (lit "Missing wallet address"))]), false), []).
Proof.
  apply (@grant_message_rejects_non_text obliging
           [("address"%string, VArray [VString (lit "0xA"); VString (lit "0xB")])] false).
  intros s E. discriminate E.
Defined.

Lemma grant_message_relayed_witness :
  serve obliging (grantMessageRoute [("address"%string, VString (lit "0xUser"))]) false
  = ((Returned (res_json [("message"%string, VString (lit "grant"))]), false),
     [FetchGrantMessage (lit "0xUser")]).
Proof.
  apply (@grant_message_relayed obliging [("address"%string, VString (lit "0xUser"))]
           false (lit "0xUser") eq_refl).
  discriminate.
Defined.

(** * Further properties of the normaliser *)

(** ** Texts without a code fence *)

Lemma strip_absent (ic : bool) (p repl s : jsstring) :
  ~ In BACKTICK s -> replaceAll ic (Lit (BACKTICK :: p)) repl s = s.
Proof.
  intro N. unfold replaceAll.
  apply (@replaceAll_no_match ic (Lit (BACKTICK :: p)) repl
           (fun s => ~ In BACKTICK s)); [| |exact N].
  - intros c s' H K. apply H. right. exact K.
  - intros b s' H. rewrite match_at_Lit by discriminate.
    destruct s' as [|x s']; [reflexivity|].
    cbn [prefix_matches].
    destruct (char_matches ic BACKTICK x) eqn:C; [|reflexivity].
    apply char_matches_backtick in C. exfalso. apply H. left. exact C.
Qed.

Lemma cleanText_no_fence (s : jsstring) :
  ~ In BACKTICK s -> AiService.cleanText s = trim s.
Proof.
  intro N. unfold AiService.cleanText, AiService.re_fence_json, AiService.re_fence.
  change (lit "```json") with (BACKTICK :: lit "``json").
  change (lit "```") with (BACKTICK :: lit "``").
  rewrite (@strip_absent true _ [] s N). rewrite (@strip_absent false _ [] s N).
  reflexivity.
Qed.

Lemma normalise_valid_array (s : jsstring) (l : list json) :
  JSON_parse s = Some (JArray l) -> ~ In BACKTICK s ->
  AiService.cleanAndParseJSON s = l.
Proof.
  intros H N. unfold AiService.cleanAndParseJSON.
  rewrite cleanText_no_fence by exact N.
  rewrite (extractJSON_valid _ H). reflexivity.
Qed.

(** X17.  A text that is a JSON array, and holds no backtick, is normalised to
    the elements [JSON.parse] reads from it, whatever they are; and so is
    that text between a [```json] fence and a [```] fence. *)
Theorem cleanAndParseJSON_valid_array (s : jsstring) (l : list json) :
  JSON_parse s = Some (JArray l) ->
  ~ In BACKTICK s ->
  AiService.cleanAndParseJSON s = l
  /\ forall w1 w2, whitespace w1 -> whitespace w2 ->
       AiService.cleanAndParseJSON (fenced w1 s w2) = l.
Proof.
  intros H N. pose proof (@normalise_valid_array s l H N) as E.
  split; [exact E|].
  intros w1 w2 W1 W2. rewrite (@fenced_normalises_alike w1 s w2 l H W1 W2). exact E.
Qed.

(** ** An array inside prose *)

Lemma trimStart_keeps (pre : jsstring) (c : code_unit) (r : jsstring) :
  isWhiteSpace c = false ->
  exists pre', trimStart (pre ++ c :: r) = pre' ++ c :: r
               /\ forall x, In x pre' -> In x pre.
Proof.
  intro W. induction pre as [|x pre (pre' & E & I)]; simpl.
  - rewrite W. exists []. split; [reflexivity|]. intros x [].
  - destruct (isWhiteSpace x).
    + exists pre'. split; [exact E|]. intros y K. right. apply I. exact K.
    + exists (x :: pre). split; [reflexivity|]. intros y K. exact K.
Qed.

Lemma trimEnd_keeps (a : jsstring) (c : code_unit) (post : jsstring) :
  isWhiteSpace c = false ->
  exists post', trimEnd (a ++ c :: post) = a ++ c :: post'
                /\ forall x, In x post' -> In x post.
Proof.
  intro W. unfold trimEnd. rewrite rev_app_distr. simpl rev.
  rewrite <- app_assoc. simpl app.
  destruct (@trimStart_keeps (rev post) c (rev a) W) as (p & E & I).
  rewrite E. exists (rev p). split.
  - rewrite rev_app_distr. simpl rev. rewrite rev_involutive, <- app_assoc.
    reflexivity.
  - intros x K. apply in_rev in K. apply I in K. apply in_rev in K. exact K.
Qed.

Lemma bracket_not_ws : isWhiteSpace LBRACKET = false /\ isWhiteSpace RBRACKET = false.
Proof. split; reflexivity. Qed.

Lemma indexOf_from_app (c : code_unit) (a r : jsstring) :
  ~ In c a -> forall i, indexOf_from c (a ++ c :: r) i = (i + Z.of_nat (List.length a))%Z.
Proof.
  induction a as [|x a IH]; intros N i; simpl indexOf_from.
  - rewrite cu_eqb_refl. simpl. lia.
  - destruct (cu_eqb x c) eqn:E.
    + apply cu_eqb_eq in E. exfalso. apply N. left. exact E.
    + rewrite IH by (intro K; apply N; right; exact K).
      simpl List.length. lia.
Qed.

Lemma lastIndexOf_from_absent (c : code_unit) (z : jsstring) :
  ~ In c z -> forall i f, lastIndexOf_from c z i f = f.
Proof.
  induction z as [|x z IH]; intros N i f; simpl; auto.
  destruct (cu_eqb x c) eqn:E.
  - apply cu_eqb_eq in E. exfalso. apply N. left. exact E.
  - apply IH. intro K. apply N. right. exact K.
Qed.

Lemma lastIndexOf_from_app (c : code_unit) (a z : jsstring) :
  ~ In c z ->
  forall i f, lastIndexOf_from c (a ++ c :: z) i f = (i + Z.of_nat (List.length a))%Z.
Proof.
  intro N. induction a as [|x a IH]; intros i f; simpl lastIndexOf_from.
  - rewrite cu_eqb_refl. rewrite lastIndexOf_from_absent by exact N. simpl. lia.
  - rewrite IH. simpl List.length. lia.
Qed.

Lemma substring_middle (a b z : jsstring) :
  substring (a ++ b ++ z) (Z.of_nat (List.length a))
    (Z.of_nat (List.length a) + Z.of_nat (List.length b)) = b.
Proof.
  unfold substring. rewrite !length_app.
  set (la := List.length a). set (lb := List.length b). set (lz := List.length z).
  replace (Z.min (Z.max (Z.of_nat la) 0) (Z.of_nat (la + (lb + lz))))
    with (Z.of_nat la) by lia.
  replace (Z.min (Z.max (Z.of_nat la + Z.of_nat lb) 0) (Z.of_nat (la + (lb + lz))))
    with (Z.of_nat la + Z.of_nat lb)%Z by lia.
  replace (Z.min (Z.of_nat la) (Z.of_nat la + Z.of_nat lb)) with (Z.of_nat la) by lia.
  replace (Z.max (Z.of_nat la) (Z.of_nat la + Z.of_nat lb))
    with (Z.of_nat la + Z.of_nat lb)%Z by lia.
  replace (Z.of_nat la + Z.of_nat lb - Z.of_nat la)%Z with (Z.of_nat lb) by lia.
  rewrite !Nat2Z.id. subst la lb.
  rewrite skipn_app, skipn_all, Nat.sub_diag. simpl.
  rewrite firstn_app, firstn_all, Nat.sub_diag. simpl. apply app_nil_r.
Qed.

(** The bracketed part of a text whose first opening bracket comes before
    its last closing bracket. *)
Lemma bracketed_part (a mid z : jsstring) :
  ~ In LBRACKET a -> ~ In RBRACKET z ->
  bracketed (a ++ LBRACKET :: mid ++ RBRACKET :: z) = true
  /\ substring (a ++ LBRACKET :: mid ++ RBRACKET :: z)
       (indexOf LBRACKET (a ++ LBRACKET :: mid ++ RBRACKET :: z))
       (lastIndexOf RBRACKET (a ++ LBRACKET :: mid ++ RBRACKET :: z) + 1)
     = LBRACKET :: mid ++ [RBRACKET].
Proof.
  intros Na Nz.
  assert (I : indexOf LBRACKET (a ++ LBRACKET :: mid ++ RBRACKET :: z)
              = Z.of_nat (List.length a)).
  { unfold indexOf. rewrite indexOf_from_app by exact Na. lia. }
  assert (L : lastIndexOf RBRACKET (a ++ LBRACKET :: mid ++ RBRACKET :: z)
              = Z.of_nat (List.length (a ++ LBRACKET :: mid))).
  { unfold lastIndexOf.
    replace (a ++ LBRACKET :: mid ++ RBRACKET :: z)
      with ((a ++ LBRACKET :: mid) ++ RBRACKET :: z)
      by (rewrite <- app_assoc; reflexivity).
    rewrite lastIndexOf_from_app by exact Nz. lia. }
  unfold bracketed. rewrite I, L. rewrite length_app. simpl List.length.
  split.
  - apply andb_true_iff. split; [apply andb_true_iff; split|].
    + apply negb_true_iff, Z.eqb_neq. lia.
    + apply negb_true_iff, Z.eqb_neq. lia.
    + apply Z.gtb_lt. lia.
  - replace (a ++ LBRACKET :: mid ++ RBRACKET :: z)
      with (a ++ (LBRACKET :: mid ++ [RBRACKET]) ++ z)
      by (simpl; rewrite <- app_assoc; reflexivity).
    replace (Z.of_nat (List.length a + S (List.length mid)) + 1)%Z
      with (Z.of_nat (List.length a)
            + Z.of_nat (List.length (LBRACKET :: mid ++ [RBRACKET])))%Z
      by (simpl List.length; rewrite length_app; simpl; lia).
    apply substring_middle.
Qed.

Lemma extractJSON_unfold (cleaned : jsstring) :
  AiService.extractJSON cleaned
  = if bracketed cleaned
    then match JSON_parse (substring cleaned (indexOf LBRACKET cleaned)
                             (lastIndexOf RBRACKET cleaned + 1)) with
         | None => None
         | Some (JArray parsed) => Some parsed
         | Some _ => AiService.parseRepaired cleaned
         end
    else AiService.parseRepaired cleaned.
Proof. reflexivity. Qed.

Lemma normalise_array_in_prose (pre mid post : jsstring) (l : list json) :
  ~ In LBRACKET pre -> ~ In RBRACKET post ->
  ~ In BACKTICK (pre ++ LBRACKET :: mid ++ RBRACKET :: post) ->
  JSON_parse (LBRACKET :: mid ++ [RBRACKET]) = Some (JArray l) ->
  AiService.cleanAndParseJSON (pre ++ LBRACKET :: mid ++ RBRACKET :: post) = l.
Proof.
  intros Npre Npost Nb P.
  unfold AiService.cleanAndParseJSON. rewrite cleanText_no_fence by exact Nb.
  destruct bracket_not_ws as [WL WR].
  destruct (@trimStart_keeps pre LBRACKET (mid ++ RBRACKET :: post) WL)
    as (pre' & E1 & I1).
  unfold trim. rewrite E1.
  replace (pre' ++ LBRACKET :: mid ++ RBRACKET :: post)
    with ((pre' ++ LBRACKET :: mid) ++ RBRACKET :: post)
    by (rewrite <- app_assoc; reflexivity).
  destruct (@trimEnd_keeps (pre' ++ LBRACKET :: mid) RBRACKET post WR)
    as (post' & E2 & I2).
  rewrite E2. rewrite <- app_assoc. simpl app.
  assert (Na : ~ In LBRACKET pre') by (intro K; apply Npre, I1, K).
  assert (Nz : ~ In RBRACKET post') by (intro K; apply Npost, I2, K).
  destruct (@bracketed_part pre' mid post' Na Nz) as [B S].
  rewrite extractJSON_unfold, B, S, P. reflexivity.
Qed.

(** X18.  An array that stands inside prose is found: when the text before the
    first opening bracket and the text after the last closing bracket hold
    no bracket of that kind, and no backtick occurs, the result is the
    elements of the bracketed part. *)
Theorem cleanAndParseJSON_array_in_prose (pre mid post : jsstring) (l : list json) :
  ~ In LBRACKET pre -> ~ In RBRACKET post ->
  ~ In BACKTICK (pre ++ LBRACKET :: mid ++ RBRACKET :: post) ->
  JSON_parse (LBRACKET :: mid ++ [RBRACKET]) = Some (JArray l) ->
  AiService.cleanAndParseJSON (pre ++ LBRACKET :: mid ++ RBRACKET :: post) = l.
Proof. apply normalise_array_in_prose. Qed.

(** ** The repaired parse

    A text that starts with an opening bracket parses to an array or not
    at all. *)

Lemma array_rooted_push (f : JSON.frame) (stk : list JSON.frame) :
  array_rooted stk = true -> array_rooted (f :: stk) = true.
Proof. destruct stk as [|g stk]; simpl; [discriminate|auto]. Qed.

Lemma array_rooted_swap (f g : JSON.frame) (stk : list JSON.frame) :
  (forall d, f <> JSON.FArray d) \/ (exists d, g = JSON.FArray d) ->
  array_rooted (f :: stk) = true -> array_rooted (g :: stk) = true.
Proof.
  intros H. destruct stk as [|h stk]; simpl; auto.
  destruct f as [d|d k]; destruct g as [d'|d' k']; auto;
    destruct H as [H|(d0 & H)]; try discriminate H;
    try (intros _; exfalso; eapply H; reflexivity).
Qed.

Lemma array_rooted_pop (d : list (jsstring * json)) (k : option jsstring)
  (stk : list JSON.frame) :
  array_rooted (JSON.FObject d k :: stk) = true -> array_rooted stk = true.
Proof. destruct stk as [|h stk]; simpl; [discriminate|auto]. Qed.

Lemma complete_array_state (stk : list JSON.frame) (v : json) (st' : JSON.state) :
  array_rooted stk = true \/ (stk = [] /\ exists l, v = JArray l) ->
  JSON.complete stk v = Some st' -> array_state st'.
Proof.
  intros H E. destruct stk as [|[done|done [k|]] stk]; simpl in E;
    inversion E; subst; clear E.
  - destruct H as [H|[_ (l & ->)]]; [discriminate H|].
    right. simpl. eauto.
  - destruct H as [H|[H _]]; [|discriminate H]. left. simpl JSON.stack.
    eapply array_rooted_swap; [|exact H]. right. eauto.
  - destruct H as [H|[H _]]; [|discriminate H]. left. simpl JSON.stack.
    eapply array_rooted_swap; [|exact H]. left. intros d0 K. discriminate K.
Qed.

Lemma close_array_array_state (stk : list JSON.frame) (st' : JSON.state) :
  array_rooted stk = true -> JSON.close_array stk = Some st' -> array_state st'.
Proof.
  intros H E. destruct stk as [|[done|done k] stk]; simpl in E; try discriminate.
  eapply complete_array_state; [|exact E].
  destruct stk as [|g stk]; [right; eauto|left; exact H].
Qed.

Lemma close_object_array_state (stk : list JSON.frame) (st' : JSON.state) :
  array_rooted stk = true -> JSON.close_object stk = Some st' -> array_state st'.
Proof.
  intros H E. destruct stk as [|[done|done [k|]] stk]; simpl in E; try discriminate.
  eapply complete_array_state; [|exact E].
  left. eapply array_rooted_pop. exact H.
Qed.

Lemma step_after_array_state (stk : list JSON.frame) (t : option json)
  (c : code_unit) (st' : JSON.state) :
  array_state (JSON.mkState stk JSON.MAfter t) ->
  JSON.step_after stk t c = Some st' -> array_state st'.
Proof.
  intros H E. unfold JSON.step_after in E.
  destruct (JSON.isJSONWhiteSpace c); [inversion E; subst; exact H|].
  destruct H as [H|(H & _ & _)]; simpl in H.
  - destruct (cu_eqb c COMMA).
    { destruct stk as [|[done|done [k|]] stk]; try discriminate;
        inversion E; subst; left; exact H. }
    destruct (cu_eqb c RBRACKET); [eapply close_array_array_state; eauto|].
    destruct (cu_eqb c RBRACE); [eapply close_object_array_state; eauto|].
    discriminate.
  - subst stk. simpl in E.
    destruct (cu_eqb c COMMA); [discriminate|].
    destruct (cu_eqb c RBRACKET); [discriminate|].
    destruct (cu_eqb c RBRACE); discriminate.
Qed.

Lemma step_value_array_state (stk : list JSON.frame) (c : code_unit)
  (st' : JSON.state) :
  array_rooted stk = true -> JSON.step_value stk c = Some st' -> array_state st'.
Proof.
  intros H E. unfold JSON.step_value in E.
  repeat match type of E with
         | (if ?b then _ else _) = _ => destruct b
         end;
    try discriminate; inversion E; subst; left; simpl JSON.stack;
    auto using array_rooted_push.
Qed.

Lemma step_string_array_state (stk : list JSON.frame) (iskey : bool)
  (buf : jsstring) (esc : JSON.escape) (c : code_unit) (st' : JSON.state) :
  array_rooted stk = true ->
  JSON.step_string stk iskey buf esc c = Some st' -> array_state st'.
Proof.
  intros H E.
  assert (K : forall b e, array_state (JSON.mkState stk (JSON.MString iskey b e) None))
    by (intros b e; left; exact H).
  unfold JSON.step_string in E. destruct esc as [| |k acc].
  - destruct (cu_eqb c DQUOTE).
    + unfold JSON.finish_string in E. destruct iskey.
      * destruct stk as [|[done|done [k|]] stk]; simpl in E; try discriminate.
        inversion E; subst. left. simpl JSON.stack.
        eapply array_rooted_swap; [|exact H]. left. intros d0 K0. discriminate K0.
      * eapply complete_array_state; [|exact E]. left. exact H.
    + destruct (cu_eqb c BACKSLASH); [inversion E; subst; apply K|].
      destruct (c <? 32)%N; [discriminate|]. inversion E; subst; apply K.
  - repeat match type of E with
           | (if ?b then _ else _) = _ => destruct b
           end;
      try discriminate; inversion E; subst; apply K.
  - destruct (JSON.hexValue c); [|discriminate].
    destruct (Nat.eqb k 3); inversion E; subst; apply K.
Qed.

Lemma array_state_step (st st' : JSON.state) (c : code_unit) :
  array_state st -> JSON.step st c = Some st' -> array_state st'.
Proof.
  destruct st as [stk m t]. intros H E.
  unfold JSON.step in E. cbn [JSON.stack JSON.md JSON.top] in E.
  destruct m;
    try (destruct H as [H|(_ & H & _)]; [|discriminate H];
         cbn [JSON.stack] in H).
  - destruct (JSON.isJSONWhiteSpace c); [inversion E; subst; left; exact H|].
    eapply step_value_array_state; eauto.
  - destruct (JSON.isJSONWhiteSpace c); [inversion E; subst; left; exact H|].
    destruct (cu_eqb c RBRACKET); [eapply close_array_array_state; eauto|].
    eapply step_value_array_state; eauto.
  - destruct (JSON.isJSONWhiteSpace c); [inversion E; subst; left; exact H|].
    destruct (cu_eqb c RBRACE); [eapply close_object_array_state; eauto|].
    destruct (cu_eqb c DQUOTE); [|discriminate].
    inversion E; subst; left; exact H.
  - destruct (JSON.isJSONWhiteSpace c); [inversion E; subst; left; exact H|].
    destruct (cu_eqb c DQUOTE); [|discriminate].
    inversion E; subst; left; exact H.
  - destruct (JSON.isJSONWhiteSpace c); [inversion E; subst; left; exact H|].
    destruct (cu_eqb c COLON); [|discriminate].
    inversion E; subst; left; exact H.
  - eapply step_after_array_state; eauto.
  - eapply step_string_array_state; eauto.
  - destruct (JSON.num_next ns c).
    + inversion E; subst. left. exact H.
    + destruct (JSON.num_accepting ns); [|discriminate].
      destruct (JSON.complete stk (JNumber (rev buf))) as [st1|] eqn:C; [|discriminate].
      assert (A1 : array_state st1)
        by (eapply complete_array_state; [left; exact H|exact C]).
      assert (M1 : JSON.md st1 = JSON.MAfter).
      { destruct stk as [|[done|done [k|]] stk]; simpl in C; inversion C; reflexivity. }
      destruct st1 as [stk1 m1 t1]. simpl in M1. subst m1.
      eapply step_after_array_state; [exact A1|exact E].
  - destruct (nth_error (JSON.literal_text l) seen) as [x|]; [|discriminate].
    destruct (cu_eqb c x); [|discriminate].
    destruct (Nat.eqb (S seen) (List.length (JSON.literal_text l))).
    + eapply complete_array_state; [left; exact H|exact E].
    + inversion E; subst. left. exact H.
Qed.

Lemma array_state_run (s : jsstring) :
  forall st st', array_state st -> JSON.run st s = Some st' -> array_state st'.
Proof.
  induction s as [|c s IH]; intros st st' H E; simpl in E.
  - inversion E; subst; exact H.
  - destruct (JSON.step st c) as [st1|] eqn:S; [|discriminate].
    eapply IH; [|exact E]. eapply array_state_step; eauto.
Qed.

Lemma parse_bracket_array (r : jsstring) (v : json) :
  JSON_parse (LBRACKET :: r) = Some v -> exists l, v = JArray l.
Proof.
  unfold JSON_parse, JSON.parse. simpl JSON.run.
  change (JSON.step JSON.initial LBRACKET)
    with (Some (JSON.mkState [JSON.FArray []] JSON.MValueOrEnd None)).
  destruct (JSON.run _ r) as [st|] eqn:R; [|discriminate].
  assert (A : array_state st).
  { eapply array_state_run; [|exact R]. left. reflexivity. }
  intro F. destruct st as [stk m t]. unfold JSON.finalize in F.
  cbn [JSON.stack JSON.md JSON.top] in F.
  destruct A as [A|(_ & A & (l & T))]; cbn [JSON.stack JSON.md JSON.top] in *.
  - destruct stk; [discriminate A|discriminate F].
  - subst m t. destruct stk; [|discriminate F]. inversion F. eauto.
Qed.

(** What the pattern of the repair matches is white space. *)
Lemma star_greedy_inv (p : code_unit -> bool) (s : jsstring) :
  forall b n (k : cont) r,
    star_greedy p b n s k = Some r ->
    exists j b', j <= List.length s
                 /\ Forall (fun c => p c = true) (firstn j s)
                 /\ k b' (n + j) (skipn j s) = Some r.
Proof.
  induction s as [|c s IH]; intros b n k r H; simpl in H.
  - exists 0, b. rewrite Nat.add_0_r. simpl. auto.
  - destruct (p c) eqn:P.
    + destruct (star_greedy p false (S n) s k) as [r'|] eqn:G.
      * inversion H; subst r'. destruct (IH _ _ _ _ G) as (j & b' & L & F & K).
        exists (S j), b'. simpl. rewrite Nat.add_succ_r. simpl in K.
        split; [lia|]. split; [constructor; auto|exact K].
      * exists 0, b. rewrite Nat.add_0_r. simpl.
        split; [lia|]. split; [constructor|exact H].
    + exists 0, b. rewrite Nat.add_0_r. simpl.
      split; [lia|]. split; [constructor|exact H].
Qed.

Lemma bare_newline_match (b : bool) (s : jsstring) (n : nat) :
  match_at false AiService.re_bare_newline b s = Some n ->
  Forall (fun c => isWhiteSpace c = true) (firstn n s).
Proof.
  unfold match_at, AiService.re_bare_newline. cbn [rmatch].
  destruct s as [|x s]; [discriminate|].
  destruct (char_matches false LF x) eqn:C; [|discriminate].
  unfold char_matches in C. apply cu_eqb_eq in C. subst x.
  intro H. apply star_greedy_inv in H. destruct H as (j & b' & L & F & K).
  destruct (match skipn j s with
            | [] => None
            | x :: s' =>
                if cu_eqb x DQUOTE || cu_eqb x RBRACE || cu_eqb x RBRACKET
                then Some (S (1 + j)) else None
            end); [discriminate|].
  inversion K; subst n. simpl. constructor; [reflexivity|exact F].
Qed.

Lemma brackets_app (a b : jsstring) : brackets (a ++ b) = brackets a ++ brackets b.
Proof. apply filter_app. Qed.

Lemma brackets_ws (w : jsstring) : whitespace w -> brackets w = [].
Proof.
  induction 1 as [|c w W _ IH]; [reflexivity|].
  unfold brackets in *. simpl. rewrite IH.
  replace (isBracket c) with false; [reflexivity|].
  symmetry. unfold isBracket. apply orb_false_iff.
  split; apply cu_eqb_neq; intro K; subst c; discriminate W.
Qed.

Lemma brackets_cons (c : code_unit) (s : jsstring) :
  brackets (c :: s) = brackets [c] ++ brackets s.
Proof. apply (brackets_app [c] s). Qed.

(** The repair leaves the brackets of the text as they are. *)
Lemma repair_brackets (s : jsstring) :
  forall b skip,
    brackets (replaceAll_from false AiService.re_bare_newline (lit "\n") b skip s)
    = brackets (skipn skip s).
Proof.
  induction s as [|c s IH]; intros b skip.
  - destruct skip; simpl; [|reflexivity].
    destruct (match_at false AiService.re_bare_newline b []) as [[|n]|]; reflexivity.
  - destruct skip as [|k]; [|simpl; apply IH].
    cbn [replaceAll_from skipn].
    destruct (match_at false AiService.re_bare_newline b (c :: s)) as [[|n]|] eqn:M.
    + rewrite brackets_app. change (brackets (lit "\n")) with (@nil code_unit).
      simpl. rewrite IH. reflexivity.
    + apply bare_newline_match in M.
      rewrite brackets_app. change (brackets (lit "\n")) with (@nil code_unit).
      rewrite IH. simpl app.
      rewrite <- (firstn_skipn (S n) (c :: s)) at 1.
      rewrite brackets_app, (brackets_ws M). reflexivity.
    + match goal with
      | |- brackets (c :: ?x) = _ => rewrite (brackets_cons c x)
      end.
      rewrite (brackets_cons c s), IH. reflexivity.
Qed.

Lemma filter_first (A : Type) (p : A -> bool) (s : list A) (x : A) (t : list A) :
  filter p s = x :: t ->
  exists a r, s = a ++ x :: r /\ (forall y, In y a -> p y = false) /\ filter p r = t.
Proof.
  induction s as [|c s IH]; simpl; [discriminate|].
  destruct (p c) eqn:P.
  - intro H. inversion H; subst. exists [], s. split; [reflexivity|].
    split; [intros y []|reflexivity].
  - intro H. destruct (IH H) as (a & r & E & F & G).
    exists (c :: a), r. split; [simpl; congruence|].
    split; [|exact G]. intros y [K|K]; [subst; exact P|apply F; exact K].
Qed.

Lemma filter_last (A : Type) (p : A -> bool) (s : list A) (x : A) (t : list A) :
  filter p s = t ++ [x] ->
  exists a r, s = a ++ x :: r /\ (forall y, In y r -> p y = false).
Proof.
  intro H.
  assert (R : filter p (rev s) = x :: rev t).
  { rewrite <- (rev_involutive (filter p (rev s))).
    rewrite <- filter_rev, rev_involutive, H, rev_app_distr. reflexivity. }
  destruct (@filter_first _ _ _ _ _ R) as (a & r & E & F & _).
  exists (rev r), (rev a). split.
  - rewrite <- (rev_involutive s), E, rev_app_distr. simpl.
    rewrite <- app_assoc. reflexivity.
  - intros y K. apply F. apply in_rev. exact K.
Qed.

Lemma not_bracket (a : jsstring) :
  (forall y, In y a -> isBracket y = false) ->
  ~ In LBRACKET a /\ ~ In RBRACKET a.
Proof. intro F. split; intro K; apply F in K; discriminate K. Qed.

(** A text whose brackets start with an opening one and end with a closing
    one has its first opening bracket before its last closing bracket. *)
Lemma brackets_bracketed (s x : jsstring) :
  brackets s = LBRACKET :: x ++ [RBRACKET] -> bracketed s = true.
Proof.
  intro H. destruct (@filter_first _ _ _ _ _ H) as (a & r & E & Fa & G).
  destruct (@filter_last _ _ _ _ _ G) as (a2 & z & E2 & Fz).
  subst r s. apply not_bracket in Fa. apply not_bracket in Fz.
  apply bracketed_part; tauto.
Qed.

Lemma parseRepaired_bracketed (cleaned : jsstring) (l : list json) :
  AiService.parseRepaired cleaned = Some l -> bracketed cleaned = true.
Proof.
  unfold AiService.parseRepaired.
  destruct (JSON_parse _) as [[| | | |parsed|]|] eqn:P; try discriminate.
  intros _. destruct (parse_array_trim _ P) as (mid & T & _).
  set (fixed := replaceAll false AiService.re_bare_newline (lit "\n") cleaned) in *.
  assert (B : brackets fixed = brackets (trim fixed)).
  { destruct (trimStart_split fixed) as (w1 & E1 & W1).
    destruct (trimEnd_split (trimStart fixed)) as (w2 & E2 & W2).
    rewrite E1 at 1. rewrite E2 at 1.
    rewrite !brackets_app, (brackets_ws W1), (brackets_ws W2), app_nil_r.
    reflexivity. }
  assert (C : brackets fixed = brackets cleaned).
  { unfold fixed, replaceAll. rewrite repair_brackets. reflexivity. }
  rewrite T in B. rewrite C in B.
  apply (@brackets_bracketed cleaned (brackets mid)).
  rewrite B. unfold brackets. simpl. rewrite filter_app. reflexivity.
Qed.

Lemma indexOf_from_found (c : code_unit) (s : jsstring) :
  forall i, indexOf_from c s i <> (-1)%Z \/ In c s ->
    (0 <= i)%Z ->
    exists a r, s = a ++ c :: r /\ ~ In c a
                /\ indexOf_from c s i = (i + Z.of_nat (List.length a))%Z.
Proof.
  induction s as [|x s IH]; intros i H P; simpl in *.
  - destruct H as [H|[]]. congruence.
  - destruct (cu_eqb x c) eqn:E.
    + apply cu_eqb_eq in E. subst x. exists [], s.
      split; [reflexivity|]. split; [intros []|simpl; lia].
    + destruct (IH (i + 1)%Z) as (a & r & E1 & N & I).
      { destruct H as [H|[H|H]]; auto.
        apply cu_eqb_neq in E. contradiction. }
      { lia. }
      exists (x :: a), r. split; [simpl; congruence|].
      split.
      * intros [K|K]; [apply cu_eqb_neq in E; contradiction|contradiction].
      * rewrite I. simpl List.length. lia.
Qed.

(** X19.  The newline repair never yields a result.  Whenever the JSON stage of
    [cleanAndParseJSON] succeeds, the cleaned text has its first opening
    bracket before its last closing bracket and the result is what
    [JSON.parse] reads from the text between the two: the repaired parse is
    reached only for texts on which it fails. *)
Theorem repair_never_succeeds (cleaned : jsstring) (l : list json) :
  AiService.extractJSON cleaned = Some l ->
  bracketed cleaned = true
  /\ JSON_parse (substring cleaned (indexOf LBRACKET cleaned)
                   (lastIndexOf RBRACKET cleaned + 1)) = Some (JArray l).
Proof.
  rewrite extractJSON_unfold.
  destruct (bracketed cleaned) eqn:B.
  2:{ intro H. apply parseRepaired_bracketed in H. congruence. }
  intro H. split; [reflexivity|].
  destruct (JSON_parse _) as [v|] eqn:P; [|discriminate].
  assert (A : exists l', v = JArray l').
  { unfold bracketed in B.
    apply andb_true_iff in B. destruct B as [B B3].
    apply andb_true_iff in B. destruct B as [B1 B2].
    apply negb_true_iff, Z.eqb_neq in B1. apply Z.gtb_lt in B3.
    destruct (@indexOf_from_found LBRACKET cleaned 0%Z) as (a & r & E & N & I);
      [left; exact B1|lia|].
    fold (indexOf LBRACKET cleaned) in I.
    rewrite I in B3, P. clear I B1 B2. subst cleaned.
    revert P. unfold substring.
    rewrite length_app. simpl List.length.
    set (la := List.length a) in *. set (lr := List.length r).
    set (j := lastIndexOf RBRACKET (a ++ LBRACKET :: r)) in *.
    replace (Z.min (Z.max (0 + Z.of_nat la) 0) (Z.of_nat (la + S lr)))
      with (Z.of_nat la) by lia.
    assert (Q : exists m, Z.min (Z.max (j + 1) 0) (Z.of_nat (la + S lr))
                          = (Z.of_nat la + Z.of_nat (S m))%Z).
    { exists (Z.to_nat (Z.min (Z.max (j + 1) 0) (Z.of_nat (la + S lr)) - Z.of_nat la - 1)).
      lia. }
    destruct Q as (m & ->).
    replace (Z.min (Z.of_nat la) (Z.of_nat la + Z.of_nat (S m))) with (Z.of_nat la) by lia.
    replace (Z.max (Z.of_nat la) (Z.of_nat la + Z.of_nat (S m)))
      with (Z.of_nat la + Z.of_nat (S m))%Z by lia.
    replace (Z.of_nat la + Z.of_nat (S m) - Z.of_nat la)%Z with (Z.of_nat (S m)) by lia.
    rewrite !Nat2Z.id. subst la.
    rewrite skipn_app, skipn_all, Nat.sub_diag. simpl.
    apply parse_bracket_array. }
  destruct A as (l' & ->). congruence.
Qed.

Lemma absent_by_eqb (c : code_unit) (s : jsstring) :
  existsb (cu_eqb c) s = false -> ~ In c s.
Proof.
  intros E K. assert (T : existsb (cu_eqb c) s = true).
  { apply existsb_exists. exists c. split; [exact K|apply cu_eqb_refl]. }
  congruence.
Qed.

Lemma cleanAndParseJSON_valid_array_witness :
  AiService.cleanAndParseJSON abc_array = strings [lit "a"; lit "b"; lit "c"]
  /\ AiService.cleanAndParseJSON (fenced [LF] abc_array [LF])
     = strings [lit "a"; lit "b"; lit "c"].
Proof.
  assert (P : JSON_parse abc_array = Some (JArray (strings [lit "a"; lit "b"; lit "c"])))
    by reflexivity.
  assert (N : ~ In BACKTICK abc_array) by (apply absent_by_eqb; reflexivity).
  destruct (@cleanAndParseJSON_valid_array abc_array _ P N) as [A B].
  split; [exact A|].
  apply B; repeat constructor.
Defined.

Lemma cleanAndParseJSON_array_in_prose_witness :
  AiService.cleanAndParseJSON
    (lit "Sure, here you go: " ++ LBRACKET :: ab_members ++ RBRACKET :: lit " Enjoy!")
  = strings [lit "a"; lit "b"].
Proof.
  apply (@cleanAndParseJSON_array_in_prose (lit "Sure, here you go: ") ab_members
           (lit " Enjoy!") (strings [lit "a"; lit "b"])).
  - apply absent_by_eqb; reflexivity.
  - apply absent_by_eqb; reflexivity.
  - apply absent_by_eqb; reflexivity.
  - reflexivity.
Defined.

Lemma repair_never_succeeds_witness :
  bracketed abc_array = true
  /\ JSON_parse (substring abc_array (indexOf LBRACKET abc_array)
                   (lastIndexOf RBRACKET abc_array + 1))
     = Some (JArray (strings [lit "a"; lit "b"; lit "c"])).
Proof.
  apply (@repair_never_succeeds abc_array (strings [lit "a"; lit "b"; lit "c"])).
  reflexivity.
Defined.

(** * The earlier cleaner *)

Lemma split_from_length (ic : bool) (r : regex) (s : jsstring) :
  forall b skip cur p,
    In p (split_from ic r b skip cur s) ->
    List.length p <= List.length cur + List.length s.
Proof.
  induction s as [|c s IH]; intros b skip cur p H.
  - simpl in H. destruct H as [H|[]]. subst p. rewrite length_rev. lia.
  - cbn [split_from] in H. simpl List.length. destruct skip as [|k].
    + destruct (match_at ic r b (c :: s)) as [[|n]|].
      * destruct cur as [|x cur].
        -- apply IH in H. simpl in *. lia.
        -- destruct H as [H|H];
             [subst p; rewrite length_rev; lia|apply IH in H; simpl in *; lia].
      * destruct H as [H|H];
          [subst p; rewrite length_rev; lia|apply IH in H; simpl in *; lia].
      * apply IH in H. simpl in *. lia.
    + apply IH in H. lia.
Qed.

Lemma split_re_length (ic : bool) (r : regex) (s p : jsstring) :
  In p (split_re ic r s) -> List.length p <= List.length s.
Proof.
  unfold split_re. destruct s as [|c s].
  - destruct (match_at ic r true []); simpl; [intros []|].
    intros [H|[]]. subst p. simpl. lia.
  - intro H. apply split_from_length in H. simpl in *. lia.
Qed.

Lemma filter_none (A : Type) (f : A -> bool) (l : list A) :
  (forall x, In x l -> f x = false) -> filter f l = [].
Proof.
  induction l as [|x l IH]; intro H; simpl; [reflexivity|].
  rewrite (H x) by (left; reflexivity). apply IH. intros y K. apply H. right. exact K.
Qed.

Lemma array_match_absent (s : jsstring) :
  ~ In LBRACKET s -> forall b, exec_from false AiServiceGrant.re_array b s = None.
Proof.
  induction s as [|x s IH]; intros N b; simpl.
  - reflexivity.
  - unfold match_at, AiServiceGrant.re_array. cbn [rmatch].
    destruct (char_matches false LBRACKET x) eqn:C.
    + unfold char_matches in C. apply cu_eqb_eq in C. exfalso. apply N. left.
      symmetry. exact C.
    + apply IH. intro K. apply N. right. exact K.
Qed.

(** X22.  The earlier cleaner loses a short answer: a text of at most ten code
    units that holds no opening bracket is normalised to the empty
    sequence. *)
Theorem grant_cleaner_loses_short_text (text : jsstring) :
  List.length text <= 10 -> ~ In LBRACKET text ->
  AiServiceGrant.cleanAndParseJSON text = [].
Proof.
  intros L N. unfold AiServiceGrant.cleanAndParseJSON, AiServiceGrant.arrayOf, exec.
  rewrite array_match_absent
    by (intro K; apply N; apply cleanText_incl; exact K).
  assert (E : AiServiceGrant.linesOf text = []).
  { unfold AiServiceGrant.linesOf.
    rewrite (@filter_none _ (fun l => 10 <? List.length l)); [reflexivity|].
    intros x K. apply in_map_iff in K. destruct K as (p & <- & K).
    apply split_re_length in K. pose proof (trim_length p).
    apply Nat.ltb_ge. lia. }
  rewrite E. reflexivity.
Qed.

(** The lazy pattern of the earlier cleaner stops at the first closing
    bracket. *)
Lemma star_lazy_to_bracket (mid post : jsstring) :
  ~ In RBRACKET mid ->
  forall b n,
    star_lazy (fun _ => true) b n (mid ++ RBRACKET :: post)
      (fun b' n' s' => rmatch false (Char RBRACKET) b' n' s' (fun _ m _ => Some m))
    = Some (S (n + List.length mid)).
Proof.
  induction mid as [|x mid IH]; intros N b n.
  - cbn [app star_lazy rmatch List.length].
    change (char_matches false RBRACKET RBRACKET) with true. cbn iota.
    rewrite Nat.add_0_r. reflexivity.
  - cbn [app star_lazy rmatch].
    destruct (char_matches false RBRACKET x) eqn:C.
    + unfold char_matches in C. apply cu_eqb_eq in C. exfalso. apply N. left.
      symmetry. exact C.
    + rewrite IH by (intro K; apply N; right; exact K).
      simpl List.length. rewrite Nat.add_succ_r. reflexivity.
Qed.

Lemma firstn_through (A : Type) (mid : list A) (c : A) (post : list A) :
  firstn (S (List.length mid)) (mid ++ c :: post) = mid ++ [c].
Proof. induction mid as [|x mid IH]; simpl; [reflexivity|]. f_equal. exact IH. Qed.

Lemma array_match_first (pre mid post : jsstring) :
  ~ In LBRACKET pre -> ~ In RBRACKET mid ->
  forall b,
    exec_from false AiServiceGrant.re_array b (pre ++ LBRACKET :: mid ++ RBRACKET :: post)
    = Some (LBRACKET :: mid ++ [RBRACKET]).
Proof.
  intros Np Nm. induction pre as [|x pre IH]; intro b.
  - cbn [app exec_from]. unfold match_at, AiServiceGrant.re_array. cbn [rmatch].
    change (char_matches false LBRACKET LBRACKET) with true. cbn iota.
    rewrite star_lazy_to_bracket by exact Nm.
    f_equal. cbn [Nat.add firstn]. f_equal. apply firstn_through.
  - cbn [app exec_from]. unfold match_at at 1, AiServiceGrant.re_array. cbn [rmatch].
    destruct (char_matches false LBRACKET x) eqn:C.
    + unfold char_matches in C. apply cu_eqb_eq in C. exfalso. apply Np. left.
      symmetry. exact C.
    + apply IH. intro K. apply Np. right. exact K.
Qed.

(** X23.  The earlier cleaner finds the first bracketed array inside prose: when
    the text before the first opening bracket holds none, the text up to
    the next closing bracket parses to an array that is not empty, and no
    backtick occurs, the result is the elements of that array - whatever
    follows it.  When no closing bracket follows either, the later
    cleaner returns the same elements. *)
Theorem grant_cleaner_array_in_prose (pre mid post : jsstring) (l : list json) :
  ~ In LBRACKET pre -> ~ In RBRACKET mid ->
  ~ In BACKTICK (pre ++ LBRACKET :: mid ++ RBRACKET :: post) ->
  JSON_parse (LBRACKET :: mid ++ [RBRACKET]) = Some (JArray l) ->
  l <> [] ->
  AiServiceGrant.cleanAndParseJSON (pre ++ LBRACKET :: mid ++ RBRACKET :: post) = l
  /\ (~ In RBRACKET post ->
      AiService.cleanAndParseJSON (pre ++ LBRACKET :: mid ++ RBRACKET :: post) = l).
Proof.
  intros Npre Nmid Nb P Nl. split.
  - unfold AiServiceGrant.cleanAndParseJSON. rewrite cleanText_no_fence by exact Nb.
    destruct bracket_not_ws as [WL WR].
    destruct (@trimStart_keeps pre LBRACKET (mid ++ RBRACKET :: post) WL)
      as (pre' & E1 & I1).
    unfold trim. rewrite E1.
    replace (pre' ++ LBRACKET :: mid ++ RBRACKET :: post)
      with ((pre' ++ LBRACKET :: mid) ++ RBRACKET :: post)
      by (rewrite <- app_assoc; reflexivity).
    destruct (@trimEnd_keeps (pre' ++ LBRACKET :: mid) RBRACKET post WR)
      as (post' & E2 & I2).
    rewrite E2. rewrite <- app_assoc. simpl app.
    unfold AiServiceGrant.arrayOf, exec.
    rewrite array_match_first;
      [|intro K; apply Npre, I1, K|exact Nmid].
    rewrite P. destruct l as [|v l]; [congruence|]. reflexivity.
  - intro Npost. apply normalise_array_in_prose; assumption.
Qed.

Lemma grant_cleaner_loses_short_text_witness :
  AiServiceGrant.cleanAndParseJSON (lit "Yes, sure.") = [].
Proof.
  apply grant_cleaner_loses_short_text.
  - simpl. lia.
  - apply absent_by_eqb. reflexivity.
Defined.

Lemma grant_cleaner_array_in_prose_witness :
  AiServiceGrant.cleanAndParseJSON
    (lit "Sure, here you go: " ++ LBRACKET :: ab_members ++ RBRACKET :: lit " (see [1])")
  = strings [lit "a"; lit "b"].
Proof.
  apply (@grant_cleaner_array_in_prose (lit "Sure, here you go: ") ab_members
           (lit " (see [1])") (strings [lit "a"; lit "b"])).
  - apply absent_by_eqb; reflexivity.
  - apply absent_by_eqb; reflexivity.
  - apply absent_by_eqb; reflexivity.
  - reflexivity.
  - discriminate.
Defined.

(** * The quoted-list stage and the paragraph stage *)

Lemma trim_fixed (c d : code_unit) (mid : jsstring) :
  isWhiteSpace c = false -> isWhiteSpace d = false ->
  trim (c :: mid ++ [d]) = c :: mid ++ [d].
Proof.
  intros Wc Wd. unfold trim. simpl trimStart. rewrite Wc.
  destruct (@trimEnd_keeps (c :: mid) d [] Wd) as (post' & E & I).
  change (c :: mid ++ [d]) with ((c :: mid) ++ [d]). rewrite E.
  destruct post' as [|x post']; [reflexivity|].
  destruct (I x (or_introl eq_refl)).
Qed.

Lemma In_join (c : code_unit) (sep : jsstring) (l : list jsstring) :
  In c (join sep l) -> In c sep \/ exists x, In x l /\ In c x.
Proof.
  induction l as [|x l IH]; simpl; [intros []|].
  destruct l as [|y l].
  - intro H. right. exists x. auto.
  - intro H. apply in_app_or in H. destruct H as [H|H].
    + right. exists x. auto.
    + apply in_app_or in H. destruct H as [H|H]; [left; exact H|].
      destruct (IH H) as [K|(z & K1 & K2)]; [left; exact K|].
      right. exists z. split; [right; exact K1|exact K2].
Qed.

(** ** Paragraphs *)

Lemma blank_line_not_at (b : bool) (c : code_unit) (s : jsstring) :
  c <> LF -> match_at false AiService.re_blank_line b (c :: s) = None.
Proof.
  intro N. destruct (match_at false AiService.re_blank_line b (c :: s)) eqn:E;
    [|reflexivity].
  apply blank_line_match in E. cbn [startsWith] in E.
  apply andb_true_iff in E. destruct E as [E _].
  apply cu_eqb_eq in E. congruence.
Qed.

Lemma split_paragraph (p : jsstring) :
  ~ In LF p ->
  forall b cur s,
    split_from false AiService.re_blank_line b 0 cur (p ++ s)
    = split_from false AiService.re_blank_line false 0 (rev p ++ cur) s.
Proof.
  induction p as [|c p IH]; intros N b cur s.
  - apply split_from_bol_free. reflexivity.
  - cbn [app split_from].
    rewrite blank_line_not_at by (intro K; apply N; left; congruence).
    rewrite IH by (intro K; apply N; right; exact K).
    simpl. rewrite <- app_assoc. reflexivity.
Qed.

Lemma split_blank_line (b : bool) (cur : jsstring) (c : code_unit) (s : jsstring) :
  c <> LF ->
  split_from false AiService.re_blank_line b 0 cur (LF :: LF :: c :: s)
  = rev cur :: split_from false AiService.re_blank_line false 0 [] (c :: s).
Proof.
  intro N.
  assert (M : match_at false AiService.re_blank_line b (LF :: LF :: c :: s) = Some 2).
  { unfold match_at, AiService.re_blank_line, Plus. cbn [rmatch].
    change (char_matches false LF LF) with true. cbn iota.
    change (cu_eqb LF LF) with true. cbn iota.
    rewrite star_greedy_stop by (apply cu_eqb_neq; exact N). reflexivity. }
  cbn [split_from]. rewrite M. reflexivity.
Qed.

Lemma paragraph_head (p : jsstring) :
  paragraph p -> exists c r, p = c :: r /\ c <> LF.
Proof.
  intros [_ L N]. destruct p as [|c r]; [simpl in L; lia|].
  exists c, r. split; [reflexivity|]. intro K. apply N. left. exact K.
Qed.

Lemma join_head (sep : jsstring) (p : jsstring) (ps : list jsstring)
  (c : code_unit) (r : jsstring) :
  p = c :: r -> exists r', join sep (p :: ps) = c :: r'.
Proof.
  intros ->. simpl. destruct ps; [eauto|]. simpl. eauto.
Qed.

Lemma split_paragraphs (ps : list jsstring) :
  Forall paragraph ps -> ps <> [] ->
  forall b cur,
    split_from false AiService.re_blank_line b 0 cur (join [LF; LF] ps)
    = match ps with
      | [] => []
      | p :: rest => (rev cur ++ p) :: rest
      end.
Proof.
  induction 1 as [|p ps P Ps IH]; intros Ne b cur; [congruence|].
  destruct ps as [|q ps].
  - simpl join. rewrite <- (app_nil_r p) at 1.
    rewrite split_paragraph by (apply P). simpl.
    rewrite rev_app_distr, rev_involutive. reflexivity.
  - change (join [LF; LF] (p :: q :: ps))
      with (p ++ [LF; LF] ++ join [LF; LF] (q :: ps)).
    rewrite split_paragraph by (apply P).
    inversion Ps as [|? ? Q _]; subst.
    destruct (paragraph_head Q) as (c & r & E & N).
    destruct (@join_head [LF; LF] q ps c r E) as (r' & J).
    pose proof (IH ltac:(discriminate) false []) as IH'.
    rewrite J in *. cbn [app].
    rewrite split_blank_line by exact N.
    rewrite IH'. rewrite rev_app_distr, rev_involutive. reflexivity.
Qed.

Lemma paragraphsOf_join (ps : list jsstring) :
  Forall paragraph ps -> ps <> [] ->
  AiService.paragraphsOf (join [LF; LF] ps) = ps.
Proof.
  intros P Ne.
  assert (S : split_re false AiService.re_blank_line (join [LF; LF] ps) = ps).
  { destruct ps as [|p rest]; [congruence|].
    inversion P as [|? ? P0 _]; subst.
    destruct (paragraph_head P0) as (c & r & E & _).
    destruct (@join_head [LF; LF] p rest c r E) as (r' & J).
    unfold split_re.
    destruct (join [LF; LF] (p :: rest)) as [|c0 r0] eqn:J'; [discriminate J|].
    rewrite <- J'. exact (split_paragraphs P Ne true []). }
  unfold AiService.paragraphsOf. rewrite S.
  clear S Ne. induction P as [|x l Px _ IH]; [reflexivity|].
  simpl. destruct Px as [T L _]. rewrite T.
  apply Nat.ltb_lt in L. rewrite L. f_equal. exact IH.
Qed.

(** X21.  The paragraph stage.  Two or more paragraphs with a blank line between
    them - each trimmed, on one line and longer than twenty code units -
    are returned one by one, when the text holds no opening bracket and no
    double quote and no list marker follows a line break. *)
Theorem cleanAndParseJSON_paragraphs (ps : list jsstring) :
  1 < List.length ps ->
  Forall paragraph ps ->
  ~ In LBRACKET (join [LF; LF] ps) ->
  ~ In DQUOTE (join [LF; LF] ps) ->
  exec true AiService.re_list_marker (join [LF; LF] ps) = None ->
  AiService.cleanAndParseJSON (join [LF; LF] ps) = strings ps.
Proof.
  intros L P B Q M. unfold AiService.cleanAndParseJSON.
  rewrite extractJSON_no_bracket
    by (intro K; apply B; apply cleanText_incl; exact K).
  assert (Q1 : includes [DQUOTE; COMMA; SP; DQUOTE]
                 (AiService.cleanText (join [LF; LF] ps)) = false).
  { destruct (includes _ _) eqn:E; [|reflexivity].
    apply includes_In, cleanText_incl in E. contradiction. }
  assert (Q2 : startsWith [DQUOTE] (AiService.cleanText (join [LF; LF] ps)) = false).
  { destruct (startsWith _ _) eqn:E; [|reflexivity].
    apply startsWith_In, cleanText_incl in E. contradiction. }
  rewrite Q1, Q2. cbn [orb andb].
  unfold AiService.validItemsOf. rewrite (@exec_none_split _ _ _ M).
  change (List.map trim [join [LF; LF] ps]) with [trim (join [LF; LF] ps)].
  rewrite length_map_filter_singleton.
  rewrite paragraphsOf_join by (auto; intro K; subst; simpl in L; lia).
  apply Nat.ltb_lt in L. rewrite L. reflexivity.
Qed.

(** ** Quoted lists *)

Lemma quote_comma_not_at (b : bool) (c d : code_unit) (s : jsstring) :
  c <> COMMA -> (c = DQUOTE -> d <> COMMA) ->
  match_at false AiService.re_quote_comma b (c :: d :: s) = None.
Proof.
  intros N1 N2. unfold match_at, AiService.re_quote_comma. cbn [rmatch].
  unfold char_matches.
  assert (E2 : cu_eqb COMMA c = false) by (apply cu_eqb_neq; congruence).
  rewrite E2.
  destruct (cu_eqb DQUOTE c) eqn:E1; [|reflexivity].
  apply cu_eqb_eq in E1. symmetry in E1. specialize (N2 E1).
  assert (E3 : cu_eqb COMMA d = false) by (apply cu_eqb_neq; congruence).
  rewrite E3. reflexivity.
Qed.

Lemma quote_comma_not_last (b : bool) (c : code_unit) :
  c <> COMMA -> match_at false AiService.re_quote_comma b [c] = None.
Proof.
  intros N1. unfold match_at, AiService.re_quote_comma. cbn [rmatch].
  unfold char_matches.
  assert (E2 : cu_eqb COMMA c = false) by (apply cu_eqb_neq; congruence).
  rewrite E2. destruct (cu_eqb DQUOTE c); reflexivity.
Qed.

Lemma split_from_none (ic : bool) (r : regex) (b : bool) (cur : jsstring)
  (c : code_unit) (s : jsstring) :
  match_at ic r b (c :: s) = None ->
  split_from ic r b 0 cur (c :: s) = split_from ic r false 0 (c :: cur) s.
Proof. intro M. cbn [split_from]. rewrite M. reflexivity. Qed.

(** Through an item: nothing splits before the quote that closes it. *)
Lemma split_quoted_item (it : jsstring) :
  ~ In DQUOTE it -> ~ In COMMA it ->
  forall b cur s,
    split_from false AiService.re_quote_comma b 0 cur (it ++ DQUOTE :: s)
    = split_from false AiService.re_quote_comma false 0 (rev it ++ cur) (DQUOTE :: s).
Proof.
  induction it as [|c it IH]; intros NQ NC b cur s.
  - apply split_from_bol_free. reflexivity.
  - cbn [app]. 
    assert (Cc : c <> COMMA) by (intro K; apply NC; left; congruence).
    assert (Cq : c <> DQUOTE) by (intro K; apply NQ; left; congruence).
    assert (M : match_at false AiService.re_quote_comma b (c :: it ++ DQUOTE :: s) = None).
    { destruct it as [|d it]; cbn [app];
        apply quote_comma_not_at; auto; intro K; contradiction. }
    cbn [split_from]. rewrite M.
    rewrite IH;
      [|intro K; apply NQ; right; exact K|intro K; apply NC; right; exact K].
    simpl. rewrite <- app_assoc. reflexivity.
Qed.

Lemma quoted_item_head (it : jsstring) :
  quoted_item it -> exists c r, it = c :: r /\ c <> COMMA /\ c <> DQUOTE.
Proof.
  intros [_ L Q C _ _ _]. destruct it as [|c r]; [simpl in L; lia|].
  exists c, r. split; [reflexivity|].
  split; intro K; [apply C|apply Q]; left; exact K.
Qed.

Lemma split_quoted_list (items : list jsstring) :
  Forall quoted_item items ->
  forall b,
    split_from false AiService.re_quote_comma b 0 [] (quoted_list items)
    = match items with
      | [] => [[]]
      | _ :: _ => quoted_pieces items
      end.
Proof.
  induction 1 as [|it items I Is IH]; intro b; [reflexivity|].
  destruct (quoted_item_head I) as (c & r & E & Cc & Cq).
  assert (Open : forall b' s,
             split_from false AiService.re_quote_comma b' 0 [] (DQUOTE :: it ++ DQUOTE :: s)
             = split_from false AiService.re_quote_comma false 0 (rev it ++ [DQUOTE])
                 (DQUOTE :: s)).
  { intros b' s.
    rewrite split_from_none;
      [|rewrite E; cbn [app]; apply quote_comma_not_at;
        [discriminate|intros _; exact Cc]].
    apply (@split_quoted_item it (quoted_no_quote I) (quoted_no_comma I) false
             [DQUOTE] s). }
  destruct items as [|it2 items].
  - unfold quoted_list, quoted. cbn [List.map join app quoted_pieces].
    rewrite Open. cbn [split_from].
    rewrite quote_comma_not_last by discriminate.
    cbn [split_from rev]. rewrite rev_app_distr, rev_involutive. reflexivity.
  - change (quoted_list (it :: it2 :: items))
      with ((DQUOTE :: it ++ [DQUOTE]) ++ [COMMA; SP] ++ quoted_list (it2 :: items)).
    change (quoted_pieces (it :: it2 :: items))
      with ((DQUOTE :: it) :: quoted_pieces (it2 :: items)).
    rewrite <- (IH false).
    assert (H2 : exists r2, quoted_list (it2 :: items) = DQUOTE :: r2).
    { unfold quoted_list, quoted. cbn [List.map join].
      destruct (List.map _ items); cbn [app]; eauto. }
    destruct H2 as (r2 & J). rewrite J.
    cbn [app]. rewrite <- app_assoc. cbn [app].
    rewrite Open.
    assert (M : match_at false AiService.re_quote_comma false
                  (DQUOTE :: COMMA :: SP :: DQUOTE :: r2) = Some 3) by reflexivity.
    cbn [split_from]. rewrite M.
    rewrite rev_app_distr, rev_involutive. reflexivity.
Qed.

Lemma quote_edges_inside (c d : code_unit) (s : jsstring) :
  c <> DQUOTE -> c <> RBRACKET ->
  match_at false AiService.re_quote_edges false (c :: d :: s) = None.
Proof.
  intros N1 N2. unfold match_at, AiService.re_quote_edges, Opt. cbn [rmatch].
  unfold char_matches.
  assert (E1 : cu_eqb DQUOTE c = false) by (apply cu_eqb_neq; congruence).
  assert (E2 : cu_eqb RBRACKET c = false) by (apply cu_eqb_neq; congruence).
  rewrite E1, E2. reflexivity.
Qed.

Lemma quote_edges_last (c : code_unit) :
  c <> DQUOTE -> c <> RBRACKET ->
  match_at false AiService.re_quote_edges false [c] = None.
Proof.
  intros N1 N2. unfold match_at, AiService.re_quote_edges, Opt. cbn [rmatch].
  unfold char_matches.
  assert (E1 : cu_eqb DQUOTE c = false) by (apply cu_eqb_neq; congruence).
  assert (E2 : cu_eqb RBRACKET c = false) by (apply cu_eqb_neq; congruence).
  rewrite E1, E2. reflexivity.
Qed.

(** Past the opening quote, the pattern for the edges takes a closing
    quote at the end and nothing else. *)
Lemma quote_edges_body (it tail : jsstring) :
  ~ In DQUOTE it -> ~ In RBRACKET it -> tail = [] \/ tail = [DQUOTE] ->
  replaceAll_from false AiService.re_quote_edges [] false 0 (it ++ tail) = it.
Proof.
  intros NQ NB T. induction it as [|c it IH].
  - destruct T as [->| ->]; reflexivity.
  - assert (Cq : c <> DQUOTE) by (intro K; apply NQ; left; congruence).
    assert (Cb : c <> RBRACKET) by (intro K; apply NB; left; congruence).
    assert (M : match_at false AiService.re_quote_edges false (c :: it ++ tail) = None).
    { destruct it as [|d it]; cbn [app].
      - destruct T as [->| ->];
          [apply quote_edges_last|apply quote_edges_inside]; assumption.
      - apply quote_edges_inside; assumption. }
    cbn [app replaceAll_from]. rewrite M. f_equal.
    apply IH; intro K; [apply NQ|apply NB]; right; exact K.
Qed.

Lemma quote_edges_piece (it tail : jsstring) :
  ~ In DQUOTE it -> ~ In RBRACKET it -> tail = [] \/ tail = [DQUOTE] ->
  replaceAll false AiService.re_quote_edges [] (DQUOTE :: it ++ tail) = it.
Proof.
  intros NQ NB T. unfold replaceAll.
  assert (M : match_at false AiService.re_quote_edges true (DQUOTE :: it ++ tail) = Some 1)
    by reflexivity.
  cbn [replaceAll_from]. rewrite M. cbn [app].
  apply quote_edges_body; assumption.
Qed.

Lemma quotedItemsOf_pieces (items : list jsstring) :
  Forall quoted_item items ->
  filter (fun i => 5 <? List.length i)
    (List.map (fun item => trim (replaceAll false AiService.re_quote_edges [] item))
       (quoted_pieces items))
  = items.
Proof.
  induction 1 as [|it items I _ IH]; [reflexivity|].
  assert (L : (5 <? List.length it) = true) by (apply Nat.ltb_lt, (quoted_long I)).
  destruct items as [|it2 items].
  - cbn [quoted_pieces List.map]. unfold quoted. cbn [app].
    rewrite (@quote_edges_piece it [DQUOTE])
      by (auto; apply I).
    rewrite (quoted_trimmed I). cbn [filter]. rewrite L. reflexivity.
  - change (quoted_pieces (it :: it2 :: items))
      with ((DQUOTE :: it) :: quoted_pieces (it2 :: items)).
    cbn [List.map]. rewrite <- (app_nil_r it) at 1.
    rewrite (@quote_edges_piece it [])
      by (auto; apply I).
    rewrite (quoted_trimmed I). cbn [filter]. rewrite L. f_equal. exact IH.
Qed.

(** X20.  The quoted-list stage.  Two or more items in double quotes with a
    comma and a space between them, and no brackets around, are returned
    one by one: each item trimmed, longer than five code units, and free of
    double quotes, commas, brackets and backticks. *)
Theorem cleanAndParseJSON_quoted_list (items : list jsstring) :
  1 < List.length items ->
  Forall quoted_item items ->
  AiService.cleanAndParseJSON (quoted_list items) = strings items.
Proof.
  intros L I.
  destruct items as [|it rest] eqn:Eit; [simpl in L; lia|]. rewrite <- Eit in *.
  assert (Ne : items <> []) by (subst; discriminate).
  assert (absent : forall c, c <> DQUOTE -> c <> COMMA -> c <> SP ->
                     (forall x, quoted_item x -> ~ In c x) ->
                     ~ In c (quoted_list items)).
  { intros c N1 N2 N3 F K. unfold quoted_list in K. apply In_join in K.
    destruct K as [[K|[K|[]]]|(x & K1 & K2)]; try congruence.
    apply in_map_iff in K1. destruct K1 as (y & <- & K1).
    rewrite Forall_forall in I. specialize (F y (I y K1)).
    unfold quoted in K2. simpl in K2.
    destruct K2 as [K2|K2]; [congruence|].
    apply in_app_or in K2. destruct K2 as [K2|[K2|[]]]; [contradiction|congruence]. }
  assert (Shape : exists mid, quoted_list items = DQUOTE :: mid ++ [DQUOTE]).
  { clear L absent. rewrite Eit. clear Eit Ne I.
    revert it. induction rest as [|it2 rest IH]; intro it.
    - exists it. reflexivity.
    - destruct (IH it2) as (mid & E).
      exists (it ++ [DQUOTE; COMMA; SP] ++ DQUOTE :: mid).
      change (quoted_list (it :: it2 :: rest))
        with ((DQUOTE :: it ++ [DQUOTE]) ++ [COMMA; SP] ++ quoted_list (it2 :: rest)).
      rewrite E. simpl. rewrite <- !app_assoc. reflexivity. }
  destruct Shape as (mid & Sh).
  assert (Cl : AiService.cleanText (quoted_list items) = quoted_list items).
  { rewrite cleanText_no_fence
      by (apply absent; try discriminate; intros x X; apply X).
    rewrite Sh. apply trim_fixed; reflexivity. }
  unfold AiService.cleanAndParseJSON. rewrite Cl.
  rewrite extractJSON_no_bracket
    by (apply absent; try discriminate; intros x X; apply X).
  assert (St : startsWith [DQUOTE] (quoted_list items) = true)
    by (rewrite Sh; reflexivity).
  rewrite St, orb_true_r. cbn [andb].
  assert (Q : AiService.quotedItemsOf (quoted_list items) = items).
  { unfold AiService.quotedItemsOf, split_re. rewrite Sh at 1. cbv iota.
    rewrite (split_quoted_list I).
    clear - I Eit. destruct items as [|i0 r0]; [discriminate Eit|].
    apply quotedItemsOf_pieces. exact I. }
  rewrite Q. apply Nat.ltb_lt in L. rewrite L. reflexivity.
Qed.

Lemma cleanAndParseJSON_paragraphs_witness :
  AiService.cleanAndParseJSON
    (lit "AI changes how teams plan campaigns." ++ [LF; LF]
       ++ lit "Start small, measure, then scale up.")
  = strings two_paragraphs.
Proof.
  apply (@cleanAndParseJSON_paragraphs two_paragraphs).
  - simpl. lia.
  - repeat (constructor;
            [split; [reflexivity|simpl; lia|apply absent_by_eqb; reflexivity]|]).
    constructor.
  - apply absent_by_eqb. reflexivity.
  - apply absent_by_eqb. reflexivity.
  - reflexivity.
Defined.

Lemma cleanAndParseJSON_quoted_list_witness :
  AiService.cleanAndParseJSON
    (quoted (lit "I spent a year on this") ++ lit ", "
       ++ quoted (lit "Nobody tells you that") ++ lit ", "
       ++ quoted (lit "Stop doing this now"))
  = strings three_hooks.
Proof.
  apply (@cleanAndParseJSON_quoted_list three_hooks).
  - simpl. lia.
  - repeat (constructor;
            [split; [reflexivity|simpl; lia|apply absent_by_eqb; reflexivity ..]|]).
    constructor.
Defined.

(** * The generation stages *)

Section StageFacts.

Variable EIGEN_MODEL : jsstring.

(** [resolveModelId] answers a model, except for a name that is neither
    empty nor a string, asked for while the primary provider is in use. *)
Lemma resolveModelId_cases (model : value) (g : bool) :
  (exists m, Stages.resolveModelId EIGEN_MODEL model g = Ret (Returned m, g)
             /\ (g = true -> m = GROQ_MODEL))
  \/ (Stages.resolveModelId EIGEN_MODEL model g = Ret (Thrown TypeError, g)
      /\ g = false /\ truthy model = true /\ forall s, model <> VString s).
Proof.
  unfold Stages.resolveModelId, bind, isUsingGroq. cbn.
  destruct g; cbn; [left; eexists; split; [reflexivity|auto]|].
  destruct (truthy model) eqn:T; cbn;
    [|left; eexists; split; [reflexivity|discriminate]].
  destruct model; cbn;
    try (right; repeat split; auto; intros s K; discriminate K).
  left.
  repeat match goal with
         | |- context [if ?b then _ else _] => destruct b
         end;
    eexists; (split; [reflexivity|discriminate]).
Qed.

(** [generateTopics] with an input that has a primitive form: it returns. *)
Lemma generateTopics_returns (o : oracle) (past : list call)
  (input depth model : value) (g : bool) :
  printable input = true ->
  exists r g' t,
    run o past (Stages.generateTopics EIGEN_MODEL input depth model g)
    = ((Returned r, g'), t)
    /\ ((t = [] /\ g' = g /\ Stages.stageResult r = Stages.Placeholder [input])
        \/ (exists m, t = [ChatCompletion g m Topics [input]] /\ g' = g)
        \/ (g = false /\ g' = true
            /\ exists m e,
                 t = [ChatCompletion false m Topics [input];
                      ChatCompletion true GROQ_MODEL Topics [input]]
                 /\ o past (ChatCompletion false m Topics [input]) = Thrown e
                 /\ errStatus e = VNumber 401)).
Proof.
  intro P.
  unfold Stages.generateTopics. cbn [Stages.generateTopics_fuel].
  rewrite !(@interpolate_one_printable _ P), !bind_ret_tt.
  unfold try_catch at 1. unfold bind at 1. cbv beta.
  destruct (resolveModelId_cases model g) as [(m & R & _)|(R & G & _)].
  2:{ rewrite R. subst g. cbn. do 3 eexists. split; [reflexivity|].
      left. auto. }
  rewrite R. unfold bind, isUsingGroq, perform, ret, throw. cbn.
  destruct (o past (ChatCompletion g m Topics [input])) as [c|e] eqn:E1; cbn.
  - unfold Stages.normalise.
    match goal with |- context [orElse ?a ?b] => destruct (orElse a b) end; cbn;
      try (destruct g; cbn); do 3 eexists; (split; [reflexivity|]);
      right; left; eexists; split; reflexivity.
  - destruct g; cbn.
    { do 3 eexists. split; [reflexivity|]. right. left. eexists. split; reflexivity. }
    destruct (isNumber (errStatus e) 401) eqn:S; cbn.
    2:{ do 3 eexists. split; [reflexivity|]. right. left. eexists. split; reflexivity. }
    assert (S' : errStatus e = VNumber 401).
    { destruct (errStatus e); simpl in S; try discriminate S.
      apply Z.eqb_eq in S. congruence. }
    unfold try_catch, bind, switchToGroq, Stages.resolveModelId, isUsingGroq, perform,
      ret, throw. cbn.
    match goal with
    | |- context [o ?p ?c] => destruct (o p c) as [c2|e'] eqn:E2
    end; cbn.
    + unfold Stages.normalise.
      match goal with |- context [orElse ?a ?b] => destruct (orElse a b) end; cbn;
        do 3 eexists; (split; [reflexivity|]);
        right; right; repeat split; exists m, e; auto.
    + do 3 eexists. split; [reflexivity|].
      right; right; repeat split; exists m, e; auto.
Qed.

(** X24.  [generateTopics] throws exactly when its [input] has no primitive
    form, and then before any call: the prompt cannot be built.
    Otherwise it returns, whatever its other arguments and whatever the
    provider does.  It then makes no provider call (when the model name
    cannot be resolved), one, or two: the second goes to the fallback
    provider with its model and is made only when the primary was in use
    and refused the first with status 401; the process then stays on the
    fallback. *)
Theorem generateTopics_throws_iff (o : oracle) (past : list call)
  (input depth model : value) (g : bool) :
  let r := run o past (Stages.generateTopics EIGEN_MODEL input depth model g) in
  ((exists e, fst (fst r) = Thrown e) <-> printable input = false)
  /\ (printable input = false -> r = ((Thrown cannotConvert, g), []))
  /\ (printable input = true ->
      exists a g' t,
        r = ((Returned a, g'), t)
        /\ ((t = [] /\ g' = g /\ Stages.stageResult a = Stages.Placeholder [input])
            \/ (exists m, t = [ChatCompletion g m Topics [input]] /\ g' = g)
            \/ (g = false /\ g' = true
                /\ exists m e,
                     t = [ChatCompletion false m Topics [input];
                          ChatCompletion true GROQ_MODEL Topics [input]]
                     /\ o past (ChatCompletion false m Topics [input]) = Thrown e
                     /\ errStatus e = VNumber 401))).
Proof.
  intro r. subst r.
  assert (Bad : printable input = false ->
                Stages.generateTopics EIGEN_MODEL input depth model g
                = Ret (Thrown cannotConvert, g)).
  { intro P. unfold Stages.generateTopics. cbn [Stages.generateTopics_fuel].
    rewrite (@interpolate_one_unprintable _ P), bind_throw. reflexivity. }
  pose proof (generateTopics_returns o past input depth model g) as Good.
  split; [split|split].
  - intros (e & E). destruct (printable input); [|reflexivity].
    destruct (Good eq_refl) as (a & g' & t & G & _). rewrite G in E. discriminate E.
  - intro P. rewrite (Bad P). exists cannotConvert. reflexivity.
  - intro P. rewrite (Bad P). reflexivity.
  - exact Good.
Qed.

(** More fuel than one changes nothing: the retry is taken at most
    once. *)
Lemma try_bind_ret (A B : Type) (m : M A) (f : A -> M B) (h : error -> M B)
  (g g' : bool) (a : A) :
  m g = Ret (Returned a, g') -> try_catch (bind m f) h g = try_catch (f a) h g'.
Proof. intro E. unfold try_catch, bind. rewrite E. reflexivity. Qed.

Lemma try_bind_throw (A B : Type) (m : M A) (f : A -> M B) (h : error -> M B)
  (g g' : bool) (e : error) :
  m g = Ret (Thrown e, g') -> try_catch (bind m f) h g = h e g'.
Proof. intro E. unfold try_catch, bind. rewrite E. reflexivity. Qed.

Lemma generateTopics_fuel_raised (n : nat) (o : oracle) (past : list call)
  (input depth model : value) :
  run o past (Stages.generateTopics_fuel EIGEN_MODEL n input depth model true)
  = run o past (Stages.generateTopics_fuel EIGEN_MODEL 0 input depth model true).
Proof.
  destruct n; [reflexivity|].
  cbn [Stages.generateTopics_fuel].
  destruct (printable input) eqn:P.
  2:{ rewrite !(@interpolate_one_unprintable _ P), !bind_throw. reflexivity. }
  rewrite !(@interpolate_one_printable _ P), !bind_ret_tt. cbn.
  destruct (o past _) as [c|e]; cbn; [|reflexivity].
  unfold Stages.normalise.
  match goal with |- context [orElse ?a ?b] => destruct (orElse a b) end; cbn;
    reflexivity.
Qed.

Lemma generateTopics_fuel_enough (n : nat) (o : oracle) (past : list call)
  (input depth model : value) (g : bool) :
  run o past (Stages.generateTopics_fuel EIGEN_MODEL (S n) input depth model g)
  = run o past (Stages.generateTopics EIGEN_MODEL input depth model g).
Proof.
  unfold Stages.generateTopics.
  destruct g;
    [rewrite (generateTopics_fuel_raised (S n)), (generateTopics_fuel_raised 1);
     reflexivity|].
  cbn [Stages.generateTopics_fuel].
  destruct (printable input) eqn:P.
  2:{ rewrite !(@interpolate_one_unprintable _ P), !bind_throw. reflexivity. }
  rewrite !(@interpolate_one_printable _ P), !bind_ret_tt.
  destruct (resolveModelId_cases model false) as [(m & R & _)|(R & _)].
  2:{ rewrite !(@try_bind_throw _ _ _ _ _ _ _ _ R). reflexivity. }
  rewrite !(@try_bind_ret _ _ _ _ _ _ _ _ R).
  unfold try_catch, bind, isUsingGroq, perform, ret, throw. cbn.
  destruct (o past (ChatCompletion false m Topics [input])) as [c|e] eqn:E1; cbn.
  - unfold Stages.normalise.
    match goal with |- context [orElse ?a ?b] => destruct (orElse a b) end; cbn;
      reflexivity.
  - destruct (isNumber (errStatus e) 401) eqn:S; cbn; [|reflexivity].
    destruct n;
      [cbn [Stages.generateTopics_fuel];
       rewrite !(@interpolate_one_printable _ P), !bind_ret_tt; reflexivity|].
    cbn [Stages.generateTopics_fuel].
    rewrite !(@interpolate_one_printable _ P), !bind_ret_tt.
    unfold try_catch, bind, switchToGroq, Stages.resolveModelId, isUsingGroq, perform,
      ret, throw. cbn.
    match goal with
    | |- context [o ?p ?c] => destruct (o p c) as [c2|e'] eqn:E2
    end; cbn; [|reflexivity].
    unfold Stages.normalise.
    match goal with |- context [orElse ?a ?b] => destruct (orElse a b) end; cbn;
      reflexivity.
Qed.

(** X25.  For an [input] that has a primitive form: when the provider
    answers a text that is a JSON array (without backticks),
    [generateTopics] answers the elements of that array and the signature
    of the completion, after that one call. *)
Theorem generateTopics_parses_array (o : oracle) (past : list call)
  (input depth model sig : value) (g : bool) (m s : jsstring) (l : list json) :
  printable input = true ->
  Stages.resolveModelId EIGEN_MODEL model g = Ret (Returned m, g) ->
  o past (ChatCompletion g m Topics [input])
  = Returned (mkCompletion (VString s) sig) ->
  JSON_parse s = Some (JArray l) ->
  ~ In BACKTICK s ->
  run o past (Stages.generateTopics EIGEN_MODEL input depth model g)
  = ((Returned (Stages.mkStage (Stages.Normalised l) sig), g),
     [ChatCompletion g m Topics [input]]).
Proof.
  intros Q R E P N.
  unfold Stages.generateTopics. cbn [Stages.generateTopics_fuel].
  rewrite !(@interpolate_one_printable _ Q), !bind_ret_tt.
  unfold try_catch at 1. unfold bind at 1. cbv beta. rewrite R.
  unfold bind, isUsingGroq, perform, ret, throw. cbn. rewrite E. cbn.
  unfold orElse. destruct s as [|c s]; [discriminate P|]. cbn.
  rewrite (@normalise_valid_array _ _ P N). reflexivity.
Qed.

(** X26.  For an [input] that has a primitive form: when the provider
    fails, and no retry is due (the fallback is already in use, or the
    status is not 401), [generateTopics] answers the input as the only
    topic, without a signature.  When the completion holds no content, it
    answers the empty list. *)
Theorem generateTopics_without_answer (o : oracle) (past : list call)
  (input depth model : value) (g : bool) (m : jsstring) :
  printable input = true ->
  Stages.resolveModelId EIGEN_MODEL model g = Ret (Returned m, g) ->
  (forall e, o past (ChatCompletion g m Topics [input]) = Thrown e ->
             g = true \/ isNumber (errStatus e) 401 = false ->
             run o past (Stages.generateTopics EIGEN_MODEL input depth model g)
             = ((Returned (Stages.mkStage (Stages.Placeholder [input]) VUndefined), g),
                [ChatCompletion g m Topics [input]]))
  /\ (forall content sig,
        o past (ChatCompletion g m Topics [input])
        = Returned (mkCompletion content sig) ->
        truthy content = false ->
        run o past (Stages.generateTopics EIGEN_MODEL input depth model g)
        = ((Returned (Stages.mkStage (Stages.Normalised []) sig), g),
           [ChatCompletion g m Topics [input]])).
Proof.
  intros Q R. split.
  - intros e E C.
    unfold Stages.generateTopics. cbn [Stages.generateTopics_fuel].
    rewrite !(@interpolate_one_printable _ Q), !bind_ret_tt.
    unfold try_catch at 1. unfold bind at 1. cbv beta. rewrite R.
    unfold bind, isUsingGroq, perform, ret, throw. cbn. rewrite E. cbn.
    destruct g; cbn; [reflexivity|].
    destruct C as [C|C]; [discriminate C|]. rewrite C. reflexivity.
  - intros content sig E T.
    unfold Stages.generateTopics. cbn [Stages.generateTopics_fuel].
    rewrite !(@interpolate_one_printable _ Q), !bind_ret_tt.
    unfold try_catch at 1. unfold bind at 1. cbv beta. rewrite R.
    unfold bind, isUsingGroq, perform, ret, throw. cbn. rewrite E. cbn.
    unfold orElse. rewrite T. reflexivity.
Qed.

(** X27.  [generateCTA] throws exactly when its [body] or its [intent] is not a
    string, and then before any call: the prompt cannot be built.  With
    two strings it answers whatever the provider does. *)
Theorem generateCTA_throws_iff (o : oracle) (past : list call)
  (body intent model : value) (g : bool) :
  let r := run o past (Stages.generateCTA EIGEN_MODEL body intent model g) in
  ((exists e, fst (fst r) = Thrown e)
   <-> ((forall s, body <> VString s) \/ (forall s, intent <> VString s)))
  /\ ((exists e, fst (fst r) = Thrown e) -> r = ((Thrown TypeError, g), [])).
Proof.
  intro r. subst r.
  assert (Bad : (forall s, body <> VString s) \/ (forall s, intent <> VString s) ->
                Stages.generateCTA EIGEN_MODEL body intent model g
                = Ret (Thrown TypeError, g)).
  { unfold Stages.generateCTA. cbn [Stages.generateCTA_fuel].
    intros [N|N]; destruct body; try reflexivity; destruct intent; try reflexivity;
      exfalso; eapply N; reflexivity. }
  assert (Good : forall b i, body = VString b -> intent = VString i ->
                 exists a g' t,
                   run o past (Stages.generateCTA EIGEN_MODEL body intent model g)
                   = ((Returned a, g'), t)).
  { intros b i -> ->.
    unfold Stages.generateCTA. cbn [Stages.generateCTA_fuel].
    unfold try_catch at 1. unfold bind at 1. cbv beta.
    destruct (resolveModelId_cases model g) as [(m & R & _)|(R & G & _)].
    2:{ rewrite R. subst g. cbn. do 3 eexists. reflexivity. }
    rewrite R. unfold bind, isUsingGroq, perform, ret, throw. cbn.
    match goal with
    | |- context [o ?p ?c] => destruct (o p c) as [c1|e] eqn:E1
    end; cbn.
    - unfold Stages.normalise.
      match goal with |- context [orElse ?x ?y] => destruct (orElse x y) end; cbn;
        try (destruct g; cbn); do 3 eexists; reflexivity.
    - destruct g; cbn; [do 3 eexists; reflexivity|].
      destruct (isNumber (errStatus e) 401); cbn; [|do 3 eexists; reflexivity].
      unfold try_catch, bind, switchToGroq, Stages.resolveModelId, isUsingGroq,
        perform, ret, throw. cbn.
      match goal with
      | |- context [o ?p ?c] => destruct (o p c) as [c2|e'] eqn:E2
      end; cbn; [|do 3 eexists; reflexivity].
      unfold Stages.normalise.
      match goal with |- context [orElse ?x ?y] => destruct (orElse x y) end; cbn;
        do 3 eexists; reflexivity. }
  assert (Dec : ((forall s, body <> VString s) \/ (forall s, intent <> VString s))
                \/ exists b i, body = VString b /\ intent = VString i).
  { destruct body; try (left; left; intros s0 K; discriminate K).
    destruct intent; try (left; right; intros s0 K; discriminate K).
    right. eauto. }
  split; [split|].
  - intros (e & E). destruct Dec as [D|(b & i & B & I)]; [exact D|].
    destruct (Good b i B I) as (a & g' & t & G). rewrite G in E. discriminate E.
  - intro D. rewrite (Bad D). exists TypeError. reflexivity.
  - intros (e & E). destruct Dec as [D|(b & i & B & I)].
    + rewrite (Bad D). reflexivity.
    + destruct (Good b i B I) as (a & g' & t & G). rewrite G in E. discriminate E.
Qed.

End StageFacts.

(** ** The pool of style examples *)

Lemma filter_nonempty_In (A : Type) (f : A -> bool) (l : list A) (x : A) :
  In x l -> f x = true -> filter f l <> [].
Proof.
  intros I F E. assert (K : In x (filter f l)) by (apply filter_In; auto).
  rewrite E in K. destruct K.
Qed.

(** X28.  The pool that [getViralContext] draws from is never empty unless the
    data set is, and is made of posts of the data set; it holds only posts
    of the intent and the length when there is one, and else only posts of
    the length when there is one. *)
Theorem viralPool_tiers (viralPosts : list post) (intent length : jsstring) :
  let pool := viralPool viralPosts intent length in
  let both := fun p => postMatches intent (postIntent p)
                       && postMatches length (postLength p) in
  (viralPosts <> [] -> pool <> [])
  /\ incl pool viralPosts
  /\ (forall p, In p viralPosts -> both p = true ->
                forall q, In q pool -> both q = true)
  /\ (forall p, In p viralPosts -> postMatches length (postLength p) = true ->
                forall q, In q pool -> postMatches length (postLength q) = true).
Proof.
  intros pool both. subst pool. unfold viralPool. fold both.
  destruct (filter both viralPosts) as [|a1 l1] eqn:F1.
  - destruct (filter (fun p => postMatches length (postLength p)) viralPosts)
      as [|a2 l2] eqn:F2.
    + destruct (filter (fun p => postMatches intent (postIntent p)) viralPosts)
        as [|a3 l3] eqn:F3.
      * repeat split; auto.
        -- apply incl_refl.
        -- intros p I B. exfalso. apply (filter_nonempty_In both _ _ I B F1).
        -- intros p I B. exfalso.
           apply (filter_nonempty_In (fun p => postMatches length (postLength p))
                    _ _ I B F2).
      * repeat split; try discriminate.
        -- rewrite <- F3. intros x K. apply filter_In in K. tauto.
        -- intros p I B. exfalso. apply (filter_nonempty_In both _ _ I B F1).
        -- intros p I B. exfalso.
           apply (filter_nonempty_In (fun p => postMatches length (postLength p))
                    _ _ I B F2).
    + repeat split; try discriminate.
      * rewrite <- F2. intros x K. apply filter_In in K. tauto.
      * intros p I B. exfalso. apply (filter_nonempty_In both _ _ I B F1).
      * intros p _ _ q K. rewrite <- F2 in K. apply filter_In in K. tauto.
  - repeat split; try discriminate.
    + rewrite <- F1. intros x K. apply filter_In in K. tauto.
    + intros p _ _ q K. rewrite <- F1 in K. apply filter_In in K. tauto.
    + intros p _ _ q K. rewrite <- F1 in K. apply filter_In in K.
      destruct K as [_ K]. unfold both in K. apply andb_true_iff in K. tauto.
Qed.

Lemma generateTopics_parses_array_witness :
  run answering []
    (Stages.generateTopics (lit "gpt-oss-120b-f16") (VString (lit "AI in Marketing"))
       VUndefined VUndefined false)
  = ((Returned (Stages.mkStage
                  (Stages.Normalised (strings [lit "a"; lit "b"; lit "c"]))
                  (VString (lit "0xsigned"))), false),
     [ChatCompletion false (lit "gpt-oss-120b-f16") Topics
        [VString (lit "AI in Marketing")]]).
Proof.
  apply (@generateTopics_parses_array (lit "gpt-oss-120b-f16") answering []
           (VString (lit "AI in Marketing")) VUndefined VUndefined
           (VString (lit "0xsigned")) false (lit "gpt-oss-120b-f16") abc_array
           (strings [lit "a"; lit "b"; lit "c"])).
  - reflexivity.
  - reflexivity.
  - reflexivity.
  - reflexivity.
  - apply absent_by_eqb. reflexivity.
Defined.

Lemma generateTopics_without_answer_witness :
  run unavailable []
    (Stages.generateTopics (lit "gpt-oss-120b-f16") (VString (lit "AI in Marketing"))
       VUndefined VUndefined false)
  = ((Returned (Stages.mkStage
                  (Stages.Placeholder [VString (lit "AI in Marketing")]) VUndefined),
      false),
     [ChatCompletion false (lit "gpt-oss-120b-f16") Topics
        [VString (lit "AI in Marketing")]]).
Proof.
  apply (proj1 (@generateTopics_without_answer (lit "gpt-oss-120b-f16") unavailable []
                  (VString (lit "AI in Marketing")) VUndefined VUndefined false
                  (lit "gpt-oss-120b-f16") eq_refl eq_refl)
           (mkError (VString (lit "Service Unavailable")) (VNumber 503)) eq_refl).
  right. reflexivity.
Defined.

(** * The orchestrator, stage by stage *)

(** Running [m] and then [f]: the calls of [m], then those of [f] from
    where [m] left the flag. *)
Lemma run_bind (A B : Type) (o : oracle) (past : list call) (m : M A)
  (f : A -> M B) (g g1 : bool) (a : A) (t1 : list call) :
  run o past (m g) = ((Returned a, g1), t1) ->
  run o past (bind m f g)
  = (fst (run o (rev t1 ++ past) (f a g1)), t1 ++ snd (run o (rev t1 ++ past) (f a g1))).
Proof.
  intro E. unfold bind. rewrite run_pbind, E. reflexivity.
Qed.

Lemma run_bind_thrown (A B : Type) (o : oracle) (past : list call) (m : M A)
  (f : A -> M B) (g g1 : bool) (e : error) (t1 : list call) :
  run o past (m g) = ((Thrown e, g1), t1) ->
  run o past (bind m f g) = ((Thrown e, g1), t1).
Proof.
  intro E. unfold bind. rewrite run_pbind, E. cbn. rewrite app_nil_r. reflexivity.
Qed.

Lemma run_try_returned (A : Type) (o : oracle) (past : list call) (m : M A)
  (h : error -> M A) (g g1 : bool) (a : A) (t1 : list call) :
  run o past (m g) = ((Returned a, g1), t1) ->
  run o past (try_catch m h g) = ((Returned a, g1), t1).
Proof.
  intro E. unfold try_catch. rewrite run_pbind, E. cbn. rewrite app_nil_r. reflexivity.
Qed.

Section Orchestrator.

Variable EIGEN_MODEL : jsstring.
Variable generateTopics : value -> value -> value -> value -> M AIResponse.
Variable generateHooks : value -> value -> value -> value -> M AIResponse.
Variable generateBody : value -> value -> value -> value -> value -> value -> M AIResponse.
Variable generateCTA : value -> value -> value -> value -> M AIResponse.

(** X29.  Tier 1, stage by stage, for a content id that has a primitive
    form, so that the log line can be written.  The topics are generated
    for the fixed input; the hooks for the first topic; the bodies, short,
    for the first hook; each stage starts from the flag the one before
    left.  The answer holds the first topic, the first hook and the first
    body, and the calls are those of the three stages in that order: no
    call to action is generated and nothing is polished. *)
Theorem tier1_pipeline (o : oracle) (past : list call) (contentId : value)
  (g g1 g2 g3 : bool) (topics hooks bodies : AIResponse)
  (topic hook body : value) (t1 t2 t3 : list call) :
  let input := VString (lit "AI in Marketing") in
  let intent := VString (lit "educational") in
  printable contentId = true ->
  run o past (generateTopics input VUndefined VUndefined VUndefined g)
  = ((Returned topics, g1), t1) ->
  at0 (result topics) g1 = Ret (Returned topic, g1) ->
  run o (rev t1 ++ past) (generateHooks topic intent VUndefined VUndefined g1)
  = ((Returned hooks, g2), t2) ->
  at0 (result hooks) g2 = Ret (Returned hook, g2) ->
  run o (rev t2 ++ rev t1 ++ past)
    (generateBody hook topic intent (VString (lit "short")) VUndefined VUndefined g2)
  = ((Returned bodies, g3), t3) ->
  at0 (result bodies) g3 = Ret (Returned body, g3) ->
  run o past
    (generateTieredContent EIGEN_MODEL generateTopics generateHooks generateBody
       generateCTA (VNumber 1) contentId g)
  = ((Returned (VObject [("tier"%string, VNumber 1); ("topic"%string, topic);
                         ("hook"%string, hook); ("body"%string, body);
                         ("status"%string, VString (lit "completed"))]), g3),
     t1 ++ t2 ++ t3).
Proof.
  intros input intent P R1 A1 R2 A2 R3 A3.
  unfold generateTieredContent, interpolate.
  rewrite (@printable_pair (VNumber 1) contentId eq_refl P).
  cbn [isNumber Z.eqb Pos.eqb]. rewrite bind_ret_tt.
  fold input. fold intent.
  apply run_try_returned.
  rewrite (@run_bind _ _ _ _ _ _ _ _ _ _ R1).
  assert (S1 : forall (B : Type) (f : value -> M B) p,
             run o p (bind (at0 (result topics)) f g1) = run o p (f topic g1)).
  { intros B f p. unfold bind. rewrite A1. reflexivity. }
  assert (S2 : forall (B : Type) (f : value -> M B) p,
             run o p (bind (at0 (result hooks)) f g2) = run o p (f hook g2)).
  { intros B f p. unfold bind. rewrite A2. reflexivity. }
  assert (S3 : forall (B : Type) (f : value -> M B) p,
             run o p (bind (at0 (result bodies)) f g3) = run o p (f body g3)).
  { intros B f p. unfold bind. rewrite A3. reflexivity. }
  rewrite S1. rewrite (@run_bind _ _ _ _ _ _ _ _ _ _ R2).
  rewrite S2.
  rewrite (@run_bind _ _ _ _ _ _ _ _ _ _ R3).
  rewrite S3. cbn. rewrite !app_nil_r. reflexivity.
Qed.

End Orchestrator.

Lemma tier1_pipeline_witness :
  run staged []
    (generateTieredContent (lit "gpt-oss-120b-f16") askingTopics askingHooks askingBody
       noStage (VNumber 1) (VString (lit "test-1")) false)
  = ((Returned (VObject [("tier"%string, VNumber 1);
                         ("topic"%string, VString (lit "AI for small teams"));
                         ("hook"%string, VString (lit "Nobody tells you this."));
                         ("body"%string, VString (lit "Start with one workflow."));
                         ("status"%string, VString (lit "completed"))]), false),
     [ChatCompletion false (lit "gpt-oss-120b-f16") Topics
        [VString (lit "AI in Marketing")]]
     ++ [ChatCompletion false (lit "gpt-oss-120b-f16") Hooks
           [VString (lit "AI for small teams"); VString (lit "educational")]]
     ++ [ChatCompletion false (lit "gpt-oss-120b-f16") Body
           [VString (lit "Nobody tells you this."); VString (lit "AI for small teams");
            VString (lit "educational"); VString (lit "short")]]).
Proof.
  apply (@tier1_pipeline (lit "gpt-oss-120b-f16") askingTopics askingHooks askingBody
           noStage staged [] (VString (lit "test-1")) false false false false
           (mkAIResponse (VArray [VString (lit "AI for small teams")]) VUndefined)
           (mkAIResponse (VArray [VString (lit "Nobody tells you this.")]) VUndefined)
           (mkAIResponse (VArray [VString (lit "Start with one workflow.")]) VUndefined));
    reflexivity.
Defined.
